(** * World Bank ETL pipeline: a shallow embedding of the three loaders

    The repository consists of three single-shot batch scripts,
    [load_countries.py], [load_indicators.py] and [load_values.py].  Each one
    checks its configuration, opens a store connection, walks the pages of a
    JSON endpoint, flattens the records, cleans them with pandas and replaces
    a PostgreSQL table.

    The embedding keeps that shape.  JSON documents are an inductive type,
    Python dictionaries are finite maps, Python exceptions are the [Raise]
    branch of a [result], the [while True] page loop runs on fuel, and the
    store, the console and the network are threaded through [main] as an
    explicit state with a trace of events.  Everything outside the three
    files (the API server, the database, the environment, and what pandas
    does that depends on the machine representation of a column) is a
    [world] of oracles over which every theorem quantifies. *)

From Stdlib Require Import ZArith QArith Ascii.
From Stdlib Require Qcanon.
From stdpp Require Import gmap strings pretty list fin_maps.


#[local] Set Warnings "-register-all".
#[local] Open Scope Z_scope.

(** ** JSON values, as [response.json()] returns them

    A JSON number is kept by its exact value: Python tells [int] from
    [float], but every operation the scripts themselves apply to a number
    ([>=], truthiness, [is None]) depends on the value only.  Where pandas
    looks at the representation, the model asks the world.  A string is a
    sequence of characters, one [ascii] per code point. *)

Inductive json : Type :=
| JNull
| JBool (b : bool)
| JNum (q : Q)
| JStr (s : string)
| JArr (l : list json)
| JObj (m : gmap string json).

(** ** Exceptions and results *)

Inductive exn : Type :=
| AttributeError
| KeyError (k : string)
| IndexError
| TypeError
| ValueError
| OverflowError
| RequestException
| DBAPIError.

Inductive result (A : Type) : Type :=
| Ok (a : A)
| Raise (e : exn).
Arguments Ok {A} a.
Arguments Raise {A} e.

#[global] Instance result_ret : MRet result := fun _ a => Ok a.
#[global] Instance result_bind : MBind result := fun _ _ f r =>
  match r with
  | Ok a => f a
  | Raise e => Raise e
  end.

Definition is_ok {A} (r : result A) : bool :=
  match r with Ok _ => true | Raise _ => false end.

(** ** The Python operations the scripts apply to JSON values *)

Module Py.

(** [o.get(k, d)]: only a [dict] has the method. *)
Definition get (o : json) (k : string) (d : json) : result json :=
  match o with
  | JObj m => Ok (default d (m !! k))
  | _ => Raise AttributeError
  end.

(** [o[k]] with a string key. *)
Definition item (o : json) (k : string) : result json :=
  match o with
  | JObj m => match m !! k with Some v => Ok v | None => Raise (KeyError k) end
  | _ => Raise TypeError
  end.

(** [o[i]] with an integer index [i >= 0].  A dictionary decoded from JSON
    has string keys only, so an integer key is never found. *)
Definition index (o : json) (i : nat) : result json :=
  match o with
  | JArr l => match l !! i with Some v => Ok v | None => Raise IndexError end
  | JStr s =>
      match String.get i s with
      | Some c => Ok (JStr (String c EmptyString))
      | None => Raise IndexError
      end
  | JObj _ => Raise (KeyError (pretty i))
  | _ => Raise TypeError
  end.

(** [len(o)] *)
Definition len (o : json) : result nat :=
  match o with
  | JArr l => Ok (length l)
  | JStr s => Ok (String.length s)
  | JObj m => Ok (size m)
  | _ => Raise TypeError
  end.

(** Truth value, as [not o] and [if o] test it. *)
Definition truthy (o : json) : bool :=
  match o with
  | JNull => false
  | JBool b => b
  | JNum q => negb (Qeq_bool q 0)
  | JStr s => negb (bool_decide (s = EmptyString))
  | JArr l => negb (bool_decide (length l = 0%nat))
  | JObj m => negb (bool_decide (size m = 0%nat))
  end.

Definition is_list (o : json) : bool :=
  match o with JArr _ => true | _ => false end.

Definition is_dict (o : json) : bool :=
  match o with JObj _ => true | _ => false end.

Definition is_none (o : json) : bool :=
  match o with JNull => true | _ => false end.

(** The sequence a [for x in o] loop walks: the elements of a list, the
    keys of a dictionary, the characters of a string. *)
Definition iter (o : json) : result (list json) :=
  match o with
  | JArr l => Ok l
  | JObj m => Ok (JStr <$> (map_to_list m).*1)
  | JStr s => Ok ((fun c => JStr (String c EmptyString)) <$> String.list_ascii_of_string s)
  | _ => Raise TypeError
  end.

(** [page >= o] with [page] an [int]. *)
Definition int_ge (page : Z) (o : json) : result bool :=
  match o with
  | JNum q => Ok (Qle_bool q (inject_Z page))
  | JBool b => Ok (Qle_bool (if b then 1 else 0) (inject_Z page))
  | _ => Raise TypeError
  end.

End Py.

(** ** The destination store

    A table is its column declarations and its rows; the store maps table
    names to tables.  Statements are the six kinds the scripts send.  A row
    that is inserted is kept in the form the declared column types give it
    ([stored], which belongs to the store: [REAL] and [NUMERIC(10,6)]
    round). *)

Definition tuple : Type := list json.

Record table : Type := Table {
  tbl_columns : list (string * string);
  tbl_rows : list tuple
}.

Inductive stmt : Type :=
| SelectOne
| DropTableIfExists (t : string)
| CreateTable (t : string) (cols : list (string * string))
| InsertRows (t : string) (rows : list tuple)
| SelectColumns (t : string)
| SelectCount (t : string).

Inductive answer : Type :=
| NoRows
| Columns (cols : list (string * string))
| Scalar (n : nat).

Definition run_stmt (stored : list (string * string) -> tuple -> tuple)
    (q : stmt) (d : gmap string table) : result (gmap string table * answer) :=
  match q with
  | SelectOne => Ok (d, Scalar 1)
  | DropTableIfExists t => Ok (delete t d, NoRows)
  | CreateTable t cols =>
      match d !! t with
      | Some _ => Raise DBAPIError
      | None => Ok (<[t := Table cols []]> d, NoRows)
      end
  | InsertRows t rows =>
      match d !! t with
      | Some tb =>
          Ok (<[t := Table (tbl_columns tb)
                           (tbl_rows tb ++ (stored (tbl_columns tb) <$> rows))]> d, NoRows)
      | None => Raise DBAPIError
      end
  | SelectColumns t =>
      Ok (d, Columns (from_option tbl_columns [] (d !! t)))
  | SelectCount t =>
      match d !! t with
      | Some tb => Ok (d, Scalar (length (tbl_rows tb)))
      | None => Raise DBAPIError
      end
  end.

(** ** Console, network and store events *)

Inductive message : Type :=
| MsgStart
| MsgMissingEnv (vars : list string)
| MsgConnected
| MsgConnectError (e : exn)
| MsgLoading
| MsgIndicator (code : string)
| MsgPage (page : Z)
| MsgPageOf (code : string) (page : Z) (total_pages : json)
| MsgNoDataFor (code : string)
| MsgEmptyPage (code : string)
| MsgProcessed (n : nat)
| MsgIndicatorPagesDone (code : string) (total_pages : json)
| MsgIndicatorDone (code : string) (n : nat)
| MsgFetchError (e : exn)
| MsgNoData
| MsgTotal (n : nat)
| MsgAfterFilter (n : nat)
| MsgDeleted (n : nat) (percent : Q)
| MsgAfterDedup (n : nat)
| MsgSaving
| MsgTableCreated (t : string)
| MsgTableError (e : exn)
| MsgSaved (n : nat)
| MsgStructure (cols : list (string * string))
| MsgCount (n : nat)
| MsgSaveError (e : exn).

Inductive event : Type :=
| Print (m : message)
| HttpGet (url : string) (page : Z)
| Sleep
| CreateEngine
| Dispose
| Sql (q : stmt)
| Commit
| Rollback.

(** ** The world outside the scripts

    [getenv] is the process environment after [load_dotenv].  [api url page]
    is what [requests.get], [raise_for_status] and [response.json()] produce
    for that page; a script never asks for the same page of the same
    endpoint twice.  [sql_fault n] says that the [n]-th round trip of the run
    to the store (a statement or a commit, counted from 0) fails:
    connectivity loss, a violated constraint, a value that does not fit its
    column.  [stored] is the form in which the store keeps a row under the
    declared columns.

    The last three oracles are the parts of pandas that depend on the
    machine representation of a column.  [str_to_float] is the
    string-to-float routine inside [pandas.to_numeric].  [factorize column v]
    is the code the hash table of [drop_duplicates] gives to the cell [v] of
    [column] when [v] is not a string: two such cells are duplicates of each
    other exactly when they get the same code.  [cast_cell column i] is what
    [astype('int64')] makes of the [i]-th cell of a column that does not
    consist of strings and of integers of magnitude at most 2^53. *)

Record world : Type := World {
  getenv : string -> option string;
  engine_error : option exn;
  api : string -> Z -> result json;
  sql_fault : nat -> bool;
  stored : list (string * string) -> tuple -> tuple;
  str_to_float : string -> option Q;
  factorize : list json -> json -> nat;
  cast_cell : list json -> nat -> result Z
}.

Record state : Type := State {
  store : gmap string table;
  ops : nat;
  trace : list event
}.

(** ** Computations: state, exceptions and fuel

    A computation threads the [state]; it ends with a value, with a raised
    exception, or with [None] when the page loop has used up its fuel (the
    run is still going on).  [try_except] and [try_finally] act on finished
    computations only. *)

Definition M (A : Type) : Type := state -> option (result A) * state.

#[global] Instance M_ret : MRet M := fun _ a s => (Some (Ok a), s).
#[global] Instance M_bind : MBind M := fun _ _ f m s =>
  match m s with
  | (Some (Ok a), s') => f a s'
  | (Some (Raise e), s') => (Some (Raise e), s')
  | (None, s') => (None, s')
  end.

Definition lift {A} (r : result A) : M A := fun s => (Some r, s).

Definition emit (ev : event) : M unit := fun s =>
  (Some (Ok tt), State (store s) (ops s) (trace s ++ [ev])).

Definition print (m : message) : M unit := emit (Print m).

Definition try_except {A} (body : M A) (handler : exn -> M A) : M A := fun s =>
  match body s with
  | (Some (Raise e), s') => handler e s'
  | r => r
  end.

Definition try_finally {A} (body : M A) (cleanup : M unit) : M A := fun s =>
  match body s with
  | (Some r, s') =>
      match cleanup s' with
      | (Some (Ok _), s'') => (Some r, s'')
      | (Some (Raise e), s'') => (Some (Raise e), s'')
      | (None, s'') => (None, s'')
      end
  | (None, s') => (None, s')
  end.

(** [while True: ...] over the page counter: [body page acc] returns the
    new accumulator and whether the loop goes on ([page += 1]) or breaks. *)
Fixpoint while_true {R} (body : Z -> R -> M (R * bool))
    (fuel : nat) (page : Z) (acc : R) : M R :=
  match fuel with
  | O => fun s => (None, s)
  | S fuel' =>
      body page acc ≫= fun r : R * bool =>
      if r.2 then while_true body fuel' (page + 1) r.1 else mret r.1
  end.

(** [for x in xs: ...] with an accumulator. *)
Fixpoint for_each {X R} (body : X -> R -> M R) (xs : list X) (acc : R) : M R :=
  match xs with
  | [] => mret acc
  | x :: xs' => body x acc ≫= fun acc' : R => for_each body xs' acc'
  end.

Section Engine.

Context (w : world).

(** [requests.get(url, params=..., timeout=30)], [raise_for_status()] and
    [response.json()]. *)
Definition http_get (url : string) (page : Z) : M json :=
  emit (HttpGet url page);; lift (api w url page).

(** [conn.execute(text(q))] *)
Definition execute (q : stmt) : M answer := fun s =>
  let s' := State (store s) (S (ops s)) (trace s ++ [Sql q]) in
  if sql_fault w (ops s) then (Some (Raise DBAPIError), s')
  else match run_stmt (stored w) q (store s) with
       | Ok (d, a) => (Some (Ok a), State d (ops s') (trace s'))
       | Raise e => (Some (Raise e), s')
       end.

(** [with engine.begin() as conn: ...]: the block runs in a transaction
    that is committed when the block ends normally and rolled back when it
    raises; a failed commit leaves nothing behind either. *)
Definition engine_begin {A} (body : M A) : M A := fun s =>
  match body s with
  | (Some (Ok a), s') =>
      if sql_fault w (ops s')
      then (Some (Raise DBAPIError),
            State (store s) (S (ops s')) (trace s' ++ [Rollback]))
      else (Some (Ok a), State (store s') (S (ops s')) (trace s' ++ [Commit]))
  | (Some (Raise e), s') =>
      (Some (Raise e), State (store s) (ops s') (trace s' ++ [Rollback]))
  | (None, s') => (None, s')
  end.

(** [with engine.connect() as conn: ...]: the scripts only run queries in
    such a block, so there is nothing to commit. *)
Definition engine_connect {A} (body : M A) : M A := body.

(** [create_engine(...)] followed by the [SELECT 1] probe. *)
Definition connect : M unit :=
  match engine_error w with
  | Some e => lift (Raise e)
  | None => emit CreateEngine;; engine_connect (execute SelectOne);; mret tt
  end.

Definition dispose : M unit := emit Dispose.

(** The body shared by [create_countries_table], [create_indicators_table]
    and [create_values_table]; they differ in the default table name and
    in the column list. *)
Definition create_table (table_name : string) (cols : list (string * string)) : M bool :=
  try_except
    (engine_begin
       (execute (DropTableIfExists table_name);;
        execute (CreateTable table_name cols));;
     print (MsgTableCreated table_name);;
     mret true)
    (fun e => print (MsgTableError e);; mret false).

(** [df.to_sql(name, con=engine, if_exists='append', index=False,
    method='multi')]: one multi-row insert in a transaction of its own; a
    frame without rows sends nothing. *)
Definition to_sql (name : string) (rows : list tuple) : M unit :=
  match rows with
  | [] => mret tt
  | _ :: _ => engine_begin (execute (InsertRows name rows));; mret tt
  end.

(** The two queries that follow the load. *)
Definition verify (name : string) : M unit :=
  engine_connect
    (a ← execute (SelectColumns name);
     print (MsgStructure (match a with Columns cols => cols | _ => [] end));;
     c ← execute (SelectCount name);
     print (MsgCount (match c with Scalar n => n | _ => 0%nat end))).

End Engine.

(** ** What the scripts use of Python's [int] and of pandas *)

Module Python.

(** The blanks [int] skips around a literal: the ASCII ones and, above
    ASCII, the two Latin-1 spaces (next line, no-break space).  The
    separators 28 to 31 are not among them. *)
Definition is_space (c : ascii) : bool :=
  let n := nat_of_ascii c in
  bool_decide (n = 32 ∨ 9 ≤ n ≤ 13 ∨ n = 133 ∨ n = 160)%nat.

Definition digit (c : ascii) : option Z :=
  let n := nat_of_ascii c in
  if bool_decide (48 ≤ n ≤ 57)%nat then Some (Z.of_nat n - 48) else None.

Definition is_underscore (c : ascii) : bool := bool_decide (nat_of_ascii c = 95%nat).

(** Digits after the first one; a single underscore may sit between two
    digits. *)
Fixpoint more_digits (acc : Z) (cs : list ascii) : option Z :=
  match cs with
  | [] => Some acc
  | c :: cs' =>
      if is_underscore c then
        match cs' with
        | c' :: cs'' => d ← digit c'; more_digits (10 * acc + d) cs''
        | [] => None
        end
      else d ← digit c; more_digits (10 * acc + d) cs'
  end.

(** The digits of a decimal literal are counted, underscores apart: one
    with more than [sys.int_info.default_max_str_digits] digits is
    refused. *)
Definition count_digits (cs : list ascii) : nat :=
  length (filter (fun c => is_underscore c = false) cs).

Definition digits (cs : list ascii) : option Z :=
  match cs with
  | c :: cs' =>
      d ← digit c;
      z ← more_digits d cs';
      if bool_decide (Z.of_nat (count_digits cs) ≤ 4300) then Some z else None
  | [] => None
  end.

Fixpoint lstrip (cs : list ascii) : list ascii :=
  match cs with
  | c :: cs' => if is_space c then lstrip cs' else cs
  | [] => []
  end.

Definition strip (cs : list ascii) : list ascii :=
  reverse (lstrip (reverse (lstrip cs))).

(** [int(s)] for a string: surrounding blanks, an optional sign, decimal
    digits, no more than 4300 of them. [None] stands for [ValueError]. *)
Definition int_of_string (s : string) : option Z :=
  match strip (String.list_ascii_of_string s) with
  | c :: cs =>
      if bool_decide (nat_of_ascii c = 45%nat) then Z.opp <$> digits cs
      else if bool_decide (nat_of_ascii c = 43%nat) then digits cs
      else digits (c :: cs)
  | [] => None
  end.

End Python.

#[global] Instance Q_eq_dec : EqDecision Q.
Proof. solve_decision. Defined.

Module Pandas.

(** *** [drop_duplicates(subset=...)]

    Rows are compared by the value of the subset column as a hash-table
    key.  Two strings are the same key when they are the same string, and a
    string is never the key of a cell that is not a string.  How the other
    cells (nulls, numbers, booleans, lists, objects) fall into keys depends
    on the representation pandas chose for the column; it is the [factorize]
    oracle of the world.  No cell makes the operation raise. *)

Inductive key : Type :=
| KeyStr (s : string)
| KeyCode (n : nat).

#[global] Instance key_eq_dec : EqDecision key.
Proof. solve_decision. Defined.

Definition key_of (factorize : list json -> json -> nat) (column : list json)
    (v : json) : key :=
  match v with
  | JStr s => KeyStr s
  | _ => KeyCode (factorize column v)
  end.

Section KeepFirst.
Context {A K : Type} `{EqDecision K} (by_key : A -> K).

(** Walk the frame in order and keep a row when its key has not been
    seen before ([keep='first'], the default). *)
Fixpoint keep_first (seen : list K) (df : list A) : list A :=
  match df with
  | [] => []
  | r :: df' =>
      if decide (by_key r ∈ seen) then keep_first seen df'
      else r :: keep_first (by_key r :: seen) df'
  end.
End KeepFirst.

Definition drop_duplicates {A} (factorize : list json -> json -> nat)
    (subset : A -> json) (df : list A) : list A :=
  let column := subset <$> df in
  keep_first (fun r => key_of factorize column (subset r)) [] df.

(** *** [to_numeric(column, errors='coerce')]

    A string is read by pandas' own string-to-float routine.  The empty
    string is a missing value, and no number is spelt with one of the
    letters [unnumeric] lists, so the routine is not asked about those
    strings; what it makes of the others is the [str_to_float] oracle of
    the world. *)

Definition unnumeric (c : ascii) : bool :=
  bool_decide (c ∈ String.list_ascii_of_string "bcghklmoqrsuvwzBCGHKLMOQRSUVWZ").

Definition read_float (str_to_float : string -> option Q) (s : string) : option Q :=
  if bool_decide (s = EmptyString) then None
  else if existsb unnumeric (String.list_ascii_of_string s) then None
  else str_to_float s.

(** One cell of a column that needs converting: a number stays, a boolean
    is 0 or 1, a string is read, and whatever cannot be converted becomes
    NaN, which the store receives as NULL. *)
Definition to_numeric_cell (str_to_float : string -> option Q) (v : json) : json :=
  match v with
  | JNum q => JNum q
  | JBool b => JNum (if b then 1 else 0)
  | JStr s => from_option JNum JNull (read_float str_to_float s)
  | JNull | JArr _ | JObj _ => JNull
  end.

Definition is_bool (v : json) : bool :=
  match v with JBool _ => true | _ => false end.

(** The column: one made of booleans only already has a numeric type and
    is returned as it is; any other column is converted cell by cell. *)
Definition to_numeric (str_to_float : string -> option Q) (column : list json) : list json :=
  if forallb is_bool column then column
  else to_numeric_cell str_to_float <$> column.

(** *** [astype('int64')]

    A string goes through [int(...)], and the result must fit 64 bits; an
    integer of magnitude at most 2^53 is itself, whether the column holds
    it as an integer or as a float.  A column made of such cells is
    converted cell by cell, and one cell that fails makes the whole
    conversion raise.  What happens to a column with another cell in it (a
    null, a boolean, a fraction, a larger number, a list) depends on the
    representation pandas chose for the column: it is the [cast_cell]
    oracle of the world, whose results are 64-bit integers. *)
Definition int64_range (z : Z) : result Z :=
  if bool_decide (- 2 ^ 63 ≤ z < 2 ^ 63) then Ok z else Raise OverflowError.

Definition int64_of (v : json) : option (result Z) :=
  match v with
  | JStr s =>
      Some match Python.int_of_string s with
           | Some z => int64_range z
           | None => Raise ValueError
           end
  | JNum q =>
      if bool_decide (Qden (Qred q) = 1%positive ∧ - 2 ^ 53 ≤ Qnum (Qred q) ≤ 2 ^ 53)
      then Some (Ok (Qnum (Qred q))) else None
  | JNull | JBool _ | JArr _ | JObj _ => None
  end.

(** Two's complement: the 64-bit integer congruent to [z]. *)
Definition wrap64 (z : Z) : Z := (z + 2 ^ 63) mod 2 ^ 64 - 2 ^ 63.

Definition astype_int64 (cast_cell : list json -> nat -> result Z)
    (column : list json) : result (list Z) :=
  match mapM int64_of column with
  | Some cells => mapM id cells
  | None =>
      mapM (fun i => cast_cell column i ≫= fun z => Ok (wrap64 z))
           (seq 0 (length column))
  end.

End Pandas.

(** ** The page loop of [load_countries.py] and [load_indicators.py]

    The two loops are the same text up to the endpoint and the record
    mapping. *)

Section Paged.

Context {row : Type} (w : world) (url : string) (map_record : json -> result row).

Definition page_body (page : Z) (all : list row) : M (list row * bool) :=
  print (MsgPage page);;
  data ← http_get w url page;
  if negb (Py.is_list data) then mret (all, false) else
  n ← lift (Py.len data);
  if bool_decide (n < 2)%nat then mret (all, false) else
  records ← lift (Py.index data 1);
  if negb (Py.truthy records) then mret (all, false) else
  items ← lift (Py.iter records);
  rows ← lift (mapM map_record items);
  processed ← lift (Py.len records);
  print (MsgProcessed processed);;
  metadata ← lift (Py.index data 0);
  pages ← lift (Py.get metadata "pages" (JNum 1));
  last ← lift (Py.int_ge page pages);
  mret (all ++ rows, negb last).

Definition collect (fuel : nat) : M (list row) :=
  while_true page_body fuel 1 [].

End Paged.

(** ** The skeleton of the three [main] functions *)

Section Orchestrator.

Context {row : Type} (w : world).
Context (greeting : bool)
        (collect : M (list row))
        (transform : list row -> M (list tuple))
        (table_name : string)
        (create : M bool).

Definition required_vars : list string :=
  ["DB_USER"; "DB_PASS"; "DB_HOST"; "DB_PORT"; "DB_NAME"].

(** [not os.getenv(var)]: unset or empty. *)
Definition unset (var : string) : bool :=
  match getenv w var with
  | Some v => bool_decide (v = EmptyString)
  | None => true
  end.

Definition missing_vars : list string := filter (fun var => unset var = true) required_vars.

(** Configuration check and connection; [true] when the engine is up. *)
Definition startup : M bool :=
  (if greeting then print MsgStart else mret tt);;
  if bool_decide (missing_vars = []) then
    try_except
      (connect w;; print MsgConnected;; mret true)
      (fun e => print (MsgConnectError e);; mret false)
  else print (MsgMissingEnv missing_vars);; mret false.

(** The collection loop inside its [try]; [None] after the handler. *)
Definition try_collect : M (option (list row)) :=
  try_except
    (all ← collect; mret (Some all))
    (fun e => print (MsgFetchError e);; mret None).

(** The last [try] / [except] / [finally] of [main]. *)
Definition load (df : list tuple) : M unit :=
  try_finally
    (try_except
       (created ← create;
        if created : bool then
          to_sql w table_name df;;
          print (MsgSaved (length df));;
          verify w table_name
        else mret tt)
       (fun e => print (MsgSaveError e)))
    dispose.

Definition run : M unit :=
  started ← startup;
  if started : bool then
    print MsgLoading;;
    collected ← try_collect;
    match collected with
    | None => mret tt
    | Some [] => print MsgNoData
    | Some all =>
        df ← transform all;
        print MsgSaving;;
        load df
    end
  else mret tt.

End Orchestrator.

(** ** [load_countries.py] *)

Module load_countries.

Record row : Type := Row {
  country_id : json;
  iso2_code : json;
  country_name : json;
  region_id : json;
  region_name : json;
  income_level_id : json;
  income_level_name : json;
  capital_city : json;
  longitude : json;
  latitude : json
}.

Definition columns : list (string * string) :=
  [("country_id", "VARCHAR(10) PRIMARY KEY");
   ("iso2_code", "VARCHAR(5)");
   ("country_name", "VARCHAR(200) NOT NULL");
   ("region_id", "VARCHAR(10)");
   ("region_name", "VARCHAR(100)");
   ("income_level_id", "VARCHAR(10)");
   ("income_level_name", "VARCHAR(100)");
   ("capital_city", "VARCHAR(100)");
   ("longitude", "NUMERIC(10,6)");
   ("latitude", "NUMERIC(10,6)")].

Definition create_countries_table (w : world) (table_name : string) : M bool :=
  create_table w table_name columns.

Definition url : string := "https://api.worldbank.org/v2/country".

(** The dictionary appended to [all_countries] for one record. *)
Definition map_country (country : json) : result row :=
  country_id ← Py.get country "id" JNull;
  iso2_code ← Py.get country "iso2Code" JNull;
  country_name ← Py.get country "name" JNull;
  region ← Py.get country "region" (JObj ∅);
  region_id ← Py.get region "id" JNull;
  region ← Py.get country "region" (JObj ∅);
  region_name ← Py.get region "value" JNull;
  income ← Py.get country "incomeLevel" (JObj ∅);
  income_level_id ← Py.get income "id" JNull;
  income ← Py.get country "incomeLevel" (JObj ∅);
  income_level_name ← Py.get income "value" JNull;
  capital_city ← Py.get country "capitalCity" JNull;
  longitude ← Py.get country "longitude" JNull;
  latitude ← Py.get country "latitude" JNull;
  mret (Row country_id iso2_code country_name region_id region_name
            income_level_id income_level_name capital_city longitude latitude).

(** [df['region_name'] != 'Aggregates'], one cell. *)
Definition not_aggregate (r : row) : bool :=
  match region_name r with
  | JStr s => negb (bool_decide (s = "Aggregates"))
  | _ => true
  end.

(** [df[df['region_name'] != 'Aggregates'].copy()] *)
Definition filter_aggregates (df : list row) : list row :=
  filter (fun r => not_aggregate r = true) df.

Definition set_coordinates (r : row) (lonlat : json * json) : row :=
  Row (country_id r) (iso2_code r) (country_name r) (region_id r) (region_name r)
      (income_level_id r) (income_level_name r) (capital_city r)
      lonlat.1 lonlat.2.

(** The two [pd.to_numeric(..., errors='coerce')] column assignments. *)
Definition coerce_coordinates (w : world) (df : list row) : list row :=
  zip_with set_coordinates df
    (zip (Pandas.to_numeric (str_to_float w) (longitude <$> df))
         (Pandas.to_numeric (str_to_float w) (latitude <$> df))).

Definition to_tuple (r : row) : tuple :=
  [country_id r; iso2_code r; country_name r; region_id r; region_name r;
   income_level_id r; income_level_name r; capital_city r; longitude r; latitude r].

Definition clean (w : world) (df : list row) : list row :=
  coerce_coordinates w (filter_aggregates df).

Definition transform (w : world) (df : list row) : M (list tuple) :=
  let total_loaded := length df in
  print (MsgTotal total_loaded);;
  let final_count := length (filter_aggregates df) in
  let deleted_count := (total_loaded - final_count)%nat in
  let deleted_percent :=
    (inject_Z (Z.of_nat deleted_count) / inject_Z (Z.of_nat total_loaded) * 100)%Q in
  print (MsgAfterFilter final_count);;
  print (MsgDeleted deleted_count deleted_percent);;
  mret (to_tuple <$> clean w df).

Definition main (w : world) (fuel : nat) : M unit :=
  run w true
    (collect w url map_country fuel)
    (transform w)
    "worldbank_countries"
    (create_countries_table w "worldbank_countries").

End load_countries.

(** ** [load_indicators.py] *)

Module load_indicators.

Record row : Type := Row {
  indicator_id : json;
  indicator_name : json;
  source_id : json;
  source_name : json;
  source_note : json;
  source_organization : json;
  topic_id : json;
  topic : json
}.

Definition columns : list (string * string) :=
  [("indicator_id", "VARCHAR(50) PRIMARY KEY");
   ("indicator_name", "VARCHAR(300) NOT NULL");
   ("source_id", "VARCHAR(10)");
   ("source_name", "VARCHAR(100)");
   ("source_note", "TEXT");
   ("source_organization", "TEXT");
   ("topic_id", "VARCHAR(10)");
   ("topic", "VARCHAR(100)")].

Definition create_indicators_table (w : world) (table_name : string) : M bool :=
  create_table w table_name columns.

Definition url : string := "https://api.worldbank.org/v2/indicators".

Definition get_topic_field (indicator : json) (field : string) : result json :=
  topics ← Py.get indicator "topics" JNull;
  if Py.is_list topics then
    n ← Py.len topics;
    if bool_decide (0 < n)%nat then
      first ← Py.index topics 0;
      if Py.is_dict first then Py.get first field JNull else mret JNull
    else mret JNull
  else mret JNull.

Definition map_indicator (indicator : json) : result row :=
  indicator_id ← Py.get indicator "id" JNull;
  indicator_name ← Py.get indicator "name" JNull;
  source ← Py.get indicator "source" (JObj ∅);
  source_id ← Py.get source "id" JNull;
  source ← Py.get indicator "source" (JObj ∅);
  source_name ← Py.get source "value" JNull;
  source_note ← Py.get indicator "sourceNote" JNull;
  source_organization ← Py.get indicator "sourceOrganization" JNull;
  topic_id ← get_topic_field indicator "id";
  topic ← get_topic_field indicator "value";
  mret (Row indicator_id indicator_name source_id source_name source_note
            source_organization topic_id topic).

Definition to_tuple (r : row) : tuple :=
  [indicator_id r; indicator_name r; source_id r; source_name r; source_note r;
   source_organization r; topic_id r; topic r].

(** [df.drop_duplicates(subset='indicator_id')] *)
Definition deduplicate (w : world) (df : list row) : list row :=
  Pandas.drop_duplicates (factorize w) indicator_id df.

Definition transform (w : world) (df : list row) : M (list tuple) :=
  print (MsgTotal (length df));;
  let df' := deduplicate w df in
  print (MsgAfterDedup (length df'));;
  mret (to_tuple <$> df').

Definition main (w : world) (fuel : nat) : M unit :=
  run w false
    (collect w url map_indicator fuel)
    (transform w)
    "worldbank_indicators"
    (create_indicators_table w "worldbank_indicators").

End load_indicators.

(** ** [load_values.py] *)

Module load_values.

Record row : Type := Row {
  country_id : json;
  country : json;
  indicator_id : json;
  indicator : json;
  year : json;
  value : json
}.

Definition columns : list (string * string) :=
  [("country_id", "VARCHAR(10)");
   ("country", "VARCHAR(100)");
   ("indicator_id", "VARCHAR(50)");
   ("indicator", "VARCHAR(100)");
   ("year", "INT");
   ("value", "REAL")].

Definition create_values_table (w : world) (table_name : string) : M bool :=
  create_table w table_name columns.

Definition base_url : string := "https://api.worldbank.org/v2/countries/all".

Definition indicators : list string :=
  ["NY.GDP.MKTP.CD"; "NY.GDP.PCAP.CD"; "SP.POP.TOTL"; "SP.URB.TOTL.IN.ZS";
   "SE.XPD.TOTL.GD.ZS"; "IP.JRN.ARTC.SC"; "SH.XPD.CHEX.GD.ZS"; "SH.DYN.MORT";
   "IT.NET.USER.ZS"; "EG.ELC.ACCS.ZS"; "EG.USE.PCAP.KG.OE"].

Definition indicator_url (code : string) : string :=
  base_url +:+ "/indicator/" +:+ code.

(** One turn of [for item in page_data]: [None] when the item is skipped,
    the appended dictionary otherwise. *)
Definition map_value (item : json) : result (option row) :=
  v ← Py.get item "value" JNull;
  if Py.is_none v then mret None
  else
    country_id ← Py.item item "countryiso3code";
    c ← Py.item item "country";
    country ← Py.item c "value";
    i ← Py.item item "indicator";
    indicator_id ← Py.item i "id";
    i ← Py.item item "indicator";
    indicator ← Py.item i "value";
    year ← Py.item item "date";
    value ← Py.item item "value";
    mret (Some (Row country_id country indicator_id indicator year value)).

Definition page_body (w : world) (code : string) (page : Z) (all_data : list row)
  : M (list row * bool) :=
  data ← http_get w (indicator_url code) page;
  if negb (Py.truthy data) then print (MsgNoDataFor code);; mret (all_data, false) else
  n ← lift (Py.len data);
  if bool_decide (n < 2)%nat then print (MsgNoDataFor code);; mret (all_data, false) else
  metadata ← lift (Py.index data 0);
  total_pages ← lift (Py.get metadata "pages" (JNum 1));
  print (MsgPageOf code page total_pages);;
  page_data ← lift (Py.index data 1);
  if negb (Py.truthy page_data) then print (MsgEmptyPage code);; mret (all_data, false) else
  items ← lift (Py.iter page_data);
  rows ← lift (mapM map_value items);
  processed ← lift (Py.len page_data);
  print (MsgProcessed processed);;
  last ← lift (Py.int_ge page total_pages);
  if last : bool then
    print (MsgIndicatorPagesDone code total_pages);;
    mret (all_data ++ omap id rows, false)
  else
    emit Sleep;;
    mret (all_data ++ omap id rows, true).

(** The pages of one indicator: the body of the outer [for]. *)
Definition collect_indicator (w : world) (fuel : nat) (code : string)
    (all_data : list row) : M (list row) :=
  print (MsgIndicator code);;
  all_data' ← while_true (page_body w code) fuel 1 all_data;
  print (MsgIndicatorDone code (length all_data'));;
  mret all_data'.

Definition collect (w : world) (fuel : nat) : M (list row) :=
  for_each (collect_indicator w fuel) indicators [].

Definition to_tuple (r : row) : tuple :=
  [country_id r; country r; indicator_id r; indicator r; year r; value r].

Definition set_year (r : row) (y : Z) : row :=
  Row (country_id r) (country r) (indicator_id r) (indicator r)
      (JNum (inject_Z y)) (value r).

(** [df['year'] = df['year'].astype('int64')] *)
Definition convert_years (w : world) (df : list row) : result (list row) :=
  years ← Pandas.astype_int64 (cast_cell w) (year <$> df);
  mret (zip_with set_year df years).

Definition transform (w : world) (df : list row) : M (list tuple) :=
  print (MsgTotal (length df));;
  df' ← lift (convert_years w df);
  mret (to_tuple <$> df').

Definition main (w : world) (fuel : nat) : M unit :=
  run w false
    (collect w fuel)
    (transform w)
    "worldbank_values"
    (create_values_table w "worldbank_values").

End load_values.

(** ** Vocabulary of the properties *)

(** The page requests found in a trace, in order. *)
Definition requests (t : list event) : list (string * Z) :=
  omap (fun ev => match ev with HttpGet url page => Some (url, page) | _ => None end) t.

(** Events that change the contents of the store. *)
Definition writes (ev : event) : bool :=
  match ev with
  | Sql (DropTableIfExists _) | Sql (CreateTable _ _) | Sql (InsertRows _ _) => true
  | _ => false
  end.

(** A computation that leaves the store alone: whatever it does, the store
    is the one it started from and the events it adds are not writes. *)
Definition quiet {A} (m : M A) : Prop :=
  forall s, store (m s).2 = store s /\
            exists evs, trace (m s).2 = trace s ++ evs /\ Forall (fun ev => writes ev = false) evs.

(** The total page count a metadata object announces: its [pages] entry,
    [1] when there is none. *)
Definition announces (metadata : gmap string json) (p : Z) : Prop :=
  match metadata !! "pages" with
  | Some (JNum q) => (q == inject_Z p)%Q
  | Some _ => False
  | None => p = 1
  end.

(** A well-formed page of a dataset with [p] pages: a two-element list of a
    metadata object announcing [p] and a non-empty list of records, each of
    which the record mapping accepts. *)
Definition well_formed_page {R} (map_record : json -> result R) (p : Z)
    (response : result json) : Prop :=
  exists metadata records,
    response = Ok (JArr [JObj metadata; JArr records]) /\
    announces metadata p /\
    records <> [] /\
    Forall (fun record => is_ok (map_record record) = true) records.

(** A string parses as the number [q] when it is not empty, has none of
    the letters no number is spelt with, and pandas reads it as [q]. *)
Definition parses_as (w : world) (s : string) (q : Q) : Prop :=
  s <> EmptyString /\
  (forall c, c ∈ String.list_ascii_of_string s ->
             c ∉ String.list_ascii_of_string "bcghklmoqrsuvwzBCGHKLMOQRSUVWZ") /\
  str_to_float w s = Some q.

(** Coercion of one coordinate cell, as the specification words it: a number is
    kept, a string that parses as a number becomes that number, a string
    that does not becomes null, and so do null, a list and an object.  A
    boolean stays or becomes 0 or 1. *)
Definition coerced_cell (w : world) (v v' : json) : Prop :=
  match v with
  | JNum q => v' = JNum q
  | JStr s =>
      (forall q, parses_as w s q -> v' = JNum q) /\
      ((forall q, ~ parses_as w s q) -> v' = JNull)
  | JBool b => v' = JBool b \/ v' = JNum (if b then 1 else 0)
  | JNull | JArr _ | JObj _ => v' = JNull
  end.

(** [r] is the first row of [df] carrying its key. *)
Definition first_with {A K} (by_key : A -> K) (df : list A) (r : A) : Prop :=
  exists before after, df = before ++ r :: after /\ by_key r ∉ by_key <$> before.

(** The key under which [drop_duplicates] files a metric row of the frame
    [df]: the key of its identifier in the identifier column. *)
Definition metric_key (w : world) (df : list load_indicators.row)
    (r : load_indicators.row) : Pandas.key :=
  Pandas.key_of (factorize w) (load_indicators.indicator_id <$> df)
                (load_indicators.indicator_id r).

(** An observation record is retained when its [value] is not null. *)
Definition retained (item : json) : bool :=
  match Py.get item "value" JNull with
  | Ok v => negb (Py.is_none v)
  | Raise _ => false
  end.

(** The fields of a flat observation row come from this record. *)
Definition row_of_item (item : json) (r : load_values.row) : Prop :=
  Py.item item "countryiso3code" = Ok (load_values.country_id r) /\
  (c ← Py.item item "country"; Py.item c "value") = Ok (load_values.country r) /\
  (i ← Py.item item "indicator"; Py.item i "id") = Ok (load_values.indicator_id r) /\
  (i ← Py.item item "indicator"; Py.item i "value") = Ok (load_values.indicator r) /\
  Py.item item "date" = Ok (load_values.year r) /\
  Py.item item "value" = Ok (load_values.value r).

(** Two observation rows that differ in the year cell only. *)
Definition same_but_year (r r' : load_values.row) : Prop :=
  load_values.country_id r' = load_values.country_id r /\
  load_values.country r' = load_values.country r /\
  load_values.indicator_id r' = load_values.indicator_id r /\
  load_values.indicator r' = load_values.indicator r /\
  load_values.value r' = load_values.value r.


(** The entity row [r'] is [r] with its two coordinates coerced. *)
Definition coerced (w : world) (r r' : load_countries.row) : Prop :=
  load_countries.country_id r' = load_countries.country_id r /\
  load_countries.iso2_code r' = load_countries.iso2_code r /\
  load_countries.country_name r' = load_countries.country_name r /\
  load_countries.region_id r' = load_countries.region_id r /\
  load_countries.region_name r' = load_countries.region_name r /\
  load_countries.income_level_id r' = load_countries.income_level_id r /\
  load_countries.income_level_name r' = load_countries.income_level_name r /\
  load_countries.capital_city r' = load_countries.capital_city r /\
  coerced_cell w (load_countries.longitude r) (load_countries.longitude r') /\
  coerced_cell w (load_countries.latitude r) (load_countries.latitude r').

(** The entity transformation, as the specification words it: walking the input
    frame in order, a row whose region name is "Aggregates" is left out and
    every other row is there, once, with its coordinates coerced. *)
Inductive cleaned (w : world) : list load_countries.row -> list load_countries.row -> Prop :=
| cleaned_nil : cleaned w [] []
| cleaned_aggregate r df out :
    load_countries.region_name r = JStr "Aggregates" ->
    cleaned w df out ->
    cleaned w (r :: df) out
| cleaned_entity r r' df out :
    load_countries.region_name r <> JStr "Aggregates" ->
    coerced w r r' ->
    cleaned w df out ->
    cleaned w (r :: df) (r' :: out).

(** Integer literals as [int] accepts them: blanks, an optional sign, a
    digit followed by digits each of which may have one underscore before
    it, blanks; at most 4300 digits in all. *)
Record literal : Type := Literal {
  blanks_before : list ascii;
  sign : option bool;
  first_digit : nat;
  more : list (bool * nat);
  blanks_after : list ascii
}.

Definition digit_char (d : nat) : ascii := ascii_of_nat (48 + d).

(** A later digit, with the underscore that may precede it. *)
Definition render (d : bool * nat) : list ascii :=
  (if d.1 then ["_"%char] else []) ++ [digit_char d.2].

Definition literal_text (l : literal) : string :=
  String.string_of_list_ascii
    (blanks_before l ++
     match sign l with
     | Some true => ["-"%char]
     | Some false => ["+"%char]
     | None => []
     end ++
     digit_char (first_digit l) :: (more l ≫= render) ++ blanks_after l).

Definition literal_value (l : literal) : Z :=
  let magnitude :=
    fold_left (fun acc (d : bool * nat) => 10 * acc + Z.of_nat d.2) (more l)
              (Z.of_nat (first_digit l)) in
  match sign l with Some true => - magnitude | _ => magnitude end.

Definition blank (c : ascii) : Prop :=
  nat_of_ascii c ∈ [9; 10; 11; 12; 13; 32; 133; 160]%nat.

Definition well_formed_literal (l : literal) : Prop :=
  Forall blank (blanks_before l) /\ Forall blank (blanks_after l) /\
  (first_digit l < 10)%nat /\ Forall (fun d : bool * nat => (d.2 < 10)%nat) (more l) /\
  Z.of_nat (length (more l)) < 4300.

(** A character no integer literal contains: not a digit, a sign, an
    underscore or a blank. *)
Definition stray (c : ascii) : Prop :=
  ~ blank c /\ ~ (48 <= nat_of_ascii c <= 57)%nat /\
  nat_of_ascii c ∉ [43; 45; 95]%nat.

(** A date that cannot become a 64-bit year: it has a stray character, or
    it is an integer literal whose value does not fit 64 bits. *)
Definition not_a_year (text : string) : Prop :=
  (exists c, c ∈ String.list_ascii_of_string text /\ stray c) \/
  (exists l, text = literal_text l /\ well_formed_literal l /\
             ~ - 2 ^ 63 <= literal_value l < 2 ^ 63).

(** The date cell [v] parses as the integer [y]: it is a string holding an
    integer literal of value [y], which fits 64 bits, or it is the number
    [y] itself, of magnitude at most 2^53. *)
Definition parses_as_year (v : json) (y : Z) : Prop :=
  (exists l, v = JStr (literal_text l) /\ well_formed_literal l /\
             y = literal_value l /\ - 2 ^ 63 <= y < 2 ^ 63) \/
  (v = JNum (inject_Z y) /\ - 2 ^ 53 <= y <= 2 ^ 53).

(** A date cell that is a string or such a number. *)
Definition plain_date (v : json) : Prop :=
  (exists text, v = JStr text) \/
  (exists y, v = JNum (inject_Z y) /\ - 2 ^ 53 <= y <= 2 ^ 53).

(** The records of the page a request returned: the items of the second
    element of the response, none when there is no such element. *)
Definition page_items (w : world) (request : string * Z) : list json :=
  match api w request.1 request.2 with
  | Ok data =>
      match Py.index data 1 ≫= Py.iter with
      | Ok items => items
      | Raise _ => []
      end
  | Raise _ => []
  end.

(** Whether a trace shows the engine being created, and being disposed. *)
Definition engine_created (t : list event) : bool :=
  existsb (fun ev => match ev with CreateEngine => true | _ => false end) t.

Definition engine_disposed (t : list event) : bool :=
  existsb (fun ev => match ev with Dispose => true | _ => false end) t.

(** A schema replacement is atomic when it always returns, and leaves the
    store either with the table dropped and created anew, or as it was. *)
Definition both_or_neither (create : M bool) (name : string)
    (cols : list (string * string)) : Prop :=
  forall s, exists created s',
    create s = (Some (Ok created), s') /\
    ((created = true /\ store s' = <[name := Table cols []]> (delete name (store s))) \/
     (created = false /\ store s' = store s)).

(** A script reports an empty collection when, the engine being up and the
    collection loop having returned no row, [main] returns after printing
    the report, with the store as it found it and no write sent to it. *)
Definition reports_empty_collection {row} (w : world) (greeting : bool)
    (collect : M (list row)) (main : M unit) : Prop :=
  forall s s1 s2,
    startup w greeting s = (Some (Ok true), s1) ->
    (print MsgLoading ≫= fun _ => collect) s1 = (Some (Ok []), s2) ->
    exists evs s',
      main s = (Some (Ok tt), s') /\
      store s' = store s /\
      trace s' = trace s ++ evs /\
      Forall (fun ev => writes ev = false) evs /\
      last evs = Some (Print MsgNoData).

(** Every page from 1 to [p] of an endpoint is well formed. *)
Definition all_pages_well_formed {R} (w : world) (url : string)
    (map_record : json -> result R) (p : Z) : Prop :=
  forall page, 1 <= page <= p -> well_formed_page map_record p (api w url page).

(** A collector that returns normally after requesting pages 1, 2, ..., [p]
    of the endpoint, each once and in this order, and no other page. *)
Definition fetches_pages {A} (m : M A) (url : string) (p : Z) : Prop :=
  forall s, exists rows s',
    m s = (Some (Ok rows), s') /\
    requests (trace s') = requests (trace s) ++ ((fun page => (url, page)) <$> seqZ 1 p).

(** The retained records of the pages requested in a stretch of trace, in
    the order of the requests and of the records in each page. *)
Definition retained_records (w : world) (evs : list event) : list json :=
  filter (fun item => retained item = true) (requests evs ≫= page_items w).

(** Between state [s0] with accumulator [acc0] and state [s] with
    accumulator [acc], the observation collector has appended one row per
    retained record of the pages it requested, in order. *)
Definition gathered (w : world) (s0 : state) (acc0 : list load_values.row)
    (acc : list load_values.row) (s : state) : Prop :=
  exists evs rows,
    trace s = trace s0 ++ evs /\
    acc = acc0 ++ rows /\
    Forall2 row_of_item (retained_records w evs) rows.

(** A script reports a fetch error when, the engine being up and the
    collection loop having raised [e], [main] returns normally after
    printing the error, with the store as it found it and no write sent. *)
Definition reports_fetch_error {row} (w : world) (greeting : bool)
    (collect : M (list row)) (main : M unit) : Prop :=
  forall s s1 s2 e,
    startup w greeting s = (Some (Ok true), s1) ->
    (print MsgLoading ≫= fun _ => collect) s1 = (Some (Raise e), s2) ->
    exists evs s',
      main s = (Some (Ok tt), s') /\
      store s' = store s /\
      trace s' = trace s ++ evs /\
      Forall (fun ev => writes ev = false) evs /\
      last evs = Some (Print (MsgFetchError e)).


(** A computation that leaves every table but [name] as it found it. *)
Definition touches_only {A} (name : string) (m : M A) : Prop :=
  forall s other, other <> name -> store (m s).2 !! other = store s !! other.

(** A computation that sends no page request. *)
Definition request_free {A} (m : M A) : Prop :=
  forall s, requests (trace (m s).2) = requests (trace s).

(** The pauses found in a trace. *)
Definition sleeps (t : list event) : nat :=
  length (filter (fun ev => match ev with Sleep => true | _ => false end = true) t).

(** A script loads what it collected when, the engine being up, no round
    trip to the store failing, the collection having returned the non-empty
    [all] and the transformation of [all] being [df], [main] returns
    normally and leaves the destination table holding the rows of [df], one
    for one and in order, in the form the store gives them, whatever the
    table held before. *)
Definition loads_collected {row} (w : world) (greeting : bool)
    (collect : M (list row)) (transformed : list row -> list tuple -> Prop)
    (name : string) (cols : list (string * string)) (main : M unit) : Prop :=
  forall s s1 s2 all df,
    (forall n, sql_fault w n = false) ->
    startup w greeting s = (Some (Ok true), s1) ->
    (print MsgLoading ≫= fun _ => collect) s1 = (Some (Ok all), s2) ->
    all <> [] ->
    transformed all df ->
    exists s',
      main s = (Some (Ok tt), s') /\
      store s' = <[name := Table cols (stored w cols <$> df)]> (store s) /\
      last (trace s') = Some Dispose.

(** A computation that finishes and does not pause. *)
Definition pause_free {A} (m : M A) : Prop :=
  forall s, (m s).1 <> None /\ sleeps (trace (m s).2) = sleeps (trace s).

(** A loop body that finishes, and pauses once exactly when it asks for
    another turn. *)
Definition paces {R} (m : M (R * bool)) : Prop :=
  forall s, exists r,
    (m s).1 = Some r /\
    sleeps (trace (m s).2) =
      (sleeps (trace s) + match r with Ok (_, true) => 1 | _ => 0 end)%nat.

(** ** Sample documents and worlds *)

Module Samples.

Definition obj (fields : list (string * json)) : json := JObj (list_to_map fields).

(** A plain reader of decimal literals, for the sample worlds. *)
Fixpoint fraction (scale : positive) (acc : Z) (cs : list ascii) : option Q :=
  match cs with
  | [] => Some (acc # scale)
  | c :: cs' => d ← Python.digit c; fraction (scale * 10) (10 * acc + d) cs'
  end.

Fixpoint decimal_digits (acc : Z) (cs : list ascii) : option Q :=
  match cs with
  | [] => Some (inject_Z acc)
  | c :: cs' =>
      if bool_decide (nat_of_ascii c = 46%nat) then fraction 1 acc cs'
      else d ← Python.digit c; decimal_digits (10 * acc + d) cs'
  end.

Definition read_decimal (s : string) : option Q :=
  match String.list_ascii_of_string s with
  | [] => None
  | c :: cs =>
      if bool_decide (nat_of_ascii c = 45%nat) then Qopp <$> decimal_digits 0 cs
      else decimal_digits 0 (c :: cs)
  end.

(** Python's [==] on JSON values. *)
Fixpoint equal (a b : json) {struct a} : bool :=
  match a, b with
  | JNull, JNull => true
  | JBool x, JBool y => eqb x y
  | JBool x, JNum q => Qeq_bool (if x then 1 else 0) q
  | JNum q, JBool x => Qeq_bool q (if x then 1 else 0)
  | JNum p, JNum q => Qeq_bool p q
  | JStr s, JStr t => bool_decide (s = t)
  | JArr l, JArr k =>
      (fix go (l k : list json) : bool :=
         match l, k with
         | [], [] => true
         | x :: l', y :: k' => equal x y && go l' k'
         | _, _ => false
         end) l k
  | JObj m, JObj n =>
      bool_decide (dom m = dom n) &&
      map_fold (fun k v acc =>
                  acc && match n !! k with Some v' => equal v v' | None => false end)
               true m
  | _, _ => false
  end.

(** The codes of a hash table that compares with [==]: the position of
    the first cell of the column equal to the given one. *)
Fixpoint first_equal (column : list json) (v : json) : nat :=
  match column with
  | [] => 0
  | c :: column' => if equal c v then 0 else S (first_equal column' v)
  end.

(** [int(v)] for each cell, fractions cut towards zero. *)
Definition int_of_cell (column : list json) (i : nat) : result Z :=
  match column !! i with
  | Some (JStr s) =>
      match Python.int_of_string s with Some z => Ok z | None => Raise ValueError end
  | Some (JNum q) => Ok (Z.quot (Qnum q) (Zpos (Qden q)))
  | Some (JBool b) => Ok (if b then 1 else 0)
  | _ => Raise TypeError
  end.

(** A world with every setting present, a reachable store that never
    fails and keeps the cells as they are sent, and the given API. *)
Definition healthy (responses : string -> Z -> result json) : world :=
  World (fun _ => Some "set") None responses (fun _ => false) (fun _ row => row)
        read_decimal first_equal int_of_cell.

(** The same, except that the [n]-th round trip to the store fails. *)
Definition flaky (n : nat) (responses : string -> Z -> result json) : world :=
  World (fun _ => Some "set") None responses (fun k => bool_decide (k = n))
        (fun _ row => row) read_decimal first_equal int_of_cell.

Definition fresh : state := State ∅ 0 [].

(** Entities *)
Definition usa : json :=
  obj [("id", JStr "USA"); ("name", JStr "United States");
       ("region", obj [("id", JStr "NA"); ("value", JStr "Aggregates")])].

Definition fra : json :=
  obj [("id", JStr "FRA"); ("name", JStr "France");
       ("region", obj [("id", JStr "ECS"); ("value", JStr "Europe & Central Asia")]);
       ("longitude", JStr "not-a-number"); ("latitude", JStr "48.8566")].

(** An entity whose [region] is present and null. *)
Definition null_region : json :=
  obj [("id", JStr "XKX"); ("name", JStr "Kosovo"); ("region", JNull)].

Definition two_pages (records : list json) : json :=
  JArr [obj [("page", JNum 1); ("pages", JNum 2)]; JArr records].

Definition countries_api : string -> Z -> result json :=
  fun _ _ => Ok (two_pages [usa; fra]).

(** Metrics *)
Definition gdp : json :=
  obj [("id", JStr "NY.GDP.MKTP.CD"); ("name", JStr "GDP (current US$)");
       ("topics", JArr [obj [("id", JStr "3"); ("value", JStr "Economy & Growth")]])].

Definition gdp_again : json :=
  obj [("id", JStr "NY.GDP.MKTP.CD"); ("name", JStr "GDP, duplicate entry")].

Definition population : json :=
  obj [("id", JStr "SP.POP.TOTL"); ("name", JStr "Population, total"); ("topics", JArr [])].

(** Observations *)
Definition observation (date : json) (v : json) : json :=
  obj [("countryiso3code", JStr "FRA");
       ("country", obj [("id", JStr "FR"); ("value", JStr "France")]);
       ("indicator", obj [("id", JStr "SP.POP.TOTL"); ("value", JStr "Population, total")]);
       ("date", date); ("value", v)].

(** An observation with a value and no [country] entry. *)
Definition observation_without_country : json :=
  obj [("countryiso3code", JStr "FRA");
       ("indicator", obj [("id", JStr "SP.POP.TOTL"); ("value", JStr "Population, total")]);
       ("date", JStr "2020"); ("value", JNum 67)].

Definition one_page (records : list json) : json :=
  JArr [obj [("page", JNum 1); ("pages", JNum 1)]; JArr records].

(** One page with the two sample entities. *)
Definition single_page_api : string -> Z -> result json :=
  fun _ _ => Ok (one_page [usa; fra]).

(** Every indicator answers with one page holding the same observation
    twice and one observation without a value. *)
Definition values_api : string -> Z -> result json :=
  fun _ _ => Ok (one_page [observation (JStr "2020") (JNum 67);
                           observation (JStr "2020") (JNum 67);
                           observation (JStr "2021") JNull]).

(** Every indicator answers with one observation dated by quarter. *)
Definition quarterly_api : string -> Z -> result json :=
  fun _ _ => Ok (one_page [observation (JStr "2020Q1") (JNum 67)]).

(** Every page holds one observation that has no [country] entry. *)
Definition incomplete_api : string -> Z -> result json :=
  fun _ _ => Ok (one_page [observation_without_country]).

(** A world in which the password setting is missing. *)
Definition unconfigured (responses : string -> Z -> result json) : world :=
  World (fun var => if bool_decide (var = "DB_PASS") then None else Some "set")
        None responses (fun _ => false) (fun _ row => row)
        read_decimal first_equal int_of_cell.

(** The API is down. *)
Definition failing_api : string -> Z -> result json :=
  fun _ _ => Raise RequestException.

(** The API has nothing to give: its first answer is an empty list. *)
Definition empty_api : string -> Z -> result json :=
  fun _ _ => Ok (JArr []).

(** A store that holds last run's countries. *)
Definition loaded : state :=
  State {[ "worldbank_countries" :=
             Table load_countries.columns
                   [[JStr "FRA"; JStr "FR"; JStr "France"; JNull; JNull; JNull; JNull;
                     JNull; JNull; JNull]] ]} 0 [].

End Samples.

(** * Properties *)
(** ** Results and [mapM] *)

Lemma bind_Ok {A B} (f : A -> result B) (r : result A) (b : B) :
  r ≫= f = Ok b <-> exists a, r = Ok a /\ f a = Ok b.
Proof.
  destruct r as [a|e]; simpl; split.
  - intros H. exists a. split; [reflexivity | exact H].
  - intros (a' & [= <-] & H). exact H.
  - intros [=].
  - intros (a' & [=] & _).
Qed.

Lemma mapM_Ok {A B} (f : A -> result B) (l : list A) (k : list B) :
  mapM f l = Ok k <-> Forall2 (fun x y => f x = Ok y) l k.
Proof.
  revert k. induction l as [|x l IH]; intros k; simpl.
  - split.
    + intros [= <-]. constructor.
    + intros H. inversion H. reflexivity.
  - split.
    + intros H. apply bind_Ok in H as (y & Hy & H).
      apply bind_Ok in H as (k' & Hk' & [= <-]).
      constructor; [exact Hy | apply IH, Hk'].
    + intros H. inversion H as [|? y ? k' Hy Hk']; subst.
      rewrite Hy. simpl. apply IH in Hk'. rewrite Hk'. reflexivity.
Qed.

Lemma mapM_is_ok {A B} (f : A -> result B) (l : list A) :
  Forall (fun x => is_ok (f x) = true) l -> exists k, mapM f l = Ok k.
Proof.
  induction 1 as [|x l Hx _ [k Hk]]; simpl.
  - exists []. reflexivity.
  - destruct (f x) as [y|e] eqn:Hf; [|discriminate].
    exists (y :: k). simpl. rewrite Hk. reflexivity.
Qed.

(** ** [keep_first] *)

Section KeepFirstFacts.
Context {A K : Type} `{EqDecision K} (by_key : A -> K).
Implicit Types (seen : list K) (df : list A) (r : A).

Lemma keep_first_unseen seen df r :
  r ∈ Pandas.keep_first by_key seen df -> by_key r ∉ seen.
Proof.
  revert seen. induction df as [|r0 df IH]; intros seen; simpl.
  - intros H. inversion H.
  - destruct (decide (by_key r0 ∈ seen)) as [Hin|Hout].
    + apply IH.
    + rewrite elem_of_cons. intros [-> | H]; [exact Hout|].
      apply IH in H. rewrite not_elem_of_cons in H. tauto.
Qed.

Lemma keep_first_NoDup seen df :
  NoDup (by_key <$> Pandas.keep_first by_key seen df).
Proof.
  revert seen. induction df as [|r0 df IH]; intros seen; simpl.
  - constructor.
  - destruct (decide (by_key r0 ∈ seen)) as [Hin|Hout]; [apply IH|].
    rewrite fmap_cons. apply NoDup_cons. split; [|apply IH].
    rewrite list_elem_of_fmap. intros (r & Hk & Hr).
    apply keep_first_unseen in Hr. rewrite not_elem_of_cons in Hr.
    destruct Hr as [Hne _]. congruence.
Qed.

Lemma keep_first_first seen df r :
  r ∈ Pandas.keep_first by_key seen df ↔
  (by_key r ∉ seen) ∧ first_with by_key df r.
Proof.
  split.
  - intros Hr. split; [eapply keep_first_unseen, Hr|].
    revert seen Hr. induction df as [|r0 df IH]; intros seen; simpl.
    + intros H. inversion H.
    + destruct (decide (by_key r0 ∈ seen)) as [Hin|Hout].
      * intros Hr. pose proof (keep_first_unseen _ _ _ Hr) as Hu.
        destruct (IH _ Hr) as (before & after & -> & Hb).
        exists (r0 :: before), after. split; [reflexivity|].
        rewrite fmap_cons, not_elem_of_cons. split; [congruence | exact Hb].
      * rewrite elem_of_cons. intros [-> | Hr].
        -- exists [], df. split; [reflexivity|]. simpl. apply not_elem_of_nil.
        -- pose proof (keep_first_unseen _ _ _ Hr) as Hu.
           rewrite not_elem_of_cons in Hu.
           destruct (IH _ Hr) as (before & after & -> & Hb).
           exists (r0 :: before), after. split; [reflexivity|].
           rewrite fmap_cons, not_elem_of_cons. tauto.
  - intros (Hu & before & after & -> & Hb).
    revert seen Hu. induction before as [|b before IH]; intros seen Hu; simpl.
    + rewrite decide_False by exact Hu. apply list_elem_of_here.
    + rewrite fmap_cons, not_elem_of_cons in Hb. destruct Hb as [Hne Hb].
      destruct (decide (by_key b ∈ seen)).
      * apply IH; assumption.
      * apply list_elem_of_further, IH; [exact Hb|].
        rewrite not_elem_of_cons. tauto.
Qed.

Lemma first_occurrence df r :
  r ∈ df -> exists r0, by_key r0 = by_key r /\ first_with by_key df r0.
Proof.
  induction df as [|x df IH].
  - intros H. inversion H.
  - intros Hr. destruct (decide (by_key x = by_key r)) as [Heq|Hne].
    + exists x. split; [exact Heq|]. exists [], df. split; [reflexivity|].
      simpl. apply not_elem_of_nil.
    + apply elem_of_cons in Hr as [-> | Hr]; [congruence|].
      destruct (IH Hr) as (r0 & Hk & before & after & -> & Hb).
      exists r0. split; [exact Hk|]. exists (x :: before), after.
      split; [reflexivity|]. rewrite fmap_cons, not_elem_of_cons.
      split; [congruence | exact Hb].
Qed.

Lemma keep_first_sublist seen df : Pandas.keep_first by_key seen df `sublist_of` df.
Proof.
  revert seen. induction df as [|r0 df IH]; intros seen; simpl.
  - constructor.
  - destruct (decide (by_key r0 ∈ seen)).
    + apply sublist_cons, IH.
    + apply sublist_skip, IH.
Qed.
End KeepFirstFacts.

(** ** Metrics: deduplication *)

Lemma key_of_string (f : list json -> json -> nat) (column : list json) (v : json)
    (s : string) :
  Pandas.key_of f column v = Pandas.KeyStr s <-> v = JStr s.
Proof.
  destruct v; simpl; split; intros H; try discriminate; congruence.
Qed.

Lemma first_with_identifier (w : world) (df : list load_indicators.row)
    (r : load_indicators.row) :
  first_with (metric_key w df) df r -> first_with load_indicators.indicator_id df r.
Proof.
  intros (before & after & Hdf & Hfirst). exists before, after. split; [exact Hdf|].
  intros Hin. apply Hfirst. apply list_elem_of_fmap in Hin as (x & Hx & Hin).
  apply list_elem_of_fmap. exists x. split; [|exact Hin].
  unfold metric_key. rewrite Hx. reflexivity.
Qed.

Lemma NoDup_fmap_elem {A B} (f : A -> B) (l : list A) (x y : A) :
  NoDup (f <$> l) -> x ∈ l -> y ∈ l -> f x = f y -> x = y.
Proof.
  induction l as [|z l IH]; simpl; [intros _ H; inversion H|].
  rewrite NoDup_cons, !elem_of_cons. intros [Hz Hnd] [-> | Hx] [-> | Hy] Heq.
  - reflexivity.
  - exfalso. apply Hz. rewrite Heq. apply list_elem_of_fmap_2, Hy.
  - exfalso. apply Hz. rewrite <- Heq. apply list_elem_of_fmap_2, Hx.
  - apply IH; assumption.
Qed.

(** C6. [drop_duplicates(subset='indicator_id')] never raises, whatever
    the identifiers are.  The identifiers of its output are pairwise
    distinct, as values and as keys; the output rows are input rows, whole
    and in input order; every output row is the first input row with its
    identifier; every input row has its identifier in the output, carried
    by the first input row that has it; and when two input rows share an
    identifier, one output row stands for both, which is the first input
    row with that identifier. *)
Theorem deduplicate_keeps_first (w : world) (df : list load_indicators.row) :
  NoDup (load_indicators.indicator_id <$> load_indicators.deduplicate w df) /\
  NoDup (metric_key w df <$> load_indicators.deduplicate w df) /\
  load_indicators.deduplicate w df `sublist_of` df /\
  (forall r, r ∈ load_indicators.deduplicate w df ->
     first_with (metric_key w df) df r /\
     first_with load_indicators.indicator_id df r) /\
  (forall r, r ∈ df ->
     exists r0, r0 ∈ load_indicators.deduplicate w df /\
       metric_key w df r0 = metric_key w df r /\
       first_with (metric_key w df) df r0 /\
       (forall s, load_indicators.indicator_id r = JStr s ->
                  load_indicators.indicator_id r0 = JStr s)) /\
  (forall r1 r2, r1 ∈ df -> r2 ∈ df ->
     load_indicators.indicator_id r1 = load_indicators.indicator_id r2 ->
     exists r0, r0 ∈ load_indicators.deduplicate w df /\
       first_with load_indicators.indicator_id df r0 /\
       metric_key w df r0 = metric_key w df r1 /\
       metric_key w df r0 = metric_key w df r2 /\
       forall r', r' ∈ load_indicators.deduplicate w df ->
                  metric_key w df r' = metric_key w df r1 -> r' = r0).
Proof.
  unfold load_indicators.deduplicate, Pandas.drop_duplicates.
  change (fun r => Pandas.key_of (factorize w) (load_indicators.indicator_id <$> df)
                     (load_indicators.indicator_id r)) with (metric_key w df).
  set (by_key := metric_key w df).
  assert (Hnd : NoDup (by_key <$> Pandas.keep_first by_key [] df))
    by apply keep_first_NoDup.
  assert (Hfirst : forall r, r ∈ Pandas.keep_first by_key [] df -> first_with by_key df r).
  { intros r Hr. apply keep_first_first in Hr. apply Hr. }
  assert (Hrep : forall r, r ∈ df ->
            exists r0, r0 ∈ Pandas.keep_first by_key [] df /\ by_key r0 = by_key r /\
                       first_with by_key df r0).
  { intros r Hr. destruct (first_occurrence by_key df r Hr) as (r0 & Hk & H0).
    exists r0. split; [|split; [exact Hk | exact H0]].
    apply keep_first_first. split; [apply not_elem_of_nil | exact H0]. }
  split; [|split; [exact Hnd|split; [apply keep_first_sublist|split; [|split]]]].
  - eapply (NoDup_fmap_1 (Pandas.key_of (factorize w) (load_indicators.indicator_id <$> df))).
    rewrite <- (list_fmap_compose load_indicators.indicator_id). exact Hnd.
  - intros r Hr. split; [apply Hfirst, Hr | apply (first_with_identifier w), Hfirst, Hr].
  - intros r Hr. destruct (Hrep r Hr) as (r0 & Hin & Hk & H0).
    exists r0. split; [exact Hin|]. split; [exact Hk|]. split; [exact H0|].
    intros s Hs. eapply key_of_string. unfold by_key, metric_key in Hk. rewrite Hk, Hs.
    reflexivity.
  - intros r1 r2 Hr1 Hr2 Hid. destruct (Hrep r1 Hr1) as (r0 & Hin & Hk & H0).
    exists r0. split; [exact Hin|]. split; [apply (first_with_identifier w), H0|].
    split; [exact Hk|]. split.
    + rewrite Hk. unfold by_key, metric_key. rewrite Hid. reflexivity.
    + intros r' Hr' Hk'. eapply NoDup_fmap_elem; [exact Hnd | exact Hr' | exact Hin |].
      congruence.
Qed.

(** Identifiers that are lists: the second row repeats the identifier of the
    first and is dropped, nothing is raised. *)
Example deduplicate_list_identifiers :
  let row id name :=
    load_indicators.Row id (JStr name) JNull JNull JNull JNull JNull JNull in
  load_indicators.deduplicate (Samples.healthy Samples.countries_api)
    [row (JArr [JStr "A"; JNum 1]) "first"; row (JArr [JStr "A"; JNum 1]) "second";
     row (JStr "A") "third"; row JNull "fourth"; row (JStr "A") "fifth"] =
  [row (JArr [JStr "A"; JNum 1]) "first"; row (JStr "A") "third"; row JNull "fourth"].
Proof. reflexivity. Qed.

(** ** Entities: the aggregate filter and the coordinates *)

Lemma not_aggregate_spec (r : load_countries.row) :
  load_countries.not_aggregate r = true <->
  load_countries.region_name r <> JStr "Aggregates".
Proof.
  unfold load_countries.not_aggregate.
  destruct (load_countries.region_name r) as [| | |s| |]; try (split; [discriminate|reflexivity]).
  rewrite negb_true_iff, bool_decide_eq_false. split; intros H; congruence.
Qed.

Lemma read_float_parses (w : world) (s : string) (q : Q) :
  Pandas.read_float (str_to_float w) s = Some q <-> parses_as w s q.
Proof.
  unfold Pandas.read_float, parses_as. case_bool_decide as Hempty.
  { split; [discriminate | intros [H _]; contradiction]. }
  destruct (existsb Pandas.unnumeric (String.list_ascii_of_string s)) eqn:Hletters.
  - split; [discriminate|]. intros (_ & Hnone & _).
    apply existsb_exists in Hletters as (c & Hc & Hun).
    unfold Pandas.unnumeric in Hun. apply bool_decide_eq_true in Hun.
    destruct (Hnone c); [apply list_elem_of_In, Hc | exact Hun].
  - split.
    + intros Hq. split; [exact Hempty|]. split; [|exact Hq].
      intros c Hc Hun.
      assert (Hex : existsb Pandas.unnumeric (String.list_ascii_of_string s) = true).
      { apply existsb_exists. exists c. split; [apply list_elem_of_In, Hc|].
        apply bool_decide_eq_true, Hun. }
      congruence.
    + intros (_ & _ & Hq). exact Hq.
Qed.

Lemma to_numeric_cell_coerced (w : world) (v : json) :
  coerced_cell w v (Pandas.to_numeric_cell (str_to_float w) v).
Proof.
  destruct v as [|b|q|s|l|m]; simpl; try reflexivity.
  - right. reflexivity.
  - split.
    + intros q Hq. apply read_float_parses in Hq. rewrite Hq. reflexivity.
    + intros Hnone. destruct (Pandas.read_float (str_to_float w) s) as [q|] eqn:Hq;
        [|reflexivity].
      destruct (Hnone q). apply read_float_parses, Hq.
Qed.

Lemma to_numeric_coerced (w : world) (column : list json) :
  Forall2 (coerced_cell w) column (Pandas.to_numeric (str_to_float w) column).
Proof.
  unfold Pandas.to_numeric. destruct (forallb Pandas.is_bool column) eqn:Hbool.
  - apply Forall_Forall2_diag, Forall_forall. intros v Hv.
    apply list_elem_of_In in Hv. apply (proj1 (forallb_forall _ _) Hbool) in Hv.
    destruct v; try discriminate. left. reflexivity.
  - apply Forall2_fmap_r, Forall_Forall2_diag, Forall_forall. intros v _.
    apply to_numeric_cell_coerced.
Qed.

Lemma set_coordinates_coerced (w : world) (df : list load_countries.row)
    (lons lats : list json) :
  Forall2 (coerced_cell w) (load_countries.longitude <$> df) lons ->
  Forall2 (coerced_cell w) (load_countries.latitude <$> df) lats ->
  Forall2 (coerced w) df (zip_with load_countries.set_coordinates df (zip lons lats)).
Proof.
  revert lons lats. induction df as [|r df IH]; intros lons lats Hlon Hlat.
  - constructor.
  - rewrite fmap_cons in Hlon, Hlat.
    inversion Hlon as [|? lon ? lons' Hlon1 Hlons]; subst.
    inversion Hlat as [|? lat ? lats' Hlat1 Hlats]; subst. simpl.
    constructor; [|apply IH; assumption].
    unfold coerced. simpl. repeat split; assumption.
Qed.

Lemma coerce_coordinates_coerced (w : world) (df : list load_countries.row) :
  Forall2 (coerced w) df (load_countries.coerce_coordinates w df).
Proof. apply set_coordinates_coerced; apply to_numeric_coerced. Qed.

Lemma coerced_region_names (w : world) (df df' : list load_countries.row) :
  Forall2 (coerced w) df df' ->
  load_countries.region_name <$> df' = load_countries.region_name <$> df.
Proof.
  induction 1 as [|r r' df df' Hr _ IH]; [reflexivity|].
  rewrite !fmap_cons, IH. f_equal. apply Hr.
Qed.

(** C8. No row whose region name is "Aggregates" survives the entity
    transformation; the filter keeps exactly the other rows, in order, and
    the coercion that follows keeps every region name. *)
Theorem no_aggregates_survive (w : world) (df : list load_countries.row) :
  Forall (fun r => load_countries.region_name r <> JStr "Aggregates")
         (load_countries.clean w df) /\
  (forall r, r ∈ load_countries.filter_aggregates df <->
             r ∈ df /\ load_countries.region_name r <> JStr "Aggregates") /\
  load_countries.filter_aggregates df `sublist_of` df /\
  load_countries.region_name <$> load_countries.clean w df =
    load_countries.region_name <$> load_countries.filter_aggregates df.
Proof.
  assert (Hmem : forall r, r ∈ load_countries.filter_aggregates df <->
                   r ∈ df /\ load_countries.region_name r <> JStr "Aggregates").
  { intros r. unfold load_countries.filter_aggregates.
    rewrite list_elem_of_filter, not_aggregate_spec. tauto. }
  assert (Hreg : load_countries.region_name <$> load_countries.clean w df =
                 load_countries.region_name <$> load_countries.filter_aggregates df).
  { unfold load_countries.clean. apply (coerced_region_names w).
    apply coerce_coordinates_coerced. }
  split; [|split; [exact Hmem|split; [apply sublist_filter | exact Hreg]]].
  apply Forall_forall. intros r' Hr'.
  assert (Hname : load_countries.region_name r' ∈
                  load_countries.region_name <$> load_countries.clean w df)
    by apply list_elem_of_fmap_2, Hr'.
  rewrite Hreg in Hname. apply list_elem_of_fmap in Hname as (r & -> & Hr).
  apply Hmem in Hr. apply Hr.
Qed.

Lemma cleaned_filter (w : world) (df out : list load_countries.row) :
  Forall2 (coerced w) (load_countries.filter_aggregates df) out -> cleaned w df out.
Proof.
  unfold load_countries.filter_aggregates. revert out.
  induction df as [|r df IH]; intros out H.
  - inversion H. constructor.
  - destruct (decide (load_countries.not_aggregate r = true)) as [Hkeep|Hdrop].
    + rewrite filter_cons_True in H by exact Hkeep.
      inversion H as [|? r' ? out' Hr Hrest]; subst.
      apply cleaned_entity; [apply not_aggregate_spec, Hkeep | exact Hr | apply IH, Hrest].
    + rewrite filter_cons_False in H by exact Hdrop.
      apply cleaned_aggregate; [|apply IH, H].
      destruct (load_countries.region_name r) as [| | |name| |] eqn:Hname;
        try (destruct Hdrop; unfold load_countries.not_aggregate; rewrite Hname; reflexivity).
      f_equal. unfold load_countries.not_aggregate in Hdrop. rewrite Hname in Hdrop.
      apply not_true_is_false, negb_false_iff, bool_decide_eq_true in Hdrop. exact Hdrop.
Qed.

Lemma unnumeric_not_parsed (w : world) (s : string) (c : ascii) :
  c ∈ String.list_ascii_of_string s ->
  c ∈ String.list_ascii_of_string "bcghklmoqrsuvwzBCGHKLMOQRSUVWZ" ->
  forall q, ~ parses_as w s q.
Proof. intros Hc Hletter q (_ & Hnone & _). exact (Hnone c Hc Hletter). Qed.

(** C9. The entity transformation never raises and drops no row for its
    coordinates.  The rows handed to the load are, one for one and in
    order, the input rows whose region name is not "Aggregates"; in each, a
    longitude or latitude that is a number is kept, one that is a string
    parsing as a number becomes that number, and one that does not parse
    becomes null.  In particular a row whose longitude or latitude is a
    string with a letter no number is spelt with, such as "not-a-number",
    is loaded with that coordinate null. *)
Theorem coordinates_coerced_not_dropped (w : world) (df : list load_countries.row) (s : state) :
  (exists evs,
     load_countries.transform w df s =
       (Some (Ok (load_countries.to_tuple <$> load_countries.clean w df)),
        State (store s) (ops s) (trace s ++ evs))) /\
  cleaned w df (load_countries.clean w df) /\
  (forall r text c,
     r ∈ df -> load_countries.region_name r <> JStr "Aggregates" ->
     c ∈ String.list_ascii_of_string text ->
     c ∈ String.list_ascii_of_string "bcghklmoqrsuvwzBCGHKLMOQRSUVWZ" ->
     exists r', r' ∈ load_countries.clean w df /\ coerced w r r' /\
       (load_countries.longitude r = JStr text -> load_countries.longitude r' = JNull) /\
       (load_countries.latitude r = JStr text -> load_countries.latitude r' = JNull)).
Proof.
  assert (Hco : Forall2 (coerced w) (load_countries.filter_aggregates df)
                        (load_countries.clean w df))
    by apply coerce_coordinates_coerced.
  split; [|split].
  - unfold load_countries.transform, print, emit, mbind, M_bind, mret, M_ret. simpl.
    eexists. rewrite <- !app_assoc. reflexivity.
  - apply cleaned_filter, Hco.
  - intros r text c Hr Hregion Hc Hletter.
    assert (Hkept : r ∈ load_countries.filter_aggregates df).
    { unfold load_countries.filter_aggregates. apply list_elem_of_filter.
      split; [apply not_aggregate_spec, Hregion | exact Hr]. }
    apply list_elem_of_lookup in Hkept as [i Hi].
    destruct (Forall2_lookup_l _ _ _ _ _ Hco Hi) as (r' & Hi' & Hrr').
    exists r'. split; [eapply list_elem_of_lookup_2, Hi'|]. split; [exact Hrr'|].
    destruct Hrr' as (_ & _ & _ & _ & _ & _ & _ & _ & Hlon & Hlat).
    split; intros Htext.
    + rewrite Htext in Hlon. apply Hlon. eapply unnumeric_not_parsed; eassumption.
    + rewrite Htext in Hlat. apply Hlat. eapply unnumeric_not_parsed; eassumption.
Qed.

Lemma coordinates_coerced_not_dropped_witness :
  let w := Samples.healthy Samples.countries_api in
  let usa := load_countries.Row (JStr "USA") JNull (JStr "United States") (JStr "NA")
               (JStr "Aggregates") JNull JNull JNull JNull JNull in
  let fra := load_countries.Row (JStr "FRA") JNull (JStr "France") (JStr "ECS")
               (JStr "Europe & Central Asia") JNull JNull JNull
               (JStr "not-a-number") (JStr "48.8566") in
  mapM load_countries.map_country [Samples.usa; Samples.fra] = Ok [usa; fra] /\
  exists fra', fra' ∈ load_countries.clean w [usa; fra] /\
    coerced w fra fra' /\ load_countries.longitude fra' = JNull.
Proof.
  intros w usa fra. split; [reflexivity|].
  destruct (proj2 (proj2 (coordinates_coerced_not_dropped w [usa; fra] Samples.fresh))
              fra "not-a-number" "o"%char)
    as (fra' & Hin & Hco & Hlon & _).
  - apply list_elem_of_further, list_elem_of_here.
  - discriminate.
  - apply list_elem_of_further, list_elem_of_here.
  - do 7 apply list_elem_of_further. apply list_elem_of_here.
  - exists fra'. split; [exact Hin|]. split; [exact Hco|]. apply Hlon. reflexivity.
Defined.


(** ** Computations *)

Lemma M_bind_unfold {A B} (m : M A) (f : A -> M B) (s : state) :
  (m ≫= f) s =
  match m s with
  | (Some (Ok a), s') => f a s'
  | (Some (Raise e), s') => (Some (Raise e), s')
  | (None, s') => (None, s')
  end.
Proof. reflexivity. Qed.

Lemma M_bind_Ok {A B} (m : M A) (f : A -> M B) (s s' : state) (b : B) :
  (m ≫= f) s = (Some (Ok b), s') <->
  exists a s1, m s = (Some (Ok a), s1) /\ f a s1 = (Some (Ok b), s').
Proof.
  rewrite M_bind_unfold. destruct (m s) as [[[a|e]|] s1]; split.
  - intros H. exists a, s1. split; [reflexivity | exact H].
  - intros (a' & s1' & [= <- <-] & H). exact H.
  - intros [=].
  - intros (a' & s1' & [=] & _).
  - intros [=].
  - intros (a' & s1' & [=] & _).
Qed.

(** ** Computations that leave the store alone *)

Lemma quiet_intro {A} (m : M A) :
  (forall s r s', m s = (r, s') ->
     store s' = store s /\
     exists evs, trace s' = trace s ++ evs /\ Forall (fun ev => writes ev = false) evs) ->
  quiet m.
Proof. intros H s. destruct (m s) as [r s'] eqn:E. simpl. eapply H, E. Qed.

Lemma quiet_elim {A} (m : M A) (s : state) r s' :
  quiet m -> m s = (r, s') ->
  store s' = store s /\
  exists evs, trace s' = trace s ++ evs /\ Forall (fun ev => writes ev = false) evs.
Proof. intros H E. specialize (H s). rewrite E in H. exact H. Qed.

Lemma quiet_ret {A} (a : A) : quiet (mret a : M A).
Proof.
  intros s. simpl. split; [reflexivity|]. exists []. rewrite app_nil_r. split; constructor.
Qed.

Lemma quiet_lift {A} (r : result A) : quiet (lift r).
Proof.
  intros s. simpl. split; [reflexivity|]. exists []. rewrite app_nil_r. split; constructor.
Qed.

Lemma quiet_emit (ev : event) : writes ev = false -> quiet (emit ev).
Proof.
  intros H s. simpl. split; [reflexivity|]. exists [ev]. split; [reflexivity|].
  constructor; [exact H | constructor].
Qed.

Lemma quiet_print (m : message) : quiet (print m).
Proof. apply quiet_emit. reflexivity. Qed.

Lemma quiet_bind {A B} (m : M A) (f : A -> M B) :
  quiet m -> (forall a, quiet (f a)) -> quiet (m ≫= f).
Proof.
  intros Hm Hf. apply quiet_intro. intros s r s'. rewrite M_bind_unfold.
  destruct (m s) as [[[a|e]|] s1] eqn:E1;
    destruct (quiet_elim _ _ _ _ Hm E1) as (Hs1 & evs1 & Ht1 & Hw1).
  - intros E2. destruct (quiet_elim _ _ _ _ (Hf a) E2) as (Hs2 & evs2 & Ht2 & Hw2).
    split; [congruence|]. exists (evs1 ++ evs2). split.
    + rewrite Ht2, Ht1, app_assoc. reflexivity.
    + apply Forall_app. split; assumption.
  - intros [= <- <-]. split; [exact Hs1|]. exists evs1. split; assumption.
  - intros [= <- <-]. split; [exact Hs1|]. exists evs1. split; assumption.
Qed.

Lemma quiet_try_except {A} (body : M A) (handler : exn -> M A) :
  quiet body -> (forall e, quiet (handler e)) -> quiet (try_except body handler).
Proof.
  intros Hm Hf. apply quiet_intro. intros s r s'. unfold try_except.
  destruct (body s) as [[[a|e]|] s1] eqn:E1;
    destruct (quiet_elim _ _ _ _ Hm E1) as (Hs1 & evs1 & Ht1 & Hw1).
  - intros [= <- <-]. split; [exact Hs1|]. exists evs1. split; assumption.
  - intros E2. destruct (quiet_elim _ _ _ _ (Hf e) E2) as (Hs2 & evs2 & Ht2 & Hw2).
    split; [congruence|]. exists (evs1 ++ evs2). split.
    + rewrite Ht2, Ht1, app_assoc. reflexivity.
    + apply Forall_app. split; assumption.
  - intros [= <- <-]. split; [exact Hs1|]. exists evs1. split; assumption.
Qed.

Lemma quiet_while_true {R} (body : Z -> R -> M (R * bool)) :
  (forall page acc, quiet (body page acc)) ->
  forall fuel page acc, quiet (while_true body fuel page acc).
Proof.
  intros Hbody. induction fuel as [|fuel IH]; intros page acc; simpl.
  - intros s. simpl. split; [reflexivity|]. exists []. rewrite app_nil_r. split; constructor.
  - apply quiet_bind; [apply Hbody|]. intros [acc' [|]]; simpl.
    + apply IH.
    + apply quiet_ret.
Qed.

Lemma quiet_for_each {X R} (body : X -> R -> M R) :
  (forall x acc, quiet (body x acc)) ->
  forall xs acc, quiet (for_each body xs acc).
Proof.
  intros Hbody. induction xs as [|x xs IH]; intros acc; simpl.
  - apply quiet_ret.
  - apply quiet_bind; [apply Hbody|]. intros acc'. apply IH.
Qed.

Lemma quiet_http_get (w : world) (url : string) (page : Z) : quiet (http_get w url page).
Proof.
  unfold http_get. apply quiet_bind; [apply quiet_emit; reflexivity|].
  intros _. apply quiet_lift.
Qed.

Lemma quiet_select_one (w : world) : quiet (execute w SelectOne).
Proof.
  intros s. unfold execute. destruct (sql_fault w (ops s)); simpl.
  - split; [reflexivity|]. exists [Sql SelectOne]. split; [reflexivity|].
    repeat constructor.
  - split; [reflexivity|]. exists [Sql SelectOne]. split; [reflexivity|].
    repeat constructor.
Qed.


Ltac quiet_steps :=
  repeat first
    [ apply quiet_bind; [|intros ?]
    | apply quiet_ret | apply quiet_lift | apply quiet_print | apply quiet_http_get
    | apply quiet_select_one
    | apply quiet_emit; reflexivity
    | match goal with |- quiet (if ?b then _ else _) => destruct b end
    | match goal with |- quiet (match ?x with _ => _ end) => destruct x end ].

Lemma quiet_page_body {row} (w : world) (url : string) (f : json -> result row) page all :
  quiet (page_body w url f page all).
Proof. unfold page_body. quiet_steps. Qed.

Lemma quiet_collect {row} (w : world) (url : string) (f : json -> result row) fuel :
  quiet (collect w url f fuel).
Proof. apply quiet_while_true. intros. apply quiet_page_body. Qed.

Lemma quiet_values_page_body (w : world) code page all :
  quiet (load_values.page_body w code page all).
Proof. unfold load_values.page_body. quiet_steps. Qed.

Lemma quiet_values_collect (w : world) fuel : quiet (load_values.collect w fuel).
Proof.
  apply quiet_for_each. intros code acc. unfold load_values.collect_indicator.
  apply quiet_bind; [apply quiet_print|]. intros _.
  apply quiet_bind; [apply quiet_while_true; intros; apply quiet_values_page_body|].
  intros all. quiet_steps.
Qed.

Lemma quiet_connect (w : world) : quiet (connect w).
Proof. unfold connect, engine_connect. quiet_steps. Qed.

Lemma quiet_startup (w : world) (greeting : bool) : quiet (startup w greeting).
Proof.
  unfold startup. apply quiet_bind; [destruct greeting; quiet_steps|]. intros _.
  destruct (bool_decide _); [|quiet_steps].
  apply quiet_try_except; [|intros e; quiet_steps].
  apply quiet_bind; [apply quiet_connect|]. intros _. quiet_steps.
Qed.

(** ** The empty-result exit *)

Lemma run_reports_empty {row} (w : world) (greeting : bool) (collect : M (list row))
    (transform : list row -> M (list tuple)) (name : string) (create : M bool) :
  quiet collect ->
  reports_empty_collection w greeting collect (run w greeting collect transform name create).
Proof.
  intros Hq s s1 s2 Hstart Hcol.
  destruct (quiet_elim _ _ _ _ (quiet_startup w greeting) Hstart) as (Hs1 & evs1 & Ht1 & Hw1).
  assert (Hq' : quiet (print MsgLoading ≫= fun _ => collect))
    by (apply quiet_bind; [apply quiet_print | intros _; exact Hq]).
  destruct (quiet_elim _ _ _ _ Hq' Hcol) as (Hs2 & evs2 & Ht2 & Hw2).
  apply M_bind_Ok in Hcol as ([] & s1' & Hprint & Hcol).
  exists (evs1 ++ evs2 ++ [Print MsgNoData]),
         (State (store s2) (ops s2) (trace s2 ++ [Print MsgNoData])).
  split; [|split; [|split; [|split]]].
  - unfold run. rewrite M_bind_unfold, Hstart. rewrite M_bind_unfold, Hprint.
    rewrite M_bind_unfold. unfold try_collect, try_except.
    rewrite M_bind_unfold, Hcol. reflexivity.
  - simpl. congruence.
  - simpl. rewrite Ht2, Ht1, <- !app_assoc. reflexivity.
  - repeat (apply Forall_app; split); try assumption. repeat constructor.
  - rewrite !app_assoc. apply last_snoc.
Qed.

(** C4. In each of the three scripts, when the collection phase yields no
    row, [main] prints the report and returns; the store is the one the run
    started with and no [DROP], [CREATE] or [INSERT] has been sent. *)
Theorem empty_collection_leaves_store (w : world) (fuel : nat) :
  reports_empty_collection w true
    (collect w load_countries.url load_countries.map_country fuel)
    (load_countries.main w fuel) /\
  reports_empty_collection w false
    (collect w load_indicators.url load_indicators.map_indicator fuel)
    (load_indicators.main w fuel) /\
  reports_empty_collection w false
    (load_values.collect w fuel)
    (load_values.main w fuel).
Proof.
  split; [|split].
  - apply run_reports_empty, quiet_collect.
  - apply run_reports_empty, quiet_collect.
  - apply run_reports_empty, quiet_values_collect.
Qed.

Lemma empty_collection_leaves_store_witness :
  exists evs s',
    load_countries.main (Samples.healthy Samples.empty_api) 1 Samples.loaded = (Some (Ok tt), s') /\
    store s' = store Samples.loaded /\
    trace s' = trace Samples.loaded ++ evs /\
    Forall (fun ev => writes ev = false) evs /\
    last evs = Some (Print MsgNoData).
Proof.
  eapply (proj1 (empty_collection_leaves_store (Samples.healthy Samples.empty_api) 1)
            Samples.loaded).
  - reflexivity.
  - reflexivity.
Defined.

(** ** Schema replacement *)

Lemma create_table_both_or_neither (w : world) (name : string) (cols : list (string * string)) :
  both_or_neither (create_table w name cols) name cols.
Proof.
  intros s. unfold create_table, try_except, engine_begin.
  rewrite !M_bind_unfold. unfold execute at 1. simpl.
  destruct (sql_fault w (ops s)) eqn:F0; simpl.
  { eexists false, _. split; [reflexivity|]. right. split; reflexivity. }
  unfold execute. simpl. destruct (sql_fault w (S (ops s))) eqn:F1; simpl.
  { eexists false, _. split; [reflexivity|]. right. split; reflexivity. }
  rewrite lookup_delete_eq. simpl.
  destruct (sql_fault w (S (S (ops s)))) eqn:F2; simpl.
  { eexists false, _. split; [reflexivity|]. right. split; reflexivity. }
  eexists true, _. split; [reflexivity|]. left. split; reflexivity.
Qed.

(** C5. Each of the three schema replacements always returns, and leaves
    the store either with the table dropped and created afresh (the
    transaction committed) or exactly as it was (a statement or the commit
    failed and the transaction was rolled back). *)
Theorem schema_replacement_atomic (w : world) (table_name : string) :
  both_or_neither (load_countries.create_countries_table w table_name)
                  table_name load_countries.columns /\
  both_or_neither (load_indicators.create_indicators_table w table_name)
                  table_name load_indicators.columns /\
  both_or_neither (load_values.create_values_table w table_name)
                  table_name load_values.columns.
Proof. repeat split; apply create_table_both_or_neither. Qed.

(** ** Walking the pages *)

Lemma requests_app (t1 t2 : list event) : requests (t1 ++ t2) = requests t1 ++ requests t2.
Proof. unfold requests. apply omap_app. Qed.

Lemma announced_last (metadata : gmap string json) (p page : Z) :
  announces metadata p ->
  Py.int_ge page (default (JNum 1) (metadata !! "pages")) = Ok (bool_decide (p <= page)).
Proof.
  unfold announces. destruct (metadata !! "pages") as [[| |q| | |]|]; simpl; try tauto.
  - intros Hq. f_equal. apply eq_true_iff_eq.
    rewrite Qle_bool_iff, bool_decide_eq_true, Hq, <- Zle_Qle. reflexivity.
  - intros ->. f_equal. apply eq_true_iff_eq.
    rewrite Qle_bool_iff, bool_decide_eq_true. change 1%Q with (inject_Z 1).
    rewrite <- Zle_Qle. reflexivity.
Qed.

Lemma page_body_well_formed {row} (w : world) (url : string) (f : json -> result row)
    (p page : Z) (all : list row) (s : state) :
  well_formed_page f p (api w url page) ->
  exists rows s',
    page_body w url f page all s = (Some (Ok (all ++ rows, bool_decide (page < p))), s') /\
    requests (trace s') = requests (trace s) ++ [(url, page)].
Proof.
  intros (metadata & records & Hapi & Hpages & Hne & Hrec).
  destruct (mapM_is_ok f records Hrec) as [rows Hrows].
  assert (Htruthy : negb (bool_decide (length records = 0%nat)) = true).
  { rewrite negb_true_iff, bool_decide_eq_false. destruct records; [congruence|discriminate]. }
  exists rows. eexists.
  unfold page_body, http_get, print, emit, lift, mbind, M_bind, mret, M_ret. simpl.
  rewrite Hapi. simpl. rewrite Htruthy. simpl. rewrite Hrows. simpl.
  rewrite (announced_last _ _ _ Hpages). simpl. split.
  - do 4 f_equal. apply eq_true_iff_eq.
    rewrite negb_true_iff, bool_decide_eq_false, bool_decide_eq_true. lia.
  - simpl. rewrite !requests_app. simpl. rewrite <- !app_assoc, app_nil_r. reflexivity.
Qed.

Lemma while_true_pages {R} (body : Z -> R -> M (R * bool)) (url : string) (p : Z) :
  (forall page acc s, 1 <= page <= p ->
     exists acc' s',
       body page acc s = (Some (Ok (acc', bool_decide (page < p))), s') /\
       requests (trace s') = requests (trace s) ++ [(url, page)]) ->
  forall (n : nat) (page : Z) (acc : R) (s : state) (fuel : nat),
    1 <= page -> page + Z.of_nat n = p -> (n < fuel)%nat ->
    exists acc' s',
      while_true body fuel page acc s = (Some (Ok acc'), s') /\
      requests (trace s') =
        requests (trace s) ++ ((fun k => (url, k)) <$> seqZ page (Z.of_nat (S n))).
Proof.
  intros Hbody. induction n as [|n IH]; intros page acc s fuel Hpage Hp Hfuel;
    (destruct fuel as [|fuel]; [lia|]);
    destruct (Hbody page acc s ltac:(lia)) as (acc1 & s1 & Hstep & Hreq);
    simpl while_true; rewrite M_bind_unfold, Hstep; simpl.
  - rewrite bool_decide_false by lia. exists acc1, s1. split; [reflexivity|].
    rewrite Hreq. reflexivity.
  - rewrite bool_decide_true by lia.
    destruct (IH (page + 1) acc1 s1 fuel ltac:(lia) ltac:(lia) ltac:(lia))
      as (acc' & s' & Hloop & Hreq').
    exists acc', s'. split; [exact Hloop|].
    rewrite Hreq', Hreq, <- app_assoc. f_equal.
    rewrite (seqZ_cons page (Z.of_nat (S (S n)))) by lia. simpl. do 3 f_equal; lia.
Qed.

Lemma collect_fetches_pages {row} (w : world) (url : string) (f : json -> result row)
    (p : Z) (fuel : nat) :
  1 <= p -> (Z.to_nat p <= fuel)%nat ->
  all_pages_well_formed w url f p ->
  fetches_pages (collect w url f fuel) url p.
Proof.
  intros Hp Hfuel Hwf s. unfold collect.
  destruct (while_true_pages (page_body w url f) url p) with
    (n := Z.to_nat (p - 1)) (page := 1) (acc := @nil row) (s := s) (fuel := fuel)
    as (rows & s' & Hloop & Hreq); try lia.
  - intros page acc s0 Hrange.
    destruct (page_body_well_formed w url f p page acc s0 (Hwf page Hrange))
      as (rows & s' & Hbody & Hreq).
    exists (acc ++ rows), s'. split; assumption.
  - exists rows, s'. split; [exact Hloop|]. rewrite Hreq. do 3 f_equal. lia.
Qed.

(** The loop tests the page count after the request: when a well-formed
    first page announces a count below 1, that page is still the one page
    requested. *)
Lemma collect_fetches_first_page {row} (w : world) (url : string) (f : json -> result row)
    (p : Z) (fuel : nat) (s : state) :
  p <= 1 -> well_formed_page f p (api w url 1) ->
  exists rows s',
    collect w url f (S fuel) s = (Some (Ok rows), s') /\
    requests (trace s') = requests (trace s) ++ [(url, 1)].
Proof.
  intros Hp Hwf. unfold collect. simpl while_true.
  destruct (page_body_well_formed w url f p 1 [] s Hwf) as (rows & s' & Hbody & Hreq).
  rewrite M_bind_unfold, Hbody. simpl. rewrite bool_decide_false by lia.
  exists rows, s'. split; [reflexivity | exact Hreq].
Qed.

(** A first answer that is not a list, or has fewer than two elements, or
    whose second element is empty, ends the collection with no row. *)
Lemma first_page_end_of_stream {row} (w : world) (url : string) (f : json -> result row)
    (data : json) (fuel : nat) (s : state) :
  api w url 1 = Ok data ->
  Py.is_list data = false \/
  (exists n, Py.len data = Ok n /\ (n < 2)%nat) \/
  (exists records, Py.index data 1 = Ok records /\ Py.truthy records = false) ->
  exists s', collect w url f (S fuel) s = (Some (Ok []), s').
Proof.
  intros Hapi Hend. unfold collect. simpl while_true.
  unfold page_body, http_get, print, emit, lift, mbind, M_bind, mret, M_ret. simpl.
  rewrite Hapi. simpl.
  destruct (Py.is_list data) eqn:Hlist; simpl; [|eexists; reflexivity].
  destruct data as [| | | |l|]; try discriminate. simpl.
  destruct Hend as [Hend | [(n & [= <-] & Hn) | (records & Hrec & Hfalsy)]];
    [discriminate | |].
  - rewrite bool_decide_true by exact Hn. simpl. eexists. reflexivity.
  - destruct (bool_decide (length l < 2)%nat); simpl; [eexists; reflexivity|].
    simpl in Hrec. destruct (l !! 1%nat) as [x|]; [|discriminate].
    injection Hrec as ->. simpl. rewrite Hfalsy. simpl. eexists. reflexivity.
Qed.

Lemma values_page_body_well_formed (w : world) (code : string)
    (p page : Z) (all : list load_values.row) (s : state) :
  well_formed_page load_values.map_value p (api w (load_values.indicator_url code) page) ->
  exists acc' s',
    load_values.page_body w code page all s =
      (Some (Ok (acc', bool_decide (page < p))), s') /\
    requests (trace s') = requests (trace s) ++ [(load_values.indicator_url code, page)].
Proof.
  intros (metadata & records & Hapi & Hpages & Hne & Hrec).
  destruct (mapM_is_ok _ records Hrec) as [rows Hrows].
  assert (Htruthy : negb (bool_decide (length records = 0%nat)) = true).
  { rewrite negb_true_iff, bool_decide_eq_false. destruct records; [congruence|discriminate]. }
  exists (all ++ omap id rows).
  unfold load_values.page_body, http_get, print, emit, lift, mbind, M_bind, mret, M_ret.
  simpl. rewrite Hapi. simpl. rewrite Htruthy. simpl. rewrite Hrows. simpl.
  rewrite (announced_last _ _ _ Hpages). simpl.
  destruct (decide (p <= page)) as [Hle|Hgt].
  - rewrite (bool_decide_true (p <= page)) by exact Hle.
    rewrite (bool_decide_false (page < p)) by lia.
    eexists. split; [reflexivity|]. simpl.
    rewrite !requests_app. simpl. rewrite <- !app_assoc, app_nil_r. reflexivity.
  - rewrite (bool_decide_false (p <= page)) by exact Hgt.
    rewrite (bool_decide_true (page < p)) by lia.
    eexists. split; [reflexivity|]. simpl.
    rewrite !requests_app. simpl. rewrite <- !app_assoc, app_nil_r. reflexivity.
Qed.

Lemma collect_indicator_fetches_pages (w : world) (code : string)
    (all : list load_values.row) (p : Z) (fuel : nat) :
  1 <= p -> (Z.to_nat p <= fuel)%nat ->
  all_pages_well_formed w (load_values.indicator_url code) load_values.map_value p ->
  fetches_pages (load_values.collect_indicator w fuel code all)
                (load_values.indicator_url code) p.
Proof.
  intros Hp Hfuel Hwf s. unfold load_values.collect_indicator.
  destruct (while_true_pages (load_values.page_body w code)
              (load_values.indicator_url code) p) with
    (n := Z.to_nat (p - 1)) (page := 1) (acc := all)
    (s := State (store s) (ops s) (trace s ++ [Print (MsgIndicator code)])) (fuel := fuel)
    as (rows & s' & Hloop & Hreq); try lia.
  - intros page acc s0 Hrange.
    apply (values_page_body_well_formed w code p), Hwf, Hrange.
  - exists rows. eexists. rewrite M_bind_unfold. simpl.
    rewrite M_bind_unfold, Hloop. simpl. split; [reflexivity|]. simpl.
    rewrite requests_app, Hreq. simpl. rewrite requests_app. simpl.
    rewrite !app_nil_r. do 3 f_equal. lia.
Qed.

(** C3. When every page from 1 to [p] comes back as a two-element list of
    a metadata object announcing [p] pages ([pages] being [p], or absent
    when [p] is 1) and a non-empty list of records the mapping accepts, the
    collector of each script returns normally and the requests it has sent
    are those for pages 1, 2, ..., [p], once each and in this order. *)
Theorem collector_fetches_each_page_once (w : world) (p : Z) (fuel : nat) :
  1 <= p -> (Z.to_nat p <= fuel)%nat ->
  (all_pages_well_formed w load_countries.url load_countries.map_country p ->
   fetches_pages (collect w load_countries.url load_countries.map_country fuel)
                 load_countries.url p) /\
  (all_pages_well_formed w load_indicators.url load_indicators.map_indicator p ->
   fetches_pages (collect w load_indicators.url load_indicators.map_indicator fuel)
                 load_indicators.url p) /\
  (forall code all,
     all_pages_well_formed w (load_values.indicator_url code) load_values.map_value p ->
     fetches_pages (load_values.collect_indicator w fuel code all)
                   (load_values.indicator_url code) p).
Proof.
  intros Hp Hfuel. split; [|split].
  - apply collect_fetches_pages; assumption.
  - apply collect_fetches_pages; assumption.
  - intros code all. apply collect_indicator_fetches_pages; assumption.
Qed.

Lemma collector_fetches_each_page_once_witness :
  exists rows s',
    collect (Samples.healthy Samples.countries_api) load_countries.url
            load_countries.map_country 2 Samples.fresh = (Some (Ok rows), s') /\
    requests (trace s') = [(load_countries.url, 1); (load_countries.url, 2)].
Proof.
  apply (proj1 (collector_fetches_each_page_once
                  (Samples.healthy Samples.countries_api) 2 2 ltac:(lia) ltac:(lia))).
  intros page _.
  exists (list_to_map [("page", JNum 1); ("pages", JNum 2)]), [Samples.usa; Samples.fra].
  split; [reflexivity|]. split; [reflexivity|]. split; [discriminate|].
  repeat constructor.
Defined.

(** ** Observations: mapping one page *)

Lemma map_value_Some (item : json) (r : load_values.row) :
  load_values.map_value item = Ok (Some r) ->
  retained item = true /\ row_of_item item r /\ load_values.value r <> JNull.
Proof.
  unfold load_values.map_value, retained. intros H.
  apply bind_Ok in H as (v & Hv & H). rewrite Hv.
  destruct (Py.is_none v) eqn:Hnone; [discriminate|].
  apply bind_Ok in H as (f1 & H1 & H). apply bind_Ok in H as (c & Hc & H).
  apply bind_Ok in H as (f2 & H2 & H). apply bind_Ok in H as (i & Hi & H).
  apply bind_Ok in H as (f3 & H3 & H). apply bind_Ok in H as (i' & Hi' & H).
  apply bind_Ok in H as (f4 & H4 & H). apply bind_Ok in H as (f5 & H5 & H).
  apply bind_Ok in H as (f6 & H6 & [= <-]).
  split; [reflexivity|]. split.
  - unfold row_of_item. simpl. rewrite Hc, Hi. simpl.
    rewrite Hi in Hi'. injection Hi' as <-. repeat split; assumption.
  - simpl. destruct item as [| | | | |m]; try discriminate. simpl in Hv, H6.
    destruct (m !! "value") as [x|]; [|discriminate].
    injection Hv as <-. injection H6 as <-. destruct x; try discriminate; congruence.
Qed.

Lemma map_value_None (item : json) :
  load_values.map_value item = Ok None -> retained item = false.
Proof.
  unfold load_values.map_value, retained. intros H.
  apply bind_Ok in H as (v & Hv & H). rewrite Hv.
  destruct (Py.is_none v) eqn:Hnone; [reflexivity|].
  repeat (apply bind_Ok in H as (? & _ & H)). discriminate.
Qed.

Lemma mapM_map_value (items : list json) (rows : list (option load_values.row)) :
  mapM load_values.map_value items = Ok rows ->
  Forall2 row_of_item (filter (fun item => retained item = true) items) (omap id rows).
Proof.
  rewrite mapM_Ok. induction 1 as [|item o items rows Hitem _ IH]; simpl.
  - constructor.
  - destruct o as [r|]; simpl.
    + apply map_value_Some in Hitem as (Hret & Hrow & _).
      rewrite filter_cons_True by exact Hret. constructor; assumption.
    + apply map_value_None in Hitem.
      rewrite filter_cons_False by (rewrite Hitem; discriminate). exact IH.
Qed.

Lemma row_of_retained_item (item : json) (r : load_values.row) :
  retained item = true -> row_of_item item r -> load_values.value r <> JNull.
Proof.
  unfold retained, row_of_item. intros Hret (_ & _ & _ & _ & _ & Hv).
  destruct item as [| | | | |m]; try discriminate. simpl in Hret, Hv.
  destruct (m !! "value") as [x|]; [|discriminate]. injection Hv as <-.
  destruct x; try discriminate; congruence.
Qed.

(** ** Observations: the year column *)

Lemma astype_int64_length (cast : list json -> nat -> result Z) (column : list json)
    (years : list Z) :
  Pandas.astype_int64 cast column = Ok years -> length years = length column.
Proof.
  unfold Pandas.astype_int64.
  destruct (mapM Pandas.int64_of column) as [cells|] eqn:Hcells.
  - intros H. apply mapM_Ok, Forall2_length in H. apply mapM_Some, Forall2_length in Hcells. congruence.
  - intros H. apply mapM_Ok, Forall2_length in H. rewrite length_seq in H. congruence.
Qed.

Lemma set_year_same (df : list load_values.row) (years : list Z) :
  length years = length df ->
  Forall2 same_but_year df (zip_with load_values.set_year df years).
Proof.
  revert years. induction df as [|r df IH]; intros [|y years]; simpl; try discriminate.
  - constructor.
  - intros [= Hlen]. constructor; [repeat split | apply IH, Hlen].
Qed.

Lemma convert_years_Ok (w : world) (df df' : list load_values.row) :
  load_values.convert_years w df = Ok df' <->
  exists years,
    Pandas.astype_int64 (cast_cell w) (load_values.year <$> df) = Ok years /\
    df' = zip_with load_values.set_year df years.
Proof.
  unfold load_values.convert_years. rewrite bind_Ok.
  split; intros (years & H & Hdf); exists years.
  - injection Hdf as <-. split; [exact H | reflexivity].
  - split; [exact H | rewrite Hdf; reflexivity].
Qed.

Lemma convert_years_same (w : world) (df df' : list load_values.row) :
  load_values.convert_years w df = Ok df' -> Forall2 same_but_year df df'.
Proof.
  rewrite convert_years_Ok. intros (years & H & ->).
  apply set_year_same. apply astype_int64_length in H. rewrite H, length_fmap. reflexivity.
Qed.

(** ** Observations: the collector gathers one row per retained record *)

Lemma while_true_invariant {R} (body : Z -> R -> M (R * bool)) (I : R -> state -> Prop) :
  (forall page acc s acc' c s',
     I acc s -> body page acc s = (Some (Ok (acc', c)), s') -> I acc' s') ->
  forall fuel page acc s acc' s',
    I acc s -> while_true body fuel page acc s = (Some (Ok acc'), s') -> I acc' s'.
Proof.
  intros Hbody. induction fuel as [|fuel IH]; intros page acc s acc' s' HI; simpl.
  - discriminate.
  - rewrite M_bind_Ok. intros ([acc1 c] & s1 & Hstep & Hrest).
    apply Hbody in Hstep; [|exact HI]. destruct c; simpl in Hrest.
    + eapply IH; eassumption.
    + injection Hrest as <- <-. exact Hstep.
Qed.

Lemma for_each_invariant {X R} (body : X -> R -> M R) (I : R -> state -> Prop) :
  (forall x acc s acc' s', I acc s -> body x acc s = (Some (Ok acc'), s') -> I acc' s') ->
  forall xs acc s acc' s',
    I acc s -> for_each body xs acc s = (Some (Ok acc'), s') -> I acc' s'.
Proof.
  intros Hbody. induction xs as [|x xs IH]; intros acc s acc' s' HI; simpl.
  - intros [= <- <-]. exact HI.
  - rewrite M_bind_Ok. intros (acc1 & s1 & Hstep & Hrest).
    eapply IH; [|exact Hrest]. eapply Hbody; eassumption.
Qed.

Lemma gathered_refl (w : world) (s : state) (acc : list load_values.row) :
  gathered w s acc acc s.
Proof.
  exists [], []. rewrite !app_nil_r. repeat split. constructor.
Qed.

Lemma retained_records_app (w : world) (evs1 evs2 : list event) :
  retained_records w (evs1 ++ evs2) = retained_records w evs1 ++ retained_records w evs2.
Proof.
  unfold retained_records. rewrite requests_app, bind_app, filter_app. reflexivity.
Qed.

Lemma gathered_step (w : world) s0 acc0 acc s (evs : list event) rows :
  gathered w s0 acc0 acc s ->
  Forall2 row_of_item (retained_records w evs) rows ->
  gathered w s0 acc0 (acc ++ rows) (State (store s) (ops s) (trace s ++ evs)).
Proof.
  intros (evs0 & rows0 & Ht & -> & H0) H. exists (evs0 ++ evs), (rows0 ++ rows).
  simpl. rewrite Ht, <- !app_assoc. repeat split.
  rewrite retained_records_app. apply Forall2_app; assumption.
Qed.

Lemma gathered_silent (w : world) s0 acc0 acc s (evs : list event) :
  gathered w s0 acc0 acc s -> requests evs = [] ->
  gathered w s0 acc0 acc (State (store s) (ops s) (trace s ++ evs)).
Proof.
  intros H Hq. rewrite <- (app_nil_r acc). apply gathered_step; [exact H|].
  unfold retained_records. rewrite Hq. constructor.
Qed.

Lemma gathered_page (w : world) s0 acc0 acc s (evs : list event) url page rows acc' :
  gathered w s0 acc0 acc s ->
  requests evs = [(url, page)] ->
  acc' = acc ++ rows ->
  Forall2 row_of_item (filter (fun item => retained item = true) (page_items w (url, page))) rows ->
  gathered w s0 acc0 acc' (State (store s) (ops s) (trace s ++ evs)).
Proof.
  intros H Hq -> Hrows. apply gathered_step; [exact H|].
  unfold retained_records. rewrite Hq. simpl. rewrite app_nil_r. exact Hrows.
Qed.

Lemma short_no_items (data : json) (n : nat) :
  Py.len data = Ok n -> (n < 2)%nat -> Py.index data 1 ≫= Py.iter = Raise IndexError \/
                                      exists k, Py.index data 1 ≫= Py.iter = Raise (KeyError k).
Proof.
  destruct data as [| | |s|l|m]; simpl; try discriminate; intros [= <-] Hn.
  - left. destruct s as [|c [|c' s]]; simpl in *; [reflexivity | reflexivity | lia].
  - left. rewrite lookup_ge_None_2 by lia. reflexivity.
  - right. eexists. reflexivity.
Qed.

Lemma falsy_short (data : json) :
  Py.truthy data = false -> is_ok (Py.index data 1 ≫= Py.iter) = false.
Proof.
  destruct data as [| | |s|l|m]; simpl; try reflexivity.
  - rewrite negb_false_iff, bool_decide_eq_true. intros ->. reflexivity.
  - rewrite negb_false_iff, bool_decide_eq_true. intros H.
    rewrite lookup_ge_None_2 by lia. reflexivity.
Qed.

Lemma falsy_no_items (page_data : json) :
  Py.truthy page_data = false ->
  match Py.iter page_data with Ok items => items | Raise _ => [] end = [].
Proof.
  destruct page_data as [| | |s|l|m]; simpl; try reflexivity.
  - rewrite negb_false_iff, bool_decide_eq_true. intros ->. reflexivity.
  - rewrite negb_false_iff, bool_decide_eq_true. intros H.
    destruct l; [reflexivity | discriminate].
  - rewrite negb_false_iff, bool_decide_eq_true. intros H.
    apply map_size_empty_iff in H. rewrite H, map_to_list_empty. reflexivity.
Qed.

Lemma values_page_body_gathers (w : world) (code : string) (page : Z)
    s0 acc0 acc s acc' c s' :
  gathered w s0 acc0 acc s ->
  load_values.page_body w code page acc s = (Some (Ok (acc', c)), s') ->
  gathered w s0 acc0 acc' s'.
Proof.
  intros HI H.
  unfold load_values.page_body, http_get, print, emit, lift, mbind, M_bind, mret, M_ret in H.
  simpl in H.
  assert (Hitems : page_items w (load_values.indicator_url code, page) =
                   match api w (load_values.indicator_url code) page with
                   | Ok data => match Py.index data 1 ≫= Py.iter with
                                | Ok items => items | Raise _ => [] end
                   | Raise _ => []
                   end) by reflexivity.
  destruct (api w (load_values.indicator_url code) page) as [data|e]; simpl in H;
    [|discriminate].
  destruct (Py.truthy data) eqn:Htruthy; simpl in H.
  2:{ injection H as <- <- <-. rewrite <- !app_assoc.
      eapply gathered_page; [exact HI | reflexivity | symmetry; apply app_nil_r |].
      rewrite Hitems. apply falsy_short in Htruthy.
      destruct (Py.index data 1 ≫= Py.iter); [discriminate | constructor]. }
  destruct (Py.len data) as [n|e] eqn:Hlen; simpl in H; [|discriminate].
  destruct (bool_decide (n < 2)%nat) eqn:Hn; simpl in H.
  { injection H as <- <- <-. rewrite <- !app_assoc.
    eapply gathered_page; [exact HI | reflexivity | symmetry; apply app_nil_r |].
    rewrite Hitems. apply bool_decide_eq_true in Hn.
    destruct (short_no_items data n Hlen Hn) as [-> | [k ->]]; constructor. }
  destruct (Py.index data 0) as [metadata|e]; simpl in H; [|discriminate].
  destruct (Py.get metadata "pages" (JNum 1)) as [total_pages|e]; simpl in H; [|discriminate].
  destruct (Py.index data 1) as [page_data|e]; simpl in H, Hitems; [|discriminate].
  destruct (Py.truthy page_data) eqn:Htruthy'; simpl in H.
  2:{ injection H as <- <- <-. rewrite <- !app_assoc.
      eapply gathered_page; [exact HI | reflexivity | symmetry; apply app_nil_r |].
      rewrite Hitems, (falsy_no_items _ Htruthy'). constructor. }
  destruct (Py.iter page_data) as [items|e]; simpl in H; [|discriminate].
  destruct (mapM load_values.map_value items) as [rows|e] eqn:Hrows; simpl in H;
    [|discriminate].
  destruct (Py.len page_data) as [processed|e]; simpl in H; [|discriminate].
  destruct (Py.int_ge page total_pages) as [[|]|e]; simpl in H; [| |discriminate].
  - injection H as <- <- <-. rewrite <- !app_assoc.
    eapply gathered_page; [exact HI | reflexivity | reflexivity |].
    rewrite Hitems. apply mapM_map_value, Hrows.
  - injection H as <- <- <-. rewrite <- !app_assoc.
    eapply gathered_page; [exact HI | reflexivity | reflexivity |].
    rewrite Hitems. apply mapM_map_value, Hrows.
Qed.

Lemma collect_indicator_gathers (w : world) (fuel : nat) (code : string)
    s0 acc0 acc s acc' s' :
  gathered w s0 acc0 acc s ->
  load_values.collect_indicator w fuel code acc s = (Some (Ok acc'), s') ->
  gathered w s0 acc0 acc' s'.
Proof.
  intros HI. unfold load_values.collect_indicator.
  rewrite M_bind_Ok. intros ([] & s1 & [= <-] & H).
  apply M_bind_Ok in H as (acc1 & s2 & Hloop & H).
  apply M_bind_Ok in H as ([] & s3 & [= <-] & [= <- <-]).
  apply gathered_silent; [|reflexivity].
  eapply (while_true_invariant _ (gathered w s0 acc0)); [| |exact Hloop].
  - intros page a t a' c t' Ha Hbody. eapply values_page_body_gathers; eassumption.
  - apply gathered_silent; [exact HI | reflexivity].
Qed.

Lemma collect_gathers (w : world) (fuel : nat) (s s' : state) (all : list load_values.row) :
  load_values.collect w fuel s = (Some (Ok all), s') ->
  exists evs, trace s' = trace s ++ evs /\ Forall2 row_of_item (retained_records w evs) all.
Proof.
  intros H. unfold load_values.collect in H.
  apply (for_each_invariant _ (gathered w s [])) in H.
  - destruct H as (evs & rows & Ht & -> & Hrows). exists evs. split; assumption.
  - intros code acc t acc' t' Ha Hbody. eapply collect_indicator_gathers; eassumption.
  - apply gathered_refl.
Qed.

(** C7. When the observation collector and the year conversion both
    succeed, every row handed to the load has a non-null value, and these
    rows are, one for one and in order, the retained records (those whose
    value is not null) of all the pages the collector requested: each such
    record has a row of its own, whether or not another record has the same
    entity, metric and year. *)
Theorem observations_valued_and_all_kept (w : world) (fuel : nat) (s s' : state)
    (all df' : list load_values.row) :
  load_values.collect w fuel s = (Some (Ok all), s') ->
  load_values.convert_years w all = Ok df' ->
  Forall (fun r' => load_values.value r' <> JNull) df' /\
  exists evs,
    trace s' = trace s ++ evs /\
    Forall2 (fun item r' => exists r, row_of_item item r /\ same_but_year r r')
            (retained_records w evs) df'.
Proof.
  intros Hcollect Hyears.
  apply collect_gathers in Hcollect as (evs & Ht & Hrows).
  apply convert_years_same in Hyears.
  assert (Hret : Forall (fun item => retained item = true) (retained_records w evs)).
  { apply Forall_forall. intros item Hitem. unfold retained_records in Hitem.
    apply list_elem_of_filter in Hitem. apply Hitem. }
  assert (Hboth : Forall2 (fun item r' => retained item = true /\
                             exists r, row_of_item item r /\ same_but_year r r')
                          (retained_records w evs) df').
  { revert Hret df' Hyears.
    induction Hrows as [|item r items rows Hitem _ IH]; intros Hret df' Hyears.
    - inversion Hyears. constructor.
    - inversion Hyears as [|? r' ? rows' Hsame Hrest]; subst.
      inversion Hret; subst. constructor.
      + split; [assumption|]. exists r. split; assumption.
      + apply IH; assumption. }
  split.
  - clear -Hboth. induction Hboth as [|item r' items rows (Hret & r & Hrow & Hsame) _ IH];
      constructor; [|exact IH].
    destruct Hsame as (_ & _ & _ & _ & ->). eapply row_of_retained_item; eassumption.
  - exists evs. split; [exact Ht|]. eapply Forall2_impl; [exact Hboth|].
    intros item r' [_ H]. exact H.
Qed.

Lemma observations_valued_and_all_kept_witness :
  exists all s' df',
    load_values.collect (Samples.healthy Samples.values_api) 1 Samples.fresh =
      (Some (Ok all), s') /\
    load_values.convert_years (Samples.healthy Samples.values_api) all = Ok df' /\
    length df' = 22%nat /\
    Forall (fun r' => load_values.value r' <> JNull) df'.
Proof.
  eexists _, _, _.
  split; [vm_compute; reflexivity|]. split; [vm_compute; reflexivity|].
  split; [reflexivity|].
  edestruct (observations_valued_and_all_kept
               (Samples.healthy Samples.values_api) 1 Samples.fresh) as [Hvalued _];
    [vm_compute; reflexivity | vm_compute; reflexivity | exact Hvalued].
Defined.

(** ** Observations: the year conversion is strict *)

Lemma nat_digit_char (d : nat) :
  (d < 10)%nat -> nat_of_ascii (digit_char d) = (48 + d)%nat.
Proof. intros H. unfold digit_char. apply nat_ascii_embedding. lia. Qed.

Lemma digit_digit_char (d : nat) :
  (d < 10)%nat -> Python.digit (digit_char d) = Some (Z.of_nat d).
Proof.
  intros H. unfold Python.digit. rewrite nat_digit_char by exact H.
  rewrite bool_decide_true by lia. f_equal. lia.
Qed.

Lemma digit_char_not_underscore (d : nat) :
  (d < 10)%nat -> Python.is_underscore (digit_char d) = false.
Proof.
  intros H. unfold Python.is_underscore. rewrite nat_digit_char by exact H.
  apply bool_decide_eq_false. lia.
Qed.

Lemma digit_char_not_space (d : nat) :
  (d < 10)%nat -> Python.is_space (digit_char d) = false.
Proof.
  intros H. unfold Python.is_space. rewrite nat_digit_char by exact H.
  apply bool_decide_eq_false. lia.
Qed.

Lemma blank_is_space (c : ascii) : blank c <-> Python.is_space c = true.
Proof.
  unfold blank, Python.is_space. cbv zeta. rewrite bool_decide_eq_true.
  rewrite !elem_of_cons, elem_of_nil. lia.
Qed.

Lemma more_digits_cons (acc : Z) (c : ascii) (cs : list ascii) :
  Python.more_digits acc (c :: cs) =
  if Python.is_underscore c then
    match cs with
    | c' :: cs'' => Python.digit c' ≫= fun d => Python.more_digits (10 * acc + d) cs''
    | [] => None
    end
  else Python.digit c ≫= fun d => Python.more_digits (10 * acc + d) cs.
Proof. reflexivity. Qed.

Lemma more_digits_render (acc : Z) (ds : list (bool * nat)) :
  Forall (fun d : bool * nat => (d.2 < 10)%nat) ds ->
  Python.more_digits acc (ds ≫= render) =
    Some (fold_left (fun acc (d : bool * nat) => 10 * acc + Z.of_nat d.2) ds acc).
Proof.
  intros H. revert acc. induction H as [|[u d] ds Hd _ IH]; intros acc; [reflexivity|].
  cbn [snd] in Hd.
  change (((u, d) :: ds) ≫= render) with (render (u, d) ++ (ds ≫= render)).
  unfold render at 1. cbn [fst snd fold_left]. destruct u; cbn [app].
  - rewrite more_digits_cons. change (Python.is_underscore "_"%char) with true. cbv iota.
    rewrite digit_digit_char by exact Hd. apply IH.
  - rewrite more_digits_cons. rewrite digit_char_not_underscore by exact Hd.
    rewrite digit_digit_char by exact Hd. apply IH.
Qed.

Lemma count_render (ds : list (bool * nat)) :
  Forall (fun d : bool * nat => (d.2 < 10)%nat) ds ->
  length (filter (fun c => Python.is_underscore c = false) (ds ≫= render)) = length ds.
Proof.
  induction 1 as [|[u d] ds Hd _ IH]; [reflexivity|]. cbn [snd] in Hd.
  change (((u, d) :: ds) ≫= render) with (render (u, d) ++ (ds ≫= render)).
  rewrite filter_app, length_app, IH. unfold render. cbn [fst snd].
  destruct u; cbn [app].
  - rewrite filter_cons_False by (intros H; discriminate H).
    rewrite filter_cons_True by (apply digit_char_not_underscore, Hd). reflexivity.
  - rewrite filter_cons_True by (apply digit_char_not_underscore, Hd). reflexivity.
Qed.

Lemma lstrip_blanks (b l : list ascii) :
  Forall blank b -> Python.lstrip (b ++ l) = Python.lstrip l.
Proof.
  induction 1 as [|c b Hc _ IH]; [reflexivity|]. simpl.
  apply blank_is_space in Hc. rewrite Hc. exact IH.
Qed.

Lemma strip_core (b1 b2 init : list ascii) (c z : ascii) :
  Forall blank b1 -> Forall blank b2 ->
  Python.is_space z = false ->
  head (init ++ [z]) = Some c -> Python.is_space c = false ->
  Python.strip (b1 ++ (init ++ [z]) ++ b2) = init ++ [z].
Proof.
  intros H1 H2 Hz Hhead Hc. unfold Python.strip. rewrite lstrip_blanks by exact H1.
  assert (Hl : forall l, Python.lstrip ((init ++ [z]) ++ l) = (init ++ [z]) ++ l).
  { intros l. destruct (init ++ [z]) as [|c' core]; [discriminate|].
    injection Hhead as ->. simpl. rewrite Hc. reflexivity. }
  rewrite Hl, reverse_app. rewrite lstrip_blanks by (apply Forall_reverse, H2).
  rewrite reverse_app. simpl. rewrite Hz.
  change (z :: reverse init) with ([z] ++ reverse init).
  rewrite reverse_app, reverse_involutive. reflexivity.
Qed.

Lemma body_last (f : nat) (ds : list (bool * nat)) :
  (f < 10)%nat -> Forall (fun d : bool * nat => (d.2 < 10)%nat) ds ->
  exists init d, (d < 10)%nat /\ digit_char f :: (ds ≫= render) = init ++ [digit_char d].
Proof.
  intros Hf. induction ds as [|[u d] ds _] using rev_ind; intros H.
  - exists [], f. split; [exact Hf | reflexivity].
  - apply Forall_app in H as [_ H]. inversion H as [|? ? Hd _]; subst. simpl in Hd.
    exists (digit_char f :: (ds ≫= render) ++ (if u then ["_"%char] else [])), d.
    split; [exact Hd|]. rewrite bind_app. simpl. rewrite app_nil_r. unfold render at 2.
    simpl. rewrite <- !app_assoc. reflexivity.
Qed.

Lemma int_of_literal (l : literal) :
  well_formed_literal l -> Python.int_of_string (literal_text l) = Some (literal_value l).
Proof.
  intros (Hb1 & Hb2 & Hf & Hds & Hcount).
  unfold Python.int_of_string, literal_text, literal_value.
  rewrite String.list_ascii_of_string_of_list_ascii.
  destruct (body_last (first_digit l) (more l) Hf Hds) as (init & d & Hd & Hbody).
  assert (Hdigits : Python.digits (digit_char (first_digit l) :: (more l ≫= render)) =
                    Some (fold_left (fun acc (d : bool * nat) => 10 * acc + Z.of_nat d.2)
                                    (more l) (Z.of_nat (first_digit l)))).
  { unfold Python.digits. rewrite digit_digit_char by exact Hf. cbn [mbind option_bind].
    rewrite more_digits_render by exact Hds. cbn [mbind option_bind].
    unfold Python.count_digits. rewrite filter_cons_True
      by (apply digit_char_not_underscore, Hf).
    cbn [length]. rewrite count_render by exact Hds.
    rewrite bool_decide_true by lia. reflexivity. }
  assert (Hnat := nat_digit_char (first_digit l) Hf).
  assert (Hcore : forall sg,
            blanks_before l ++ sg ++
              digit_char (first_digit l) :: (more l ≫= render) ++ blanks_after l =
            blanks_before l ++ ((sg ++ init) ++ [digit_char d]) ++ blanks_after l).
  { intros sg. rewrite <- (app_assoc sg init), <- Hbody, <- !app_assoc. reflexivity. }
  assert (Hback : forall sg,
            (sg ++ init) ++ [digit_char d] =
            sg ++ digit_char (first_digit l) :: (more l ≫= render)).
  { intros sg. rewrite <- app_assoc, <- Hbody. reflexivity. }
  pose proof (digit_char_not_space d Hd) as Hz.
  destruct (sign l) as [[|]|]; rewrite Hcore.
  - rewrite (strip_core _ _ _ "-"%char) by (assumption || reflexivity).
    rewrite Hback. cbn [app]. rewrite bool_decide_true by reflexivity.
    rewrite Hdigits. reflexivity.
  - rewrite (strip_core _ _ _ "+"%char) by (assumption || reflexivity).
    rewrite Hback. cbn [app]. rewrite bool_decide_false by discriminate.
    rewrite bool_decide_true by reflexivity. exact Hdigits.
  - rewrite (strip_core _ _ _ (digit_char (first_digit l)))
      by first [assumption | rewrite Hback; reflexivity | apply digit_char_not_space, Hf].
    rewrite Hback. cbn [app]. rewrite !bool_decide_false by (rewrite Hnat; lia).
    exact Hdigits.
Qed.

Lemma lstrip_keeps (c : ascii) (l : list ascii) :
  c ∈ l -> Python.is_space c = false -> c ∈ Python.lstrip l.
Proof.
  intros Hin Hc. induction l as [|x l IH]; [inversion Hin|].
  cbn [Python.lstrip]. destruct (Python.is_space x) eqn:Hx; [|exact Hin].
  apply elem_of_cons in Hin as [-> | Hin]; [congruence | apply IH, Hin].
Qed.

Lemma strip_keeps (c : ascii) (l : list ascii) :
  c ∈ l -> Python.is_space c = false -> c ∈ Python.strip l.
Proof.
  intros Hin Hc. unfold Python.strip.
  apply elem_of_reverse, lstrip_keeps; [|exact Hc].
  apply elem_of_reverse, lstrip_keeps; assumption.
Qed.

Lemma more_digits_stray (c : ascii) (n : nat) :
  Python.digit c = None -> Python.is_underscore c = false ->
  forall cs acc, (length cs <= n)%nat -> c ∈ cs -> Python.more_digits acc cs = None.
Proof.
  intros Hdigit Hunder. induction n as [|n IH]; intros cs acc Hlen Hin.
  { destruct cs; [inversion Hin | simpl in Hlen; lia]. }
  destruct cs as [|c0 cs]; [inversion Hin|]. rewrite more_digits_cons.
  cbn [length] in Hlen.
  destruct (Python.is_underscore c0) eqn:Hc0.
  - apply elem_of_cons in Hin as [-> | Hin]; [congruence|].
    destruct cs as [|c' cs]; [reflexivity|]. cbn [length] in Hlen.
    apply elem_of_cons in Hin as [-> | Hin].
    + rewrite Hdigit. reflexivity.
    + destruct (Python.digit c'); [|reflexivity]. apply IH; [lia | exact Hin].
  - apply elem_of_cons in Hin as [-> | Hin].
    + rewrite Hdigit. reflexivity.
    + destruct (Python.digit c0); [|reflexivity]. apply IH; [lia | exact Hin].
Qed.

Lemma digits_stray (c : ascii) (cs : list ascii) :
  Python.digit c = None -> Python.is_underscore c = false ->
  c ∈ cs -> Python.digits cs = None.
Proof.
  intros Hdigit Hunder Hin. destruct cs as [|c0 cs]; [reflexivity|]. unfold Python.digits.
  apply elem_of_cons in Hin as [-> | Hin].
  - rewrite Hdigit. reflexivity.
  - destruct (Python.digit c0); [|reflexivity]. cbn [mbind option_bind].
    rewrite (more_digits_stray c (length cs)) by auto. reflexivity.
Qed.

Lemma stray_facts (c : ascii) :
  stray c ->
  Python.is_space c = false /\ Python.digit c = None /\
  Python.is_underscore c = false /\
  nat_of_ascii c <> 45%nat /\ nat_of_ascii c <> 43%nat.
Proof.
  intros (Hblank & Hdigit & Hsign).
  rewrite !not_elem_of_cons in Hsign. destruct Hsign as (H43 & H45 & H95 & _).
  split; [|split; [|split; [|split]]].
  - apply not_true_is_false. intros H. apply Hblank, blank_is_space, H.
  - unfold Python.digit. rewrite bool_decide_false by exact Hdigit. reflexivity.
  - apply bool_decide_eq_false. exact H95.
  - exact H45.
  - exact H43.
Qed.

Lemma int_of_string_stray (s : string) (c : ascii) :
  c ∈ String.list_ascii_of_string s -> stray c -> Python.int_of_string s = None.
Proof.
  intros Hin Hstray. apply stray_facts in Hstray as (Hspace & Hdigit & Hunder & H45 & H43).
  unfold Python.int_of_string.
  pose proof (strip_keeps c _ Hin Hspace) as Hcore.
  destruct (Python.strip (String.list_ascii_of_string s)) as [|c0 cs]; [reflexivity|].
  case_bool_decide as Hminus.
  - apply elem_of_cons in Hcore as [-> | Hcore]; [congruence|].
    rewrite (digits_stray c cs) by assumption. reflexivity.
  - case_bool_decide as Hplus.
    + apply elem_of_cons in Hcore as [-> | Hcore]; [congruence|].
      apply (digits_stray c cs); assumption.
    + apply (digits_stray c); assumption.
Qed.

(** A column of cells that convert on their own is converted cell by
    cell. *)
Lemma mapM_id_Ok {A} (l : list A) : mapM id (Ok <$> l) = Ok l.
Proof.
  induction l as [|x l IH]; [reflexivity|].
  rewrite fmap_cons. cbn [mapM]. rewrite IH. reflexivity.
Qed.

Lemma astype_int64_cells (cast : list json -> nat -> result Z) (column : list json)
    (years : list Z) :
  Forall2 (fun v y => Pandas.int64_of v = Some (Ok y)) column years ->
  Pandas.astype_int64 cast column = Ok years.
Proof.
  intros H. unfold Pandas.astype_int64.
  rewrite (mapM_Some_2 Pandas.int64_of column (Ok <$> years)).
  - apply mapM_id_Ok.
  - apply Forall2_fmap_r. exact H.
Qed.

Lemma int64_of_literal (l : literal) :
  well_formed_literal l -> - 2 ^ 63 <= literal_value l < 2 ^ 63 ->
  Pandas.int64_of (JStr (literal_text l)) = Some (Ok (literal_value l)).
Proof.
  intros Hwf Hrange. unfold Pandas.int64_of. rewrite int_of_literal by exact Hwf.
  unfold Pandas.int64_range. rewrite bool_decide_true by exact Hrange. reflexivity.
Qed.

Lemma mapM_id_raises (cells : list (result Z)) :
  Exists (fun c => is_ok c = false) cells ->
  exists e, mapM id cells = Raise e /\ Raise e ∈ cells.
Proof.
  induction cells as [|[z|e] cells IH]; intros H.
  - inversion H.
  - inversion H as [? ? Hz|? ? Hrest]; subst; [discriminate|].
    destruct (IH Hrest) as (e & He & Hin). exists e. cbn [mapM]. rewrite He.
    split; [reflexivity | apply list_elem_of_further, Hin].
  - exists e. split; [reflexivity | apply list_elem_of_here].
Qed.

Lemma set_year_years (df : list load_values.row) (years : list Z) :
  length df = length years ->
  Forall2 (fun r' y => load_values.year r' = JNum (inject_Z y))
          (zip_with load_values.set_year df years) years.
Proof.
  revert years. induction df as [|r df IH]; intros [|y years]; simpl; try discriminate.
  - constructor.
  - intros [= Hlen]. constructor; [reflexivity | apply IH, Hlen].
Qed.

Lemma transform_raises (w : world) (df : list load_values.row) (e : exn) (s : state) :
  load_values.convert_years w df = Raise e ->
  load_values.transform w df s =
    (Some (Raise e), State (store s) (ops s) (trace s ++ [Print (MsgTotal (length df))])).
Proof.
  intros H. unfold load_values.transform, lift, print, emit, mbind, M_bind, mret, M_ret.
  simpl. rewrite H. reflexivity.
Qed.

Lemma int64_of_integer (y : Z) :
  - 2 ^ 53 <= y <= 2 ^ 53 -> Pandas.int64_of (JNum (inject_Z y)) = Some (Ok y).
Proof.
  intros H. cbn [Pandas.int64_of].
  rewrite (Qcanon.Qred_identity (inject_Z y)) by apply Z.gcd_1_r.
  cbn [inject_Z Qnum Qden]. rewrite bool_decide_true by (split; [reflexivity | exact H]).
  reflexivity.
Qed.

Lemma int64_of_year (v : json) (y : Z) :
  parses_as_year v y -> Pandas.int64_of v = Some (Ok y).
Proof.
  intros [(l & -> & Hwf & -> & Hrange) | [-> Hsmall]].
  - apply int64_of_literal; assumption.
  - apply int64_of_integer, Hsmall.
Qed.

Lemma plain_cells (df : list load_values.row) :
  Forall (fun r => plain_date (load_values.year r)) df ->
  exists cells,
    mapM Pandas.int64_of (load_values.year <$> df) = Some cells /\
    Forall (fun c => c = Raise ValueError \/ c = Raise OverflowError \/ is_ok c = true)
           cells /\
    (Exists (fun r => exists text, load_values.year r = JStr text /\ not_a_year text) df ->
     Exists (fun c => is_ok c = false) cells).
Proof.
  induction 1 as [|r df Hplain _ (cells & Hcells & Hok & Hex)].
  - exists []. split; [reflexivity|]. split; [constructor|]. intros H. inversion H.
  - rewrite fmap_cons. cbn [mapM].
    destruct Hplain as [(text & Hr) | (y & Hr & Hsmall)]; rewrite Hr.
    + rewrite Hcells. cbn [Pandas.int64_of].
      eexists. split; [reflexivity|]. split.
      * constructor; [|exact Hok]. destruct (Python.int_of_string text); [|tauto].
        unfold Pandas.int64_range. case_bool_decide; tauto.
      * intros H. inversion H as [? ? (text' & Hr' & Hno)|? ? Hlater]; subst.
        -- apply Exists_cons_hd. rewrite Hr in Hr'. injection Hr' as <-.
           destruct Hno as [(c & Hc & Hs) | (l & -> & Hwf & Hrange)].
           ++ rewrite (int_of_string_stray text c Hc Hs). reflexivity.
           ++ rewrite int_of_literal by exact Hwf. unfold Pandas.int64_range.
              rewrite bool_decide_false by exact Hrange. reflexivity.
        -- apply Exists_cons_tl, Hex, Hlater.
    + rewrite int64_of_integer by exact Hsmall. rewrite Hcells.
      eexists. split; [reflexivity|]. split.
      * constructor; [tauto | exact Hok].
      * intros H. inversion H as [? ? (text' & Hr' & _)|? ? Hlater]; subst.
        -- rewrite Hr in Hr'. discriminate.
        -- apply Exists_cons_tl, Hex, Hlater.
Qed.

(** C10. The year conversion is strict.  When every date parses as an
    integer (it is an integer literal in the sense of [int]: blanks, an
    optional sign, decimal digits with single underscores allowed between
    them, of a value that fits 64 bits; or it is an integer already), the
    conversion succeeds and the year of each output row is that integer.
    When the dates are strings or integers and one of the strings has a
    character no integer literal contains, or is a literal whose value does
    not fit 64 bits, the conversion raises [ValueError] or [OverflowError]
    and so does the transformation step, which no handler encloses: no year
    becomes null.  A run that collects such a date ("2020Q1") ends with the
    [ValueError]: nothing is written and the engine is not disposed. *)
Theorem year_conversion_is_strict (w : world) (df : list load_values.row) :
  (forall years,
     Forall2 (fun r y => parses_as_year (load_values.year r) y) df years ->
     load_values.convert_years w df = Ok (zip_with load_values.set_year df years) /\
     Forall2 (fun r' y => load_values.year r' = JNum (inject_Z y))
             (zip_with load_values.set_year df years) years) /\
  (Forall (fun r => plain_date (load_values.year r)) df ->
   Exists (fun r => exists text, load_values.year r = JStr text /\ not_a_year text) df ->
   exists e, (e = ValueError \/ e = OverflowError) /\
     load_values.convert_years w df = Raise e /\
     forall s, load_values.transform w df s =
       (Some (Raise e),
        State (store s) (ops s) (trace s ++ [Print (MsgTotal (length df))]))) /\
  exists s',
    load_values.main (Samples.healthy Samples.quarterly_api) 1 Samples.loaded =
      (Some (Raise ValueError), s') /\
    store s' = store Samples.loaded /\
    engine_disposed (trace s') = false.
Proof.
  split; [|split].
  - intros years H.
    assert (Hyears : Pandas.astype_int64 (cast_cell w) (load_values.year <$> df) =
                     Ok years).
    { apply astype_int64_cells, Forall2_fmap_l.
      eapply Forall2_impl; [exact H|]. intros r y Hy.
      unfold compose. apply int64_of_year, Hy. }
    split.
    + apply convert_years_Ok. eexists. split; [exact Hyears | reflexivity].
    + apply set_year_years. eapply Forall2_length, H.
  - intros Hplain Hstray.
    destruct (plain_cells df Hplain) as (cells & Hcells & Hok & Hex).
    specialize (Hex Hstray).
    destruct (mapM_id_raises cells Hex) as (e & He & Hin).
    assert (Hconv : load_values.convert_years w df = Raise e).
    { unfold load_values.convert_years, Pandas.astype_int64. rewrite Hcells, He.
      reflexivity. }
    exists e. split; [|split; [exact Hconv|]].
    + rewrite Forall_forall in Hok. destruct (Hok _ Hin) as [[= ->] | [[= ->] | H]];
        [tauto | tauto | discriminate].
    + intros s. apply transform_raises, Hconv.
  - eexists. split; [vm_compute; reflexivity|]. split; reflexivity.
Qed.

Lemma year_conversion_is_strict_witness :
  let w := Samples.healthy Samples.values_api in
  let row date := load_values.Row (JStr "FRA") (JStr "France") (JStr "SP.POP.TOTL")
                                  (JStr "Population, total") date (JNum 67) in
  load_values.convert_years w [row (JStr " +2_020"); row (JNum 2021)] =
    Ok [load_values.set_year (row (JStr " +2_020")) 2020;
        load_values.set_year (row (JNum 2021)) 2021].
Proof.
  intros w row.
  destruct (proj1 (year_conversion_is_strict w [row (JStr " +2_020"); row (JNum 2021)])
              [2020; 2021])
    as [Hyears _]; [|exact Hyears].
  constructor; [|constructor; [|constructor]].
  - left.
    exists (Literal [" "%char] (Some false) 2 [(true, 0%nat); (false, 2%nat); (false, 0%nat)] []).
    split; [reflexivity|]. split; [|split; [reflexivity|]].
    + split; [|split; [|split; [|split]]].
      * constructor; [|constructor]. unfold blank. vm_compute.
        do 5 apply list_elem_of_further. apply list_elem_of_here.
      * constructor.
      * simpl. lia.
      * repeat constructor.
      * reflexivity.
    + split; [apply Z.leb_le | apply Z.ltb_lt]; vm_compute; reflexivity.
  - right. split; [reflexivity|].
    split; apply Z.leb_le; vm_compute; reflexivity.
Defined.

(** ** Record mapping *)

Lemma map_country_total (m : gmap string json) :
  (forall v, m !! "region" = Some v -> Py.is_dict v = true) ->
  (forall v, m !! "incomeLevel" = Some v -> Py.is_dict v = true) ->
  exists r, load_countries.map_country (JObj m) = Ok r.
Proof.
  intros Hregion Hincome. unfold load_countries.map_country. simpl.
  destruct (m !! "region") as [region|]; simpl.
  - specialize (Hregion region eq_refl). destruct region; try discriminate. simpl.
    destruct (m !! "incomeLevel") as [income|]; simpl.
    + specialize (Hincome income eq_refl). destruct income; try discriminate. simpl.
      eexists. reflexivity.
    + eexists. reflexivity.
  - destruct (m !! "incomeLevel") as [income|]; simpl.
    + specialize (Hincome income eq_refl). destruct income; try discriminate. simpl.
      eexists. reflexivity.
    + eexists. reflexivity.
Qed.

Lemma map_country_absent (m : gmap string json) :
  m !! "region" = None -> m !! "incomeLevel" = None ->
  exists r, load_countries.map_country (JObj m) = Ok r /\
            load_countries.region_id r = JNull /\
            load_countries.region_name r = JNull /\
            load_countries.income_level_id r = JNull /\
            load_countries.income_level_name r = JNull.
Proof.
  intros Hregion Hincome. unfold load_countries.map_country. simpl.
  rewrite Hregion, Hincome. simpl. eexists. split; [reflexivity|]. repeat split.
Qed.

Lemma get_topic_field_total (m : gmap string json) (field : string) :
  exists v, load_indicators.get_topic_field (JObj m) field = Ok v.
Proof.
  unfold load_indicators.get_topic_field. simpl.
  destruct (m !! "topics") as [[| | | |[|[| | | | |t] topics]|]|]; simpl;
    eexists; reflexivity.
Qed.

Lemma get_topic_field_absent (m : gmap string json) (field : string) :
  m !! "topics" = None \/ m !! "topics" = Some (JArr []) ->
  load_indicators.get_topic_field (JObj m) field = Ok JNull.
Proof.
  unfold load_indicators.get_topic_field. simpl. intros [-> | ->]; reflexivity.
Qed.

Lemma map_indicator_total (m : gmap string json) :
  (forall v, m !! "source" = Some v -> Py.is_dict v = true) ->
  exists r, load_indicators.map_indicator (JObj m) = Ok r.
Proof.
  intros Hsource. unfold load_indicators.map_indicator.
  destruct (get_topic_field_total m "id") as [tid ->].
  destruct (get_topic_field_total m "value") as [tv ->]. simpl.
  destruct (m !! "source") as [source|]; simpl.
  - specialize (Hsource source eq_refl). destruct source; try discriminate. simpl.
    eexists. reflexivity.
  - eexists. reflexivity.
Qed.

(** C1. The observation mapping raises on a record that has a value but no
    [country] entry; the exception ends the collection and the run, through
    the handler of the collection loop.  The entity mapping raises on a
    record whose [region] is present and null. *)
Theorem observation_mapping_raises :
  load_values.map_value Samples.observation_without_country = Raise (KeyError "country") /\
  load_countries.map_country Samples.null_region = Raise AttributeError /\
  exists s',
    load_values.main (Samples.healthy Samples.incomplete_api) 1 Samples.fresh =
      (Some (Ok tt), s') /\
    last (trace s') = Some (Print (MsgFetchError (KeyError "country"))) /\
    store s' = store Samples.fresh.
Proof.
  split; [reflexivity|]. split; [reflexivity|].
  eexists. split; [vm_compute; reflexivity|]. split; reflexivity.
Qed.

(** ** Releasing the engine *)

Lemma try_finally_dispose {A} (body : M A) (s s1 : state) (r : result A) :
  body s = (Some r, s1) ->
  try_finally body dispose s = (Some r, State (store s1) (ops s1) (trace s1 ++ [Dispose])).
Proof. intros H. unfold try_finally. rewrite H. reflexivity. Qed.

Lemma execute_finishes (w : world) (q : stmt) (s : state) :
  exists r s', execute w q s = (Some r, s').
Proof.
  unfold execute. destruct (sql_fault w (ops s)); [eexists _, _; reflexivity|].
  destruct (run_stmt (stored w) q (store s)) as [[d a]|e]; eexists _, _; reflexivity.
Qed.

Lemma bind_finishes {A B} (m : M A) (f : A -> M B) (s : state) :
  (forall s, exists r s', m s = (Some r, s')) ->
  (forall a s, exists r s', f a s = (Some r, s')) ->
  exists r s', (m ≫= f) s = (Some r, s').
Proof.
  intros Hm Hf. rewrite M_bind_unfold. destruct (Hm s) as ([a|e] & s1 & ->).
  - apply Hf.
  - eexists _, _. reflexivity.
Qed.

Lemma try_except_finishes {A} (body : M A) (handler : exn -> M A) (s : state) :
  (forall s, exists r s', body s = (Some r, s')) ->
  (forall e s, exists r s', handler e s = (Some r, s')) ->
  exists r s', try_except body handler s = (Some r, s').
Proof.
  intros Hm Hf. unfold try_except. destruct (Hm s) as ([a|e] & s1 & ->).
  - eexists _, _. reflexivity.
  - apply Hf.
Qed.

Lemma engine_begin_finishes {A} (w : world) (body : M A) (s : state) :
  (forall s, exists r s', body s = (Some r, s')) ->
  exists r s', engine_begin w body s = (Some r, s').
Proof.
  intros Hm. unfold engine_begin. destruct (Hm s) as ([a|e] & s1 & ->).
  - destruct (sql_fault w (ops s1)); eexists _, _; reflexivity.
  - eexists _, _. reflexivity.
Qed.

Lemma print_finishes (m : message) (s : state) : exists r s', print m s = (Some r, s').
Proof. eexists _, _. reflexivity. Qed.

Lemma ret_finishes {A} (a : A) (s : state) : exists r s', (mret a : M A) s = (Some r, s').
Proof. eexists _, _. reflexivity. Qed.

Ltac finishes :=
  repeat first
    [ apply print_finishes | apply ret_finishes | apply execute_finishes
    | apply bind_finishes; intros
    | apply try_except_finishes; intros
    | apply engine_begin_finishes; intros ].

Lemma create_table_finishes (w : world) (name : string) cols (s : state) :
  exists r s', create_table w name cols s = (Some r, s').
Proof. unfold create_table. finishes. Qed.

(** Once the load stage is entered, the engine is disposed whatever happens
    in it. *)
Lemma load_disposes (w : world) (name : string) cols (df : list tuple) (s : state) :
  exists r s',
    load w name (create_table w name cols) df s = (Some r, s') /\
    last (trace s') = Some Dispose.
Proof.
  unfold load.
  assert (Hbody : exists r s1,
    try_except
      (create_table w name cols ≫= fun created : bool =>
         if created
         then to_sql w name df ≫= fun _ =>
              print (MsgSaved (length df)) ≫= fun _ => verify w name
         else mret tt)
      (fun e => print (MsgSaveError e)) s = (Some r, s1)).
  { apply try_except_finishes; intros; [|apply print_finishes].
    apply bind_finishes; intros; [apply create_table_finishes|].
    destruct a; [|apply ret_finishes].
    unfold to_sql, verify, engine_connect. destruct df; finishes. }
  destruct Hbody as (r & s1 & Hbody).
  exists r. eexists. split; [apply try_finally_dispose, Hbody|]. simpl. apply last_snoc.
Qed.

(** C2. After a successful connection, a failed page request and an empty
    collection both end [main] without the engine having been disposed; so
    does the uncaught failure of the year conversion. *)
Theorem early_exits_skip_dispose :
  (exists s',
     load_countries.main (Samples.healthy Samples.failing_api) 1 Samples.fresh =
       (Some (Ok tt), s') /\
     engine_created (trace s') = true /\ engine_disposed (trace s') = false) /\
  (exists s',
     load_countries.main (Samples.healthy Samples.empty_api) 1 Samples.fresh =
       (Some (Ok tt), s') /\
     engine_created (trace s') = true /\ engine_disposed (trace s') = false) /\
  (exists s',
     load_values.main (Samples.healthy Samples.quarterly_api) 1 Samples.fresh =
       (Some (Raise ValueError), s') /\
     engine_created (trace s') = true /\ engine_disposed (trace s') = false).
Proof.
  repeat split; eexists; (split; [vm_compute; reflexivity|]); split; reflexivity.
Qed.

(** A failed [CREATE TABLE] does not leave the table dropped: last run's
    rows are still there. *)
Example create_fault_keeps_old_table :
  exists s',
    load_countries.create_countries_table
      (Samples.flaky 1 Samples.countries_api) "worldbank_countries" Samples.loaded =
      (Some (Ok false), s') /\
    store s' = store Samples.loaded.
Proof. eexists. split; [vm_compute; reflexivity | reflexivity]. Qed.

(** The scenario of two entities, one of them an aggregate and one with an
    unreadable longitude: one row is loaded, with a null longitude. *)
Example aggregate_filtered_and_longitude_null :
  (mapM load_countries.map_country [Samples.usa; Samples.fra] ≫= fun df =>
     Ok (load_countries.to_tuple <$>
           load_countries.clean (Samples.healthy Samples.countries_api) df)) =
  Ok [[JStr "FRA"; JNull; JStr "France"; JStr "ECS"; JStr "Europe & Central Asia";
       JNull; JNull; JNull; JNull; JNum (488566 # 10000)]].
Proof. reflexivity. Qed.

(** * Further properties of the scripts *)

(** ** Exits before the collection *)

Lemma run_not_started {row} (w : world) (greeting : bool) (collect : M (list row))
    (transform : list row -> M (list tuple)) (name : string) (create : M bool)
    (s s1 : state) :
  startup w greeting s = (Some (Ok false), s1) ->
  run w greeting collect transform name create s = (Some (Ok tt), s1).
Proof. intros H. unfold run. rewrite M_bind_unfold, H. reflexivity. Qed.

Lemma startup_missing (w : world) (greeting : bool) (s : state) :
  missing_vars w <> [] ->
  startup w greeting s =
    (Some (Ok false),
     State (store s) (ops s)
           (trace s ++ (if greeting then [Print MsgStart] else []) ++
            [Print (MsgMissingEnv (missing_vars w))])).
Proof.
  intros H. unfold startup. rewrite bool_decide_false by exact H.
  destruct greeting; unfold print, emit, mbind, M_bind, mret, M_ret; simpl.
  - rewrite <- app_assoc. reflexivity.
  - reflexivity.
Qed.

(** X1. When a required setting is unset or empty, each script prints the
    list of missing settings and returns: no engine is created, no request
    is sent, nothing goes to the store. *)
Theorem missing_setting_stops_run (w : world) (fuel : nat) (s : state) :
  missing_vars w <> [] ->
  load_countries.main w fuel s =
    (Some (Ok tt),
     State (store s) (ops s)
           (trace s ++ [Print MsgStart; Print (MsgMissingEnv (missing_vars w))])) /\
  load_indicators.main w fuel s =
    (Some (Ok tt),
     State (store s) (ops s) (trace s ++ [Print (MsgMissingEnv (missing_vars w))])) /\
  load_values.main w fuel s =
    (Some (Ok tt),
     State (store s) (ops s) (trace s ++ [Print (MsgMissingEnv (missing_vars w))])).
Proof.
  intros H. repeat split; apply run_not_started; rewrite startup_missing by exact H;
    reflexivity.
Qed.

Lemma missing_setting_stops_run_witness :
  load_values.main (Samples.unconfigured Samples.values_api) 3 Samples.loaded =
    (Some (Ok tt),
     State (store Samples.loaded) 0 [Print (MsgMissingEnv ["DB_PASS"])]).
Proof.
  apply (missing_setting_stops_run (Samples.unconfigured Samples.values_api) 3 Samples.loaded).
  discriminate.
Defined.

Lemma startup_engine_error (w : world) (greeting : bool) (s : state) (e : exn) :
  missing_vars w = [] -> engine_error w = Some e ->
  startup w greeting s =
    (Some (Ok false),
     State (store s) (ops s)
           (trace s ++ (if greeting then [Print MsgStart] else []) ++
            [Print (MsgConnectError e)])).
Proof.
  intros Hvars Herr. unfold startup, connect. rewrite bool_decide_true by exact Hvars.
  rewrite Herr.
  destruct greeting; unfold try_except, lift, print, emit, mbind, M_bind, mret, M_ret; simpl.
  - rewrite <- app_assoc. reflexivity.
  - reflexivity.
Qed.

Lemma startup_probe_fails (w : world) (greeting : bool) (s : state) :
  missing_vars w = [] -> engine_error w = None -> sql_fault w (ops s) = true ->
  startup w greeting s =
    (Some (Ok false),
     State (store s) (S (ops s))
           (trace s ++ (if greeting then [Print MsgStart] else []) ++
            [CreateEngine; Sql SelectOne; Print (MsgConnectError DBAPIError)])).
Proof.
  intros Hvars Herr Hfault. unfold startup, connect, engine_connect.
  rewrite bool_decide_true by exact Hvars. rewrite Herr.
  destruct greeting;
    unfold try_except, execute, lift, print, emit, mbind, M_bind, mret, M_ret; simpl;
    rewrite Hfault; simpl.
  - rewrite <- !app_assoc. reflexivity.
  - rewrite <- !app_assoc. reflexivity.
Qed.

(** X2. When the settings are there but the engine cannot be created, or
    the [SELECT 1] probe fails, each script prints the connection error and
    returns: no request is sent and the store is not written. *)
Theorem connection_failure_stops_run (w : world) (fuel : nat) (s : state) :
  missing_vars w = [] ->
  (forall e, engine_error w = Some e ->
     load_countries.main w fuel s =
       (Some (Ok tt),
        State (store s) (ops s) (trace s ++ [Print MsgStart; Print (MsgConnectError e)])) /\
     load_indicators.main w fuel s =
       (Some (Ok tt), State (store s) (ops s) (trace s ++ [Print (MsgConnectError e)])) /\
     load_values.main w fuel s =
       (Some (Ok tt), State (store s) (ops s) (trace s ++ [Print (MsgConnectError e)]))) /\
  (engine_error w = None -> sql_fault w (ops s) = true ->
     load_countries.main w fuel s =
       (Some (Ok tt),
        State (store s) (S (ops s))
              (trace s ++ [Print MsgStart; CreateEngine; Sql SelectOne;
                           Print (MsgConnectError DBAPIError)])) /\
     load_indicators.main w fuel s =
       (Some (Ok tt),
        State (store s) (S (ops s))
              (trace s ++ [CreateEngine; Sql SelectOne; Print (MsgConnectError DBAPIError)])) /\
     load_values.main w fuel s =
       (Some (Ok tt),
        State (store s) (S (ops s))
              (trace s ++ [CreateEngine; Sql SelectOne; Print (MsgConnectError DBAPIError)]))).
Proof.
  intros Hvars. split.
  - intros e Herr. repeat split; apply run_not_started;
      rewrite (startup_engine_error w _ s e Hvars Herr); reflexivity.
  - intros Herr Hfault. repeat split; apply run_not_started;
      rewrite (startup_probe_fails w _ s Hvars Herr Hfault); reflexivity.
Qed.

Lemma connection_failure_stops_run_witness :
  load_indicators.main (Samples.flaky 0 Samples.countries_api) 3 Samples.loaded =
    (Some (Ok tt),
     State (store Samples.loaded) 1
           [CreateEngine; Sql SelectOne; Print (MsgConnectError DBAPIError)]).
Proof.
  apply (proj2 (connection_failure_stops_run
                  (Samples.flaky 0 Samples.countries_api) 3 Samples.loaded eq_refl));
    reflexivity.
Defined.

(** ** The collection handler *)

Lemma run_reports_fetch_error {row} (w : world) (greeting : bool) (collect : M (list row))
    (transform : list row -> M (list tuple)) (name : string) (create : M bool) :
  quiet collect ->
  reports_fetch_error w greeting collect (run w greeting collect transform name create).
Proof.
  intros Hq s s1 s2 e Hstart Hcol.
  destruct (quiet_elim _ _ _ _ (quiet_startup w greeting) Hstart) as (Hs1 & evs1 & Ht1 & Hw1).
  assert (Hq' : quiet (print MsgLoading ≫= fun _ => collect))
    by (apply quiet_bind; [apply quiet_print | intros _; exact Hq]).
  destruct (quiet_elim _ _ _ _ Hq' Hcol) as (Hs2 & evs2 & Ht2 & Hw2).
  rewrite M_bind_unfold in Hcol. simpl in Hcol.
  exists (evs1 ++ evs2 ++ [Print (MsgFetchError e)]),
         (State (store s2) (ops s2) (trace s2 ++ [Print (MsgFetchError e)])).
  split; [|split; [|split; [|split]]].
  - unfold run. rewrite M_bind_unfold, Hstart. rewrite M_bind_unfold. simpl.
    rewrite M_bind_unfold. unfold try_collect, try_except.
    rewrite M_bind_unfold, Hcol. reflexivity.
  - simpl. congruence.
  - simpl. rewrite Ht2, Ht1, <- !app_assoc. reflexivity.
  - repeat (apply Forall_app; split); try assumption. repeat constructor.
  - rewrite !app_assoc. apply last_snoc.
Qed.

(** X3. In each script, an exception raised anywhere in the collection loop
    (a failed request, a response of the wrong shape, a record the mapping
    rejects) is caught: [main] prints it and returns normally; the rows
    collected so far are dropped, the store is the one the run started with
    and no [DROP], [CREATE] or [INSERT] has been sent. *)
Theorem fetch_error_aborts_without_writes (w : world) (fuel : nat) :
  reports_fetch_error w true
    (collect w load_countries.url load_countries.map_country fuel)
    (load_countries.main w fuel) /\
  reports_fetch_error w false
    (collect w load_indicators.url load_indicators.map_indicator fuel)
    (load_indicators.main w fuel) /\
  reports_fetch_error w false
    (load_values.collect w fuel)
    (load_values.main w fuel).
Proof.
  split; [|split].
  - apply run_reports_fetch_error, quiet_collect.
  - apply run_reports_fetch_error, quiet_collect.
  - apply run_reports_fetch_error, quiet_values_collect.
Qed.

Lemma fetch_error_aborts_without_writes_witness :
  exists evs s',
    load_values.main (Samples.healthy Samples.incomplete_api) 1 Samples.loaded =
      (Some (Ok tt), s') /\
    store s' = store Samples.loaded /\
    trace s' = trace Samples.loaded ++ evs /\
    Forall (fun ev => writes ev = false) evs /\
    last evs = Some (Print (MsgFetchError (KeyError "country"))).
Proof.
  eapply (proj2 (proj2 (fetch_error_aborts_without_writes
                          (Samples.healthy Samples.incomplete_api) 1)) Samples.loaded).
  - reflexivity.
  - vm_compute. reflexivity.
Defined.

(** ** The load stage *)

(** The load of a frame with rows, by the first round trip that fails. *)
Lemma load_outcome (w : world) (name : string) (cols : list (string * string))
    (r : tuple) (rest : list tuple) (s : state) :
  let df := r :: rest in
  let n := ops s in
  let t := trace s in
  let replaced := <[name := Table cols []]> (delete name (store s)) in
  let inserted := <[name := Table cols (stored w cols <$> df)]> replaced in
  load w name (create_table w name cols) df s =
  if sql_fault w n then
    (Some (Ok tt),
     State (store s) (S n)
       (t ++ [Sql (DropTableIfExists name); Rollback; Print (MsgTableError DBAPIError);
              Dispose]))
  else if sql_fault w (S n) then
    (Some (Ok tt),
     State (store s) (S (S n))
       (t ++ [Sql (DropTableIfExists name); Sql (CreateTable name cols); Rollback;
              Print (MsgTableError DBAPIError); Dispose]))
  else if sql_fault w (S (S n)) then
    (Some (Ok tt),
     State (store s) (S (S (S n)))
       (t ++ [Sql (DropTableIfExists name); Sql (CreateTable name cols); Rollback;
              Print (MsgTableError DBAPIError); Dispose]))
  else if sql_fault w (S (S (S n))) then
    (Some (Ok tt),
     State replaced (S (S (S (S n))))
       (t ++ [Sql (DropTableIfExists name); Sql (CreateTable name cols); Commit;
              Print (MsgTableCreated name); Sql (InsertRows name df); Rollback;
              Print (MsgSaveError DBAPIError); Dispose]))
  else if sql_fault w (S (S (S (S n)))) then
    (Some (Ok tt),
     State replaced (S (S (S (S (S n)))))
       (t ++ [Sql (DropTableIfExists name); Sql (CreateTable name cols); Commit;
              Print (MsgTableCreated name); Sql (InsertRows name df); Rollback;
              Print (MsgSaveError DBAPIError); Dispose]))
  else if sql_fault w (S (S (S (S (S n))))) then
    (Some (Ok tt),
     State inserted (S (S (S (S (S (S n))))))
       (t ++ [Sql (DropTableIfExists name); Sql (CreateTable name cols); Commit;
              Print (MsgTableCreated name); Sql (InsertRows name df); Commit;
              Print (MsgSaved (length df)); Sql (SelectColumns name);
              Print (MsgSaveError DBAPIError); Dispose]))
  else if sql_fault w (S (S (S (S (S (S n)))))) then
    (Some (Ok tt),
     State inserted (S (S (S (S (S (S (S n)))))))
       (t ++ [Sql (DropTableIfExists name); Sql (CreateTable name cols); Commit;
              Print (MsgTableCreated name); Sql (InsertRows name df); Commit;
              Print (MsgSaved (length df)); Sql (SelectColumns name);
              Print (MsgStructure cols); Sql (SelectCount name);
              Print (MsgSaveError DBAPIError); Dispose]))
  else
    (Some (Ok tt),
     State inserted (S (S (S (S (S (S (S n)))))))
       (t ++ [Sql (DropTableIfExists name); Sql (CreateTable name cols); Commit;
              Print (MsgTableCreated name); Sql (InsertRows name df); Commit;
              Print (MsgSaved (length df)); Sql (SelectColumns name);
              Print (MsgStructure cols); Sql (SelectCount name);
              Print (MsgCount (length df)); Dispose])).
Proof.
  intros df n t replaced inserted. subst df n t replaced inserted.
  unfold load, try_finally, create_table, to_sql, verify, engine_connect, dispose,
    try_except, engine_begin, execute, print, emit, mbind, M_bind, mret, M_ret.
  simpl.
  destruct (sql_fault w (ops s)); simpl.
  { rewrite <- !app_assoc. reflexivity. }
  destruct (sql_fault w (S (ops s))); simpl.
  { rewrite <- !app_assoc. reflexivity. }
  rewrite lookup_delete_eq. simpl.
  destruct (sql_fault w (S (S (ops s)))); simpl.
  { rewrite <- !app_assoc. reflexivity. }
  destruct (sql_fault w (S (S (S (ops s))))); simpl.
  { rewrite <- !app_assoc. reflexivity. }
  rewrite lookup_insert_eq. simpl.
  destruct (sql_fault w (S (S (S (S (ops s)))))); simpl.
  { rewrite <- !app_assoc. reflexivity. }
  destruct (sql_fault w (S (S (S (S (S (ops s))))))); simpl.
  { rewrite <- !app_assoc. reflexivity. }
  rewrite lookup_insert_eq. simpl. rewrite length_fmap.
  destruct (sql_fault w (S (S (S (S (S (S (ops s)))))))); simpl.
  { rewrite <- !app_assoc. reflexivity. }
  rewrite <- !app_assoc. reflexivity.
Qed.

(** The load of a frame without rows: no insert is sent. *)
Lemma load_outcome_empty (w : world) (name : string) (cols : list (string * string))
    (s : state) :
  let n := ops s in
  let t := trace s in
  let replaced := <[name := Table cols []]> (delete name (store s)) in
  load w name (create_table w name cols) [] s =
  if sql_fault w n then
    (Some (Ok tt),
     State (store s) (S n)
       (t ++ [Sql (DropTableIfExists name); Rollback; Print (MsgTableError DBAPIError);
              Dispose]))
  else if sql_fault w (S n) then
    (Some (Ok tt),
     State (store s) (S (S n))
       (t ++ [Sql (DropTableIfExists name); Sql (CreateTable name cols); Rollback;
              Print (MsgTableError DBAPIError); Dispose]))
  else if sql_fault w (S (S n)) then
    (Some (Ok tt),
     State (store s) (S (S (S n)))
       (t ++ [Sql (DropTableIfExists name); Sql (CreateTable name cols); Rollback;
              Print (MsgTableError DBAPIError); Dispose]))
  else if sql_fault w (S (S (S n))) then
    (Some (Ok tt),
     State replaced (S (S (S (S n))))
       (t ++ [Sql (DropTableIfExists name); Sql (CreateTable name cols); Commit;
              Print (MsgTableCreated name); Print (MsgSaved 0); Sql (SelectColumns name);
              Print (MsgSaveError DBAPIError); Dispose]))
  else if sql_fault w (S (S (S (S n)))) then
    (Some (Ok tt),
     State replaced (S (S (S (S (S n)))))
       (t ++ [Sql (DropTableIfExists name); Sql (CreateTable name cols); Commit;
              Print (MsgTableCreated name); Print (MsgSaved 0); Sql (SelectColumns name);
              Print (MsgStructure cols); Sql (SelectCount name);
              Print (MsgSaveError DBAPIError); Dispose]))
  else
    (Some (Ok tt),
     State replaced (S (S (S (S (S n)))))
       (t ++ [Sql (DropTableIfExists name); Sql (CreateTable name cols); Commit;
              Print (MsgTableCreated name); Print (MsgSaved 0); Sql (SelectColumns name);
              Print (MsgStructure cols); Sql (SelectCount name);
              Print (MsgCount 0); Dispose])).
Proof.
  intros n t replaced. subst n t replaced.
  unfold load, try_finally, create_table, to_sql, verify, engine_connect, dispose,
    try_except, engine_begin, execute, print, emit, mbind, M_bind, mret, M_ret.
  simpl.
  destruct (sql_fault w (ops s)); simpl.
  { rewrite <- !app_assoc. reflexivity. }
  destruct (sql_fault w (S (ops s))); simpl.
  { rewrite <- !app_assoc. reflexivity. }
  rewrite lookup_delete_eq. simpl.
  destruct (sql_fault w (S (S (ops s)))); simpl.
  { rewrite <- !app_assoc. reflexivity. }
  destruct (sql_fault w (S (S (S (ops s))))); simpl.
  { rewrite <- !app_assoc. reflexivity. }
  rewrite lookup_insert_eq. simpl.
  destruct (sql_fault w (S (S (S (S (ops s)))))); simpl.
  { rewrite <- !app_assoc. reflexivity. }
  rewrite <- !app_assoc. reflexivity.
Qed.

Ltac load_cases df :=
  destruct df as [|? ?]; [rewrite load_outcome_empty | rewrite load_outcome]; cbv zeta;
  repeat match goal with |- context [if ?b then _ else _] => destruct b end.

Ltac ends_with_dispose :=
  cbn [trace]; rewrite ?app_comm_cons;
  match goal with |- last (?t ++ ?l) = _ =>
    change l with (removelast l ++ [Dispose]); rewrite app_assoc; apply last_snoc end.

(** X4. Once the load stage is entered it ends normally whatever the store
    does: every failure of the schema replacement, of the insert or of the
    verification is caught there, and the engine is disposed last. *)
Theorem load_never_raises_and_disposes (w : world) (name : string)
    (cols : list (string * string)) (df : list tuple) (s : state) :
  exists s',
    load w name (create_table w name cols) df s = (Some (Ok tt), s') /\
    last (trace s') = Some Dispose /\
    engine_disposed (trace s') = true.
Proof.
  unfold engine_disposed.
  load_cases df;
    (eexists; split; [reflexivity|]; split;
     [ ends_with_dispose
     | cbn [trace]; rewrite existsb_app; simpl; apply orb_true_r ]).
Qed.

Ltac no_fault H k :=
  let Hk := fresh "Hk" in
  assert (Hk := H k ltac:(lia)); simpl in Hk; rewrite Hk; clear Hk.

(** X5. When no round trip of the load stage fails, the destination table
    is replaced: whatever it held, it now has the declared columns and one
    row for each row of the frame, in order, in the form the store gives
    it.  A frame with rows takes seven round trips; for a frame without
    rows no insert is sent, and five are taken.  The count the script
    prints after the load is the number of rows of the frame. *)
Theorem successful_load_replaces_table (w : world) (name : string)
    (cols : list (string * string)) (df : list tuple) (s : state) :
  (forall k, (k < 7)%nat -> sql_fault w (k + ops s) = false) ->
  load w name (create_table w name cols) df s =
    (Some (Ok tt),
     State (<[name := Table cols (stored w cols <$> df)]> (store s))
       (match df with [] => 5 | _ :: _ => 7 end + ops s)
       (trace s ++
        [Sql (DropTableIfExists name); Sql (CreateTable name cols); Commit;
         Print (MsgTableCreated name)] ++
        match df with [] => [] | _ :: _ => [Sql (InsertRows name df); Commit] end ++
        [Print (MsgSaved (length df)); Sql (SelectColumns name);
         Print (MsgStructure cols); Sql (SelectCount name);
         Print (MsgCount (length df)); Dispose])).
Proof.
  intros H. destruct df as [|r rest].
  - rewrite load_outcome_empty. cbv zeta.
    no_fault H 0%nat. no_fault H 1%nat. no_fault H 2%nat. no_fault H 3%nat.
    no_fault H 4%nat. rewrite insert_delete_eq. reflexivity.
  - rewrite load_outcome. cbv zeta.
    no_fault H 0%nat. no_fault H 1%nat. no_fault H 2%nat. no_fault H 3%nat.
    no_fault H 4%nat. no_fault H 5%nat. no_fault H 6%nat.
    rewrite insert_insert_eq, insert_delete_eq. reflexivity.
Qed.

Lemma successful_load_replaces_table_witness :
  store (load (Samples.healthy Samples.countries_api) "worldbank_countries"
           (create_table (Samples.healthy Samples.countries_api) "worldbank_countries"
              load_countries.columns)
           [[JStr "DEU"]] Samples.loaded).2 =
  {[ "worldbank_countries" := Table load_countries.columns [[JStr "DEU"]] ]}.
Proof.
  rewrite (successful_load_replaces_table (Samples.healthy Samples.countries_api)).
  - reflexivity.
  - intros k _. reflexivity.
Defined.

(** X6. When the schema replacement commits and the insert, or the commit
    of the insert, fails, the table is left existing and empty (the rows it
    held before the run are gone, none of the new rows is there); the error
    is printed and the engine disposed.  The frame has rows: for a frame
    without rows no insert is sent. *)
Theorem failed_insert_leaves_empty_table (w : world) (name : string)
    (cols : list (string * string)) (df : list tuple) (s : state) :
  df <> [] ->
  (forall k, (k < 3)%nat -> sql_fault w (k + ops s) = false) ->
  sql_fault w (3 + ops s) = true \/ sql_fault w (4 + ops s) = true ->
  exists n,
    load w name (create_table w name cols) df s =
      (Some (Ok tt),
       State (<[name := Table cols []]> (store s)) n
         (trace s ++
          [Sql (DropTableIfExists name); Sql (CreateTable name cols); Commit;
           Print (MsgTableCreated name); Sql (InsertRows name df); Rollback;
           Print (MsgSaveError DBAPIError); Dispose])).
Proof.
  intros Hrows H Hfail. destruct df as [|r rest]; [congruence|].
  rewrite load_outcome. cbv zeta.
  no_fault H 0%nat. no_fault H 1%nat. no_fault H 2%nat. rewrite insert_delete_eq.
  simpl in Hfail. destruct (sql_fault w (S (S (S (ops s))))).
  - eexists. reflexivity.
  - destruct Hfail as [Hfail | Hfail]; [discriminate|]. rewrite Hfail.
    eexists. reflexivity.
Qed.

Lemma failed_insert_leaves_empty_table_witness :
  exists n t,
    load (Samples.flaky 3 Samples.countries_api) "worldbank_countries"
         (create_table (Samples.flaky 3 Samples.countries_api) "worldbank_countries"
            load_countries.columns)
         [[JStr "DEU"]] Samples.loaded =
    (Some (Ok tt),
     State {[ "worldbank_countries" := Table load_countries.columns [] ]} n t).
Proof.
  destruct (failed_insert_leaves_empty_table (Samples.flaky 3 Samples.countries_api)
              "worldbank_countries" load_countries.columns [[JStr "DEU"]] Samples.loaded)
    as [n Hload].
  - discriminate.
  - intros k Hk. apply bool_decide_eq_false. simpl. lia.
  - left. reflexivity.
  - exists n. eexists. rewrite Hload. reflexivity.
Defined.

(** X7. When the schema replacement fails (on the drop, on the create or on
    the commit), [create_table] prints the error and returns [False]; the
    load stage then sends no insert and runs no verification.  All it sends
    is the drop and, unless the drop failed, the create; the transaction is
    rolled back, the store is as it was and the engine is disposed. *)
Theorem failed_replacement_sends_no_insert (w : world) (name : string)
    (cols : list (string * string)) (df : list tuple) (s : state) :
  sql_fault w (ops s) = true \/ sql_fault w (1 + ops s) = true \/
  sql_fault w (2 + ops s) = true ->
  exists n sent,
    (sent = [] \/ sent = [Sql (CreateTable name cols)]) /\
    create_table w name cols s =
      (Some (Ok false),
       State (store s) n
         (trace s ++ Sql (DropTableIfExists name) :: sent ++
          [Rollback; Print (MsgTableError DBAPIError)])) /\
    load w name (create_table w name cols) df s =
      (Some (Ok tt),
       State (store s) n
         (trace s ++ Sql (DropTableIfExists name) :: sent ++
          [Rollback; Print (MsgTableError DBAPIError); Dispose])).
Proof.
  intros Hfail.
  assert (Hcreate : exists n sent,
            (sent = [] \/ sent = [Sql (CreateTable name cols)]) /\
            create_table w name cols s =
              (Some (Ok false),
               State (store s) n
                 (trace s ++ Sql (DropTableIfExists name) :: sent ++
                  [Rollback; Print (MsgTableError DBAPIError)]))).
  { unfold create_table, try_except, engine_begin, execute, print, emit, mbind, M_bind,
      mret, M_ret. simpl in Hfail |- *.
    destruct (sql_fault w (ops s)); simpl.
    { exists (S (ops s)), []. split; [left; reflexivity|].
      rewrite <- !app_assoc. reflexivity. }
    destruct (sql_fault w (S (ops s))); simpl.
    { exists (S (S (ops s))), [Sql (CreateTable name cols)]. split; [right; reflexivity|].
      rewrite <- !app_assoc. reflexivity. }
    rewrite lookup_delete_eq. simpl.
    destruct (sql_fault w (S (S (ops s)))); simpl.
    { exists (S (S (S (ops s)))), [Sql (CreateTable name cols)].
      split; [right; reflexivity|]. rewrite <- !app_assoc. reflexivity. }
    destruct Hfail as [? | [? | ?]]; discriminate. }
  destruct Hcreate as (n & sent & Hsent & Hcreate).
  exists n, sent. split; [exact Hsent|]. split; [exact Hcreate|].
  unfold load, try_finally, try_except, dispose, emit. rewrite M_bind_unfold, Hcreate.
  simpl. rewrite <- !app_assoc. simpl. rewrite <- !app_assoc. reflexivity.
Qed.

Lemma failed_replacement_sends_no_insert_witness :
  load (Samples.flaky 1 Samples.countries_api) "worldbank_countries"
       (create_table (Samples.flaky 1 Samples.countries_api) "worldbank_countries"
          load_countries.columns)
       [[JStr "DEU"]] Samples.loaded =
  (Some (Ok tt),
   State (store Samples.loaded) 2
     [Sql (DropTableIfExists "worldbank_countries");
      Sql (CreateTable "worldbank_countries" load_countries.columns);
      Rollback; Print (MsgTableError DBAPIError); Dispose]).
Proof.
  destruct (failed_replacement_sends_no_insert (Samples.flaky 1 Samples.countries_api)
              "worldbank_countries" load_countries.columns [[JStr "DEU"]] Samples.loaded)
    as (n & sent & _ & _ & Hload).
  - right. left. reflexivity.
  - reflexivity.
Defined.

(** X8. A failure of the verification queries does not undo the load: the
    insert has been committed and the table keeps the rows just inserted;
    the error is printed and the engine disposed.  The count is not
    printed, and the column list is printed only when it is the count query
    that failed. *)
Theorem failed_verification_keeps_rows (w : world) (name : string)
    (cols : list (string * string)) (df : list tuple) (s : state) :
  df <> [] ->
  (forall k, (k < 5)%nat -> sql_fault w (k + ops s) = false) ->
  sql_fault w (5 + ops s) = true \/ sql_fault w (6 + ops s) = true ->
  exists n checked,
    (checked = [] \/ checked = [Print (MsgStructure cols); Sql (SelectCount name)]) /\
    load w name (create_table w name cols) df s =
      (Some (Ok tt),
       State (<[name := Table cols (stored w cols <$> df)]> (store s)) n
         (trace s ++
          [Sql (DropTableIfExists name); Sql (CreateTable name cols); Commit;
           Print (MsgTableCreated name); Sql (InsertRows name df); Commit;
           Print (MsgSaved (length df)); Sql (SelectColumns name)] ++
          checked ++ [Print (MsgSaveError DBAPIError); Dispose])).
Proof.
  intros Hrows H Hfail. destruct df as [|r rest]; [congruence|].
  rewrite load_outcome. cbv zeta. simpl in Hfail.
  no_fault H 0%nat. no_fault H 1%nat. no_fault H 2%nat. no_fault H 3%nat.
  no_fault H 4%nat.
  rewrite insert_insert_eq, insert_delete_eq.
  destruct (sql_fault w (S (S (S (S (S (ops s))))))).
  - exists (6 + ops s)%nat, []. split; [left; reflexivity | reflexivity].
  - destruct Hfail as [Hfail | Hfail]; [discriminate|]. rewrite Hfail.
    exists (7 + ops s)%nat, [Print (MsgStructure cols); Sql (SelectCount name)].
    split; [right; reflexivity | reflexivity].
Qed.

Lemma failed_verification_keeps_rows_witness :
  exists n t,
    load (Samples.flaky 6 Samples.countries_api) "worldbank_countries"
         (create_table (Samples.flaky 6 Samples.countries_api) "worldbank_countries"
            load_countries.columns)
         [[JStr "DEU"]] Samples.loaded =
    (Some (Ok tt),
     State {[ "worldbank_countries" := Table load_countries.columns [[JStr "DEU"]] ]} n t).
Proof.
  destruct (failed_verification_keeps_rows (Samples.flaky 6 Samples.countries_api)
              "worldbank_countries" load_countries.columns [[JStr "DEU"]] Samples.loaded)
    as (n & checked & _ & Hload).
  - discriminate.
  - intros k Hk. apply bool_decide_eq_false. simpl. lia.
  - right. reflexivity.
  - exists n. eexists. rewrite Hload. reflexivity.
Defined.

(** ** From the collection to the table *)

Lemma load_all_succeed (w : world) (name : string) (cols : list (string * string))
    (df : list tuple) (s : state) :
  (forall n, sql_fault w n = false) ->
  exists s',
    load w name (create_table w name cols) df s = (Some (Ok tt), s') /\
    store s' = <[name := Table cols (stored w cols <$> df)]> (store s) /\
    last (trace s') = Some Dispose.
Proof.
  intros Hfaults. destruct df as [|r rest].
  - rewrite load_outcome_empty. cbv zeta. rewrite !Hfaults.
    eexists. split; [reflexivity|]. split; [apply insert_delete_eq | ends_with_dispose].
  - rewrite load_outcome. cbv zeta. rewrite !Hfaults.
    eexists. split; [reflexivity|]. split; [|ends_with_dispose].
    cbn [store]. rewrite insert_insert_eq, insert_delete_eq. reflexivity.
Qed.

Lemma run_loads_collected {row} (w : world) (greeting : bool) (collect : M (list row))
    (transform : list row -> M (list tuple)) (transformed : list row -> list tuple -> Prop)
    (name : string) (cols : list (string * string)) :
  quiet collect ->
  (forall all df s, transformed all df ->
     exists evs, transform all s = (Some (Ok df), State (store s) (ops s) (trace s ++ evs))) ->
  loads_collected w greeting collect transformed name cols
    (run w greeting collect transform name (create_table w name cols)).
Proof.
  intros Hq Htransform s s1 s2 all df Hfaults Hstart Hcol Hne Hdf.
  destruct (quiet_elim _ _ _ _ (quiet_startup w greeting) Hstart) as (Hs1 & _).
  assert (Hq' : quiet (print MsgLoading ≫= fun _ => collect))
    by (apply quiet_bind; [apply quiet_print | intros _; exact Hq]).
  destruct (quiet_elim _ _ _ _ Hq' Hcol) as (Hs2 & _).
  rewrite M_bind_unfold in Hcol. simpl in Hcol.
  destruct (Htransform all df s2 Hdf) as [evs Htr].
  unfold run. rewrite M_bind_unfold, Hstart. rewrite M_bind_unfold. simpl.
  rewrite M_bind_unfold. unfold try_collect, try_except.
  rewrite M_bind_unfold, Hcol. simpl.
  destruct all as [|r all]; [congruence|].
  rewrite M_bind_unfold, Htr. rewrite M_bind_unfold. simpl.
  match goal with |- context [load w name _ df ?s0] =>
    destruct (load_all_succeed w name cols df s0 Hfaults) as (s' & Hload & Hstore & Hlast)
  end.
  exists s'. split; [exact Hload|]. split; [|exact Hlast].
  rewrite Hstore. simpl. congruence.
Qed.

(** X9. In a run where the engine comes up, the collection returns rows
    and no round trip to the store fails, each script leaves its table
    holding the transformed rows, one for one and in order, in the form the
    store gives them, whatever the table held before: the filtered and
    coerced entities, the de-duplicated metrics, the observations with
    integer years. *)
Theorem pipeline_loads_transformed_rows (w : world) (fuel : nat) :
  loads_collected w true
    (collect w load_countries.url load_countries.map_country fuel)
    (fun all df => df = load_countries.to_tuple <$> load_countries.clean w all)
    "worldbank_countries" load_countries.columns
    (load_countries.main w fuel) /\
  loads_collected w false
    (collect w load_indicators.url load_indicators.map_indicator fuel)
    (fun all df => df = load_indicators.to_tuple <$> load_indicators.deduplicate w all)
    "worldbank_indicators" load_indicators.columns
    (load_indicators.main w fuel) /\
  loads_collected w false
    (load_values.collect w fuel)
    (fun all df => exists df', load_values.convert_years w all = Ok df' /\
                               df = load_values.to_tuple <$> df')
    "worldbank_values" load_values.columns
    (load_values.main w fuel).
Proof.
  split; [|split].
  - apply run_loads_collected; [apply quiet_collect|].
    intros all df s ->. eexists.
    unfold load_countries.transform, print, emit, mbind, M_bind, mret, M_ret. simpl.
    rewrite <- !app_assoc. reflexivity.
  - apply run_loads_collected; [apply quiet_collect|].
    intros all df s ->. eexists.
    unfold load_indicators.transform, print, emit, mbind, M_bind, mret, M_ret. simpl.
    rewrite <- !app_assoc. reflexivity.
  - apply run_loads_collected; [apply quiet_values_collect|].
    intros all df s (df' & Hdf' & ->). eexists.
    unfold load_values.transform, lift, print, emit, mbind, M_bind, mret, M_ret. simpl.
    rewrite Hdf'. simpl. reflexivity.
Qed.

Lemma pipeline_loads_transformed_rows_witness :
  exists s',
    load_countries.main (Samples.healthy Samples.single_page_api) 1 Samples.loaded =
      (Some (Ok tt), s') /\
    store s' =
      <["worldbank_countries" :=
          Table load_countries.columns
            [[JStr "FRA"; JNull; JStr "France"; JStr "ECS"; JStr "Europe & Central Asia";
              JNull; JNull; JNull; JNull; JNum (488566 # 10000)]]]> (store Samples.loaded) /\
    last (trace s') = Some Dispose.
Proof.
  eapply (proj1 (pipeline_loads_transformed_rows
                   (Samples.healthy Samples.single_page_api) 1) Samples.loaded _ _ _
            [[JStr "FRA"; JNull; JStr "France"; JStr "ECS"; JStr "Europe & Central Asia";
              JNull; JNull; JNull; JNull; JNum (488566 # 10000)]]).
  - intros n. reflexivity.
  - vm_compute. reflexivity.
  - vm_compute. reflexivity.
  - discriminate.
  - reflexivity.
Defined.

(** ** The record mappings, field by field *)

(** X10. [get_topic_field] raises only when the indicator is not an
    object.  On an object it returns the requested field of the first
    element of [topics] when [topics] is a non-empty list whose first
    element is an object, null when that element lacks the field, and null
    when [topics] is absent, not a list, empty, or starts with something
    else; later topics are never looked at. *)
Theorem get_topic_field_reads_first_topic (indicator : json) (field : string) :
  load_indicators.get_topic_field indicator field =
  match indicator with
  | JObj m =>
      Ok match m !! "topics" with
         | Some (JArr (JObj first :: _)) => default JNull (first !! field)
         | _ => JNull
         end
  | _ => Raise AttributeError
  end.
Proof.
  destruct indicator as [| | | | |m]; try reflexivity.
  unfold load_indicators.get_topic_field. simpl.
  destruct (m !! "topics") as [[| | | |[|[| | | | |first] topics]|]|]; reflexivity.
Qed.

(** X11. The entity mapping succeeds exactly on an object whose [region]
    and [incomeLevel] entries are each absent or an object; it then copies
    the top-level fields, null for the absent ones, and takes the region and
    income-level codes and names from the sub-objects, null when the
    sub-object or the field is absent. *)
Theorem map_country_succeeds_iff (country : json) :
  (is_ok (load_countries.map_country country) = true <->
   exists m, country = JObj m /\
     match m !! "region" with Some v => Py.is_dict v = true | None => True end /\
     match m !! "incomeLevel" with Some v => Py.is_dict v = true | None => True end) /\
  (forall m r, load_countries.map_country (JObj m) = Ok r ->
     let sub k f := match m !! k with
                    | Some (JObj o) => default JNull (o !! f)
                    | _ => JNull
                    end in
     r = load_countries.Row
           (default JNull (m !! "id")) (default JNull (m !! "iso2Code"))
           (default JNull (m !! "name"))
           (sub "region" "id") (sub "region" "value")
           (sub "incomeLevel" "id") (sub "incomeLevel" "value")
           (default JNull (m !! "capitalCity"))
           (default JNull (m !! "longitude")) (default JNull (m !! "latitude"))).
Proof.
  split.
  - split.
    + destruct country as [| | | | |m]; try discriminate. intros H. exists m.
      split; [reflexivity|]. unfold load_countries.map_country in H. simpl in H.
      destruct (m !! "region") as [[| | | | |o]|]; simpl in H; try discriminate;
        (destruct (m !! "incomeLevel") as [[| | | | |o']|]; simpl in H; try discriminate;
         split; exact I || reflexivity).
    + intros (m & -> & Hregion & Hincome).
      unfold load_countries.map_country. simpl.
      destruct (m !! "region") as [[| | | | |o]|]; try discriminate;
        destruct (m !! "incomeLevel") as [[| | | | |o']|]; try discriminate; reflexivity.
  - intros m r. unfold load_countries.map_country. simpl.
    destruct (m !! "region") as [[| | | | |o]|]; simpl; try discriminate;
      (destruct (m !! "incomeLevel") as [[| | | | |o']|]; simpl; try discriminate;
       intros [= <-]; reflexivity).
Qed.

Lemma map_country_succeeds_iff_witness :
  is_ok (load_countries.map_country Samples.fra) = true /\
  is_ok (load_countries.map_country Samples.null_region) = false.
Proof.
  split; [|reflexivity].
  apply (proj1 (map_country_succeeds_iff Samples.fra)).
  eexists. split; [reflexivity|]. split; reflexivity.
Defined.

(** X12. The metric mapping succeeds exactly on an object whose [source]
    entry is absent or an object; the shape of [topics] never makes it
    fail. *)
Theorem map_indicator_succeeds_iff (indicator : json) :
  is_ok (load_indicators.map_indicator indicator) = true <->
  exists m, indicator = JObj m /\
    match m !! "source" with Some v => Py.is_dict v = true | None => True end.
Proof.
  split.
  - destruct indicator as [| | | | |m]; try discriminate. intros H. exists m.
    split; [reflexivity|]. unfold load_indicators.map_indicator in H. simpl in H.
    destruct (m !! "source") as [[| | | | |o]|]; simpl in H; try discriminate;
      exact I || reflexivity.
  - intros (m & -> & Hsource). unfold load_indicators.map_indicator.
    destruct (get_topic_field_total m "id") as [tid ->].
    destruct (get_topic_field_total m "value") as [tv ->]. simpl.
    destruct (m !! "source") as [[| | | | |o]|]; try discriminate; reflexivity.
Qed.

(** ** The observation mapping *)

Lemma map_value_Some_intro (item : json) (r : load_values.row) :
  row_of_item item r -> load_values.value r <> JNull ->
  load_values.map_value item = Ok (Some r).
Proof.
  intros (H1 & H2 & H3 & H4 & H5 & H6) Hv. destruct r as [f1 f2 f3 f4 f5 f6].
  simpl in *. destruct item as [| | | | |m]; try discriminate.
  unfold load_values.map_value. simpl in *.
  destruct (m !! "value") as [v|]; [|discriminate]. injection H6 as ->.
  destruct f6; try congruence; simpl;
    (destruct (m !! "countryiso3code") as [c1|]; [|discriminate]; injection H1 as ->;
     destruct (m !! "country") as [c|]; [|discriminate]; simpl in H2 |- *;
     rewrite H2; simpl;
     destruct (m !! "indicator") as [i|]; [|discriminate]; simpl in H3, H4 |- *;
     rewrite H3, H4; simpl;
     destruct (m !! "date") as [d|]; [|discriminate]; injection H5 as ->;
     reflexivity).
Qed.

(** X13. An observation record whose [value] is null or absent is skipped
    without any other field being read: it cannot raise, whatever else it
    lacks.  Conversely only such objects are skipped. *)
Theorem valueless_record_is_skipped (item : json) :
  load_values.map_value item = Ok None <->
  exists m, item = JObj m /\ default JNull (m !! "value") = JNull.
Proof.
  split.
  - intros H. pose proof (map_value_None item H) as Hret.
    unfold load_values.map_value in H. destruct item as [| | | | |m]; try discriminate.
    exists m. split; [reflexivity|]. unfold retained in Hret. simpl in Hret.
    destruct (default JNull (m !! "value")); try discriminate; reflexivity.
  - intros (m & -> & Hv). unfold load_values.map_value. simpl. rewrite Hv. reflexivity.
Qed.

(** X14. An observation record yields the row [r] exactly when its value is
    not null and [countryiso3code], [country.value], [indicator.id],
    [indicator.value] and [date] can all be read; the six cells of [r] are
    those entries, unchanged. *)
Theorem map_value_yields_row_iff (item : json) (r : load_values.row) :
  load_values.map_value item = Ok (Some r) <->
  row_of_item item r /\ load_values.value r <> JNull.
Proof.
  split.
  - intros H. apply map_value_Some in H. tauto.
  - intros [Hrow Hv]. apply map_value_Some_intro; assumption.
Qed.

(** ** The transformations applied twice *)

Lemma keep_first_distinct {A K} `{EqDecision K} (by_key : A -> K) (seen : list K)
    (df : list A) :
  NoDup (by_key <$> df) -> (forall r, r ∈ df -> by_key r ∉ seen) ->
  Pandas.keep_first by_key seen df = df.
Proof.
  revert seen. induction df as [|r df IH]; intros seen Hnd Hseen; simpl; [reflexivity|].
  rewrite fmap_cons in Hnd. apply NoDup_cons in Hnd as [Hr Hnd].
  rewrite decide_False by (apply Hseen, list_elem_of_here). f_equal.
  apply IH; [exact Hnd|]. intros r' Hr'. rewrite not_elem_of_cons. split.
  - intros Heq. apply Hr. rewrite <- Heq. apply list_elem_of_fmap_2, Hr'.
  - apply Hseen, list_elem_of_further, Hr'.
Qed.

Lemma keep_first_ext {A K} `{EqDecision K} (f g : A -> K) (seen : list K) (df : list A) :
  (forall r, r ∈ df -> f r = g r) ->
  Pandas.keep_first f seen df = Pandas.keep_first g seen df.
Proof.
  revert seen. induction df as [|r df IH]; intros seen Hext; simpl; [reflexivity|].
  rewrite <- (Hext r) by apply list_elem_of_here.
  destruct (decide (f r ∈ seen)).
  - apply IH. intros r' Hr'. apply Hext, list_elem_of_further, Hr'.
  - f_equal. apply IH. intros r' Hr'. apply Hext, list_elem_of_further, Hr'.
Qed.

Lemma metric_key_string (w : world) (df1 df2 : list load_indicators.row)
    (r : load_indicators.row) :
  (exists s, load_indicators.indicator_id r = JStr s) ->
  metric_key w df1 r = metric_key w df2 r.
Proof. intros [s Hs]. unfold metric_key. rewrite Hs. reflexivity. Qed.

(** X15. De-duplication never returns more rows than it got.  On a frame
    whose identifiers are strings, as the API gives them, it is idempotent
    and it returns a frame whose identifiers are already distinct
    unchanged. *)
Theorem deduplicate_idempotent (w : world) (df : list load_indicators.row) :
  (length (load_indicators.deduplicate w df) <= length df)%nat /\
  (Forall (fun r => exists s, load_indicators.indicator_id r = JStr s) df ->
   load_indicators.deduplicate w (load_indicators.deduplicate w df) =
     load_indicators.deduplicate w df /\
   (NoDup (load_indicators.indicator_id <$> df) -> load_indicators.deduplicate w df = df)).
Proof.
  unfold load_indicators.deduplicate, Pandas.drop_duplicates.
  change (fun r => Pandas.key_of (factorize w) (load_indicators.indicator_id <$> df)
                     (load_indicators.indicator_id r)) with (metric_key w df).
  pose proof (keep_first_sublist (metric_key w df) [] df) as Hsub.
  split; [apply sublist_length, Hsub|]. intros Hstrings. split.
  - set (out := Pandas.keep_first (metric_key w df) [] df) in *.
    change (fun r => Pandas.key_of (factorize w) (load_indicators.indicator_id <$> out)
                       (load_indicators.indicator_id r)) with (metric_key w out).
    rewrite (keep_first_ext (metric_key w out) (metric_key w df)).
    + apply keep_first_distinct; [apply keep_first_NoDup|].
      intros r _. apply not_elem_of_nil.
    + intros r Hr. apply metric_key_string.
      rewrite Forall_forall in Hstrings. apply Hstrings.
      eapply elem_of_sublist; [exact Hr | exact Hsub].
  - intros Hnd. apply keep_first_distinct; [|intros r _; apply not_elem_of_nil].
    change (metric_key w df)
      with (Pandas.key_of (factorize w) (load_indicators.indicator_id <$> df) ∘
            load_indicators.indicator_id).
    rewrite (list_fmap_compose load_indicators.indicator_id
               (Pandas.key_of (factorize w) (load_indicators.indicator_id <$> df))).
    apply NoDup_fmap_2_strong; [|exact Hnd].
    intros v1 v2 Hv1 Hv2 Hk. apply list_elem_of_fmap in Hv1 as (r1 & -> & Hr1).
    rewrite Forall_forall in Hstrings. destruct (Hstrings r1 Hr1) as [s1 Hs1].
    rewrite Hs1 in Hk |- *. symmetry. eapply key_of_string. symmetry. exact Hk.
Qed.

Lemma deduplicate_idempotent_witness :
  let w := Samples.healthy Samples.countries_api in
  let a := load_indicators.Row (JStr "A") (JStr "first") JNull JNull JNull JNull JNull JNull in
  let b := load_indicators.Row (JStr "A") (JStr "second") JNull JNull JNull JNull JNull JNull in
  load_indicators.deduplicate w [a; b] = [a] /\
  load_indicators.deduplicate w (load_indicators.deduplicate w [a; b]) =
    load_indicators.deduplicate w [a; b].
Proof.
  intros w a b. split; [reflexivity|].
  apply (proj2 (deduplicate_idempotent w [a; b])).
  repeat constructor; eexists; reflexivity.
Defined.











Lemma int64_of_in_range (v : json) (y : Z) :
  Pandas.int64_of v = Some (Ok y) -> - 2 ^ 63 <= y < 2 ^ 63.
Proof.
  destruct v as [| |q|s| |]; cbn [Pandas.int64_of]; try discriminate.
  - case_bool_decide as Hq; [|discriminate]. intros [= <-]. lia.
  - destruct (Python.int_of_string s) as [z|]; [|discriminate].
    unfold Pandas.int64_range. case_bool_decide; [|discriminate].
    intros [= <-]. assumption.
Qed.

Lemma wrap64_in_range (z : Z) : - 2 ^ 63 <= Pandas.wrap64 z < 2 ^ 63.
Proof.
  unfold Pandas.wrap64. pose proof (Z.mod_pos_bound (z + 2 ^ 63) (2 ^ 64) eq_refl). lia.
Qed.

Lemma astype_int64_in_range (cast : list json -> nat -> result Z) (column : list json)
    (years : list Z) :
  Pandas.astype_int64 cast column = Ok years ->
  Forall (fun y => - 2 ^ 63 <= y < 2 ^ 63) years.
Proof.
  unfold Pandas.astype_int64.
  destruct (mapM Pandas.int64_of column) as [cells|] eqn:Hcells.
  - intros H. apply mapM_Ok in H. apply mapM_Some in Hcells.
    revert years H. induction Hcells as [|v c column cells Hv _ IH]; intros years H.
    + inversion H. constructor.
    + inversion H as [|? y ? years' Hy Hrest]; subst. unfold id in Hy. subst c.
      constructor; [eapply int64_of_in_range, Hv | apply IH, Hrest].
  - intros H. apply mapM_Ok in H.
    induction H as [|i y l years Hy _ IH]; constructor; [|exact IH].
    destruct (cast column i) as [z|e]; [|discriminate]. injection Hy as <-.
    apply wrap64_in_range.
Qed.

Lemma set_year_twice (df : list load_values.row) (years : list Z) :
  length years = length df ->
  zip_with load_values.set_year (zip_with load_values.set_year df years) years =
  zip_with load_values.set_year df years.
Proof.
  revert years. induction df as [|r df IH]; intros [|y years]; cbn [length];
    try discriminate; [reflexivity|].
  intros [= Hlen]. cbn [zip_with]. rewrite IH by exact Hlen. reflexivity.
Qed.

(** X17. When the year conversion succeeds it keeps the number of rows,
    and every year it returns is an integer that fits 64 bits.  It is
    idempotent: converting its own output changes nothing (for years of
    magnitude up to 2^53, which every representation of the column holds
    exactly). *)
Theorem convert_years_idempotent (w : world) (df df' : list load_values.row) :
  load_values.convert_years w df = Ok df' ->
  length df' = length df /\
  Forall (fun r' => exists y, load_values.year r' = JNum (inject_Z y) /\
                              - 2 ^ 63 <= y < 2 ^ 63) df' /\
  (Forall (fun r' => exists y, load_values.year r' = JNum (inject_Z y) /\
                               - 2 ^ 53 <= y <= 2 ^ 53) df' ->
   load_values.convert_years w df' = Ok df').
Proof.
  rewrite convert_years_Ok. intros (years & H & ->).
  pose proof (astype_int64_length _ _ _ H) as Hlen. rewrite length_fmap in Hlen.
  pose proof (astype_int64_in_range _ _ _ H) as Hrange.
  assert (Hcells : Forall2 (fun r' y => load_values.year r' = JNum (inject_Z y) /\
                                        - 2 ^ 63 <= y < 2 ^ 63)
                           (zip_with load_values.set_year df years) years).
  { clear H. revert years Hlen Hrange.
    induction df as [|r df IH]; intros [|y years]; cbn [length]; try discriminate.
    - constructor.
    - intros [= Hlen] Hrange. inversion Hrange; subst. cbn [zip_with].
      constructor; [split; [reflexivity | assumption] | apply IH; assumption]. }
  split; [|split].
  - rewrite length_zip_with_l_eq; [reflexivity | symmetry; exact Hlen].
  - clear -Hcells. induction Hcells as [|r' y df' years [Hy Hr] _ IH]; constructor; eauto.
  - intros Hsmall.
    apply convert_years_Ok. exists years. split; [|symmetry; apply set_year_twice, Hlen].
    apply astype_int64_cells, Forall2_fmap_l.
    clear -Hcells Hsmall.
    induction Hcells as [|r' y df' years [Hy _] _ IH]; constructor.
    + inversion Hsmall as [|? ? (y' & Hy' & Hr') _]; subst. unfold compose.
      rewrite Hy. apply int64_of_integer. rewrite Hy in Hy'.
      injection Hy' as Hy'. congruence.
    + apply IH. inversion Hsmall; assumption.
Qed.

Lemma convert_years_idempotent_witness :
  let w := Samples.healthy Samples.values_api in
  let r := load_values.Row (JStr "FRA") (JStr "France") (JStr "SP.POP.TOTL")
                           (JStr "Population, total") (JStr "2020") (JNum 67) in
  load_values.convert_years w [load_values.set_year r 2020] =
    Ok [load_values.set_year r 2020].
Proof.
  intros w r.
  apply (convert_years_idempotent w [r] [load_values.set_year r 2020]);
    [reflexivity|].
  constructor; [|constructor]. exists 2020. split; [reflexivity|].
  split; [apply Z.leb_le | apply Z.leb_le]; vm_compute; reflexivity.
Defined.

(** ** The requests of a collector, whatever the API answers *)

Lemma request_free_intro {A} (m : M A) :
  (forall s r s', m s = (r, s') -> requests (trace s') = requests (trace s)) ->
  request_free m.
Proof. intros H s. destruct (m s) as [r s'] eqn:E. simpl. eapply H, E. Qed.

Lemma request_free_ret {A} (a : A) : request_free (mret a : M A).
Proof. intros s. reflexivity. Qed.

Lemma request_free_lift {A} (r : result A) : request_free (lift r).
Proof. intros s. reflexivity. Qed.

Lemma request_free_print (m : message) : request_free (print m).
Proof. intros s. simpl. rewrite requests_app. simpl. apply app_nil_r. Qed.

Lemma request_free_sleep : request_free (emit Sleep).
Proof. intros s. simpl. rewrite requests_app. simpl. apply app_nil_r. Qed.

Lemma request_free_bind {A B} (m : M A) (f : A -> M B) :
  request_free m -> (forall a, request_free (f a)) -> request_free (m ≫= f).
Proof.
  intros Hm Hf s. rewrite M_bind_unfold. specialize (Hm s).
  destruct (m s) as [[[a|e]|] s1]; simpl in *; [|exact Hm|exact Hm].
  rewrite <- Hm. apply Hf.
Qed.

Ltac request_free_steps :=
  repeat first
    [ apply request_free_bind; [|intros ?]
    | apply request_free_ret | apply request_free_lift | apply request_free_print
    | apply request_free_sleep
    | match goal with |- request_free (if ?b then _ else _) => destruct b end ].

Lemma http_get_then {A} (w : world) (url : string) (page : Z) (k : json -> M A) (s : state) :
  (forall data, request_free (k data)) ->
  requests (trace ((http_get w url page ≫= k) s).2) = requests (trace s) ++ [(url, page)].
Proof.
  intros Hk. unfold http_get. rewrite !M_bind_unfold. simpl.
  destruct (api w url page) as [data|e]; simpl.
  - rewrite (Hk data). simpl. rewrite requests_app. reflexivity.
  - rewrite requests_app. reflexivity.
Qed.

Lemma page_body_requests_once {row} (w : world) (url : string) (f : json -> result row)
    (page : Z) (all : list row) (s : state) :
  requests (trace (page_body w url f page all s).2) = requests (trace s) ++ [(url, page)].
Proof.
  unfold page_body. rewrite M_bind_unfold. simpl.
  rewrite http_get_then.
  - simpl. rewrite requests_app. simpl. rewrite app_nil_r. reflexivity.
  - intros data. request_free_steps.
Qed.

Lemma values_page_body_requests_once (w : world) (code : string) (page : Z)
    (all : list load_values.row) (s : state) :
  requests (trace (load_values.page_body w code page all s).2) =
  requests (trace s) ++ [(load_values.indicator_url code, page)].
Proof.
  unfold load_values.page_body. apply http_get_then.
  intros data. request_free_steps.
Qed.

Lemma while_true_requests {R} (body : Z -> R -> M (R * bool)) (url : string) :
  (forall page acc s,
     requests (trace (body page acc s).2) = requests (trace s) ++ [(url, page)]) ->
  forall fuel page acc s,
    exists k : nat,
      (k <= fuel)%nat /\ (0 < fuel -> 0 < k)%nat /\
      requests (trace (while_true body fuel page acc s).2) =
        requests (trace s) ++ ((fun i => (url, i)) <$> seqZ page (Z.of_nat k)).
Proof.
  intros Hbody. induction fuel as [|fuel IH]; intros page acc s.
  - exists 0%nat. simpl. rewrite app_nil_r. repeat split; lia.
  - simpl while_true. rewrite M_bind_unfold. specialize (Hbody page acc s).
    destruct (body page acc s) as [[[[acc' [|]]|e]|] s1]; simpl in Hbody |- *.
    + destruct (IH (page + 1) acc' s1) as (k & Hk & _ & Hreq).
      exists (S k). split; [lia|]. split; [lia|].
      rewrite Hreq, Hbody, <- app_assoc. f_equal.
      rewrite (seqZ_cons page (Z.of_nat (S k))) by lia. simpl. do 3 f_equal; lia.
    + exists 1%nat. split; [lia|]. split; [lia|]. exact Hbody.
    + exists 1%nat. split; [lia|]. split; [lia|]. exact Hbody.
    + exists 1%nat. split; [lia|]. split; [lia|]. exact Hbody.
Qed.

(** X18. Whatever the API answers (well-formed pages, garbage, errors, a
    page count that never ends), the collector of the entities and the one
    of the metrics send their requests to their own endpoint for pages 1, 2,
    ..., [k] in this order: never a page twice, never a page skipped, always
    page 1, and in a loop of [fuel] turns at most [fuel] requests. *)
Theorem collector_requests_are_consecutive (w : world) (fuel : nat) (s : state) :
  (exists k : nat,
     (k <= fuel)%nat /\ (0 < fuel -> 0 < k)%nat /\
     requests (trace (collect w load_countries.url load_countries.map_country fuel s).2) =
       requests (trace s) ++ ((fun i => (load_countries.url, i)) <$> seqZ 1 (Z.of_nat k))) /\
  (exists k : nat,
     (k <= fuel)%nat /\ (0 < fuel -> 0 < k)%nat /\
     requests (trace (collect w load_indicators.url load_indicators.map_indicator fuel s).2) =
       requests (trace s) ++ ((fun i => (load_indicators.url, i)) <$> seqZ 1 (Z.of_nat k))).
Proof.
  split; apply while_true_requests; intros; apply page_body_requests_once.
Qed.

Lemma collector_requests_are_consecutive_witness :
  exists k : nat,
    (k <= 3)%nat /\ (0 < 3 -> 0 < k)%nat /\
    requests (trace (collect (Samples.healthy Samples.failing_api) load_countries.url
                       load_countries.map_country 3 Samples.fresh).2) =
      requests (trace Samples.fresh) ++
      ((fun i => (load_countries.url, i)) <$> seqZ 1 (Z.of_nat k)).
Proof.
  apply (proj1 (collector_requests_are_consecutive
                  (Samples.healthy Samples.failing_api) 3 Samples.fresh)).
Defined.

(** X19. The same holds for the pages of each indicator of the
    observations: one indicator's loop requests that indicator's pages 1,
    2, ..., [k] in order and nothing else. *)
Theorem indicator_requests_are_consecutive (w : world) (fuel : nat) (code : string)
    (all : list load_values.row) (s : state) :
  exists k : nat,
    (k <= fuel)%nat /\ (0 < fuel -> 0 < k)%nat /\
    requests (trace (load_values.collect_indicator w fuel code all s).2) =
      requests (trace s) ++
      ((fun i => (load_values.indicator_url code, i)) <$> seqZ 1 (Z.of_nat k)).
Proof.
  destruct (while_true_requests (load_values.page_body w code)
              (load_values.indicator_url code)
              (values_page_body_requests_once w code) fuel 1 all
              (State (store s) (ops s) (trace s ++ [Print (MsgIndicator code)])))
    as (k & Hk & Hk' & Hreq).
  exists k. split; [exact Hk|]. split; [exact Hk'|].
  unfold load_values.collect_indicator. rewrite M_bind_unfold. simpl.
  rewrite M_bind_unfold.
  destruct (while_true _ fuel 1 all _) as [[[all'|e]|] s1]; simpl in Hreq |- *.
  - rewrite requests_app, Hreq, requests_app. simpl. rewrite !app_nil_r. reflexivity.
  - rewrite Hreq, requests_app. simpl. rewrite !app_nil_r. reflexivity.
  - rewrite Hreq, requests_app. simpl. rewrite !app_nil_r. reflexivity.
Qed.

Lemma indicator_requests_are_consecutive_witness :
  exists k : nat,
    (k <= 3)%nat /\ (0 < 3 -> 0 < k)%nat /\
    requests (trace (load_values.collect_indicator (Samples.healthy Samples.values_api) 3
                       "SP.POP.TOTL" [] Samples.fresh).2) =
      requests (trace Samples.fresh) ++
      ((fun i => (load_values.indicator_url "SP.POP.TOTL", i)) <$> seqZ 1 (Z.of_nat k)).
Proof.
  apply (indicator_requests_are_consecutive
           (Samples.healthy Samples.values_api) 3 "SP.POP.TOTL" [] Samples.fresh).
Defined.

(** ** The observations collector over all indicators *)

Lemma for_each_fetches_pages (w : world) (p : Z) (fuel : nat) (codes : list string) :
  1 <= p -> (Z.to_nat p <= fuel)%nat ->
  (forall code, code ∈ codes ->
     all_pages_well_formed w (load_values.indicator_url code) load_values.map_value p) ->
  forall all s, exists rows s',
    for_each (load_values.collect_indicator w fuel) codes all s = (Some (Ok rows), s') /\
    requests (trace s') =
      requests (trace s) ++
      (codes ≫= fun code => (fun i => (load_values.indicator_url code, i)) <$> seqZ 1 p).
Proof.
  intros Hp Hfuel. induction codes as [|code codes IH]; intros Hwf all s; simpl.
  - exists all, s. rewrite app_nil_r. split; reflexivity.
  - destruct (collect_indicator_fetches_pages w code all p fuel Hp Hfuel
                (Hwf code (list_elem_of_here _ _)) s) as (rows1 & s1 & Hone & Hreq1).
    destruct (IH (fun c Hc => Hwf c (list_elem_of_further _ _ _ Hc)) rows1 s1)
      as (rows & s' & Hrest & Hreq).
    exists rows, s'. rewrite M_bind_unfold, Hone. split; [exact Hrest|].
    rewrite Hreq, Hreq1, <- app_assoc. reflexivity.
Qed.

Lemma length_bind_pages (p : Z) (codes : list string) :
  length (codes ≫= fun code => (fun i => (load_values.indicator_url code, i)) <$> seqZ 1 p) =
  (length codes * Z.to_nat p)%nat.
Proof.
  induction codes as [|code codes IH]; [reflexivity|].
  rewrite bind_cons, length_app, length_fmap, length_seqZ, IH. reflexivity.
Qed.

(** X20. When every page of every indicator is well formed and announces
    [p] pages, the observations collector returns normally after requesting
    pages 1 to [p] of each of the eleven indicators, indicator after
    indicator in the order of the hard-coded list: [11 * p] requests in
    all. *)
Theorem observations_collector_walks_every_indicator (w : world) (p : Z) (fuel : nat)
    (s : state) :
  1 <= p -> (Z.to_nat p <= fuel)%nat ->
  (forall code, code ∈ load_values.indicators ->
     all_pages_well_formed w (load_values.indicator_url code) load_values.map_value p) ->
  exists rows s',
    load_values.collect w fuel s = (Some (Ok rows), s') /\
    requests (trace s') =
      requests (trace s) ++
      (load_values.indicators ≫= fun code =>
         (fun i => (load_values.indicator_url code, i)) <$> seqZ 1 p) /\
    length (requests (trace s')) = (length (requests (trace s)) + 11 * Z.to_nat p)%nat.
Proof.
  intros Hp Hfuel Hwf.
  destruct (for_each_fetches_pages w p fuel load_values.indicators Hp Hfuel Hwf [] s)
    as (rows & s' & Hrun & Hreq).
  exists rows, s'. split; [exact Hrun|]. split; [exact Hreq|].
  rewrite Hreq, length_app, length_bind_pages. reflexivity.
Qed.

Lemma observations_collector_walks_every_indicator_witness :
  exists rows s',
    load_values.collect (Samples.healthy Samples.values_api) 1 Samples.fresh =
      (Some (Ok rows), s') /\
    length (requests (trace s')) = 11%nat.
Proof.
  destruct (observations_collector_walks_every_indicator
              (Samples.healthy Samples.values_api) 1 1 Samples.fresh)
    as (rows & s' & Hrun & _ & Hlen).
  - lia.
  - simpl. lia.
  - intros code _ page _.
    exists (list_to_map [("page", JNum 1); ("pages", JNum 1)]),
           [Samples.observation (JStr "2020") (JNum 67);
            Samples.observation (JStr "2020") (JNum 67);
            Samples.observation (JStr "2021") JNull].
    split; [reflexivity|]. split; [reflexivity|]. split; [discriminate|].
    repeat constructor.
  - exists rows, s'. split; [exact Hrun | exact Hlen].
Defined.

(** ** Pauses *)

Lemma sleeps_app (t1 t2 : list event) : sleeps (t1 ++ t2) = (sleeps t1 + sleeps t2)%nat.
Proof. unfold sleeps. rewrite filter_app, length_app. reflexivity. Qed.

Lemma pause_free_ret {A} (a : A) : pause_free (mret a : M A).
Proof. intros s. split; [discriminate | reflexivity]. Qed.

Lemma pause_free_lift {A} (r : result A) : pause_free (lift r).
Proof. intros s. split; [discriminate | reflexivity]. Qed.

Lemma pause_free_print (m : message) : pause_free (print m).
Proof.
  intros s. split; [discriminate|]. simpl. rewrite sleeps_app.
  replace (sleeps [Print m]) with 0%nat by reflexivity. lia.
Qed.

Lemma pause_free_bind {A B} (m : M A) (f : A -> M B) :
  pause_free m -> (forall a, pause_free (f a)) -> pause_free (m ≫= f).
Proof.
  intros Hm Hf s. rewrite M_bind_unfold. destruct (Hm s) as [Hfin Hs].
  destruct (m s) as [[[a|e]|] s1]; simpl in *; [|split; [discriminate|exact Hs]|congruence].
  destruct (Hf a s1) as [Hfin' Hs']. split; [exact Hfin' | congruence].
Qed.

Lemma pause_free_http_get (w : world) (url : string) (page : Z) :
  pause_free (http_get w url page).
Proof.
  unfold http_get. apply pause_free_bind; [|intros _; apply pause_free_lift].
  intros s. split; [discriminate|]. simpl. rewrite sleeps_app.
  replace (sleeps [HttpGet url page]) with 0%nat by reflexivity. lia.
Qed.

Lemma paces_bind {A R} (m : M A) (f : A -> M (R * bool)) :
  pause_free m -> (forall a, paces (f a)) -> paces (m ≫= f).
Proof.
  intros Hm Hf s. rewrite M_bind_unfold. destruct (Hm s) as [Hfin Hs].
  destruct (m s) as [[[a|e]|] s1]; simpl in *; [| |congruence].
  - destruct (Hf a s1) as (r & Hr & Hsl). exists r. split; [exact Hr | congruence].
  - exists (Raise e). split; [reflexivity | lia].
Qed.

Lemma paces_break {R} (acc : R) : paces (mret (acc, false) : M (R * bool)).
Proof. intros s. exists (Ok (acc, false)). split; [reflexivity | simpl; lia]. Qed.

Lemma paces_sleep {R} (acc : R) :
  paces (emit Sleep ≫= fun _ => mret (acc, true) : M (R * bool)).
Proof.
  intros s. exists (Ok (acc, true)). split; [reflexivity|]. simpl. rewrite sleeps_app.
  reflexivity.
Qed.

Ltac paces_steps :=
  repeat first
    [ apply paces_break | apply paces_sleep
    | apply pause_free_http_get
    | apply pause_free_ret | apply pause_free_lift | apply pause_free_print
    | apply paces_bind; [|intros ?]
    | apply pause_free_bind; [|intros ?]
    | match goal with |- paces (if ?b then _ else _) => destruct b end
    | match goal with |- pause_free (if ?b then _ else _) => destruct b end ].

Lemma paces_values_page_body (w : world) (code : string) (page : Z)
    (all : list load_values.row) :
  paces (load_values.page_body w code page all).
Proof.
  unfold load_values.page_body. paces_steps.
Qed.

Lemma pause_free_page_body {row} (w : world) (url : string) (f : json -> result row)
    (page : Z) (all : list row) :
  pause_free (page_body w url f page all).
Proof. unfold page_body. paces_steps. Qed.

Lemma while_true_paces {R} (body : Z -> R -> M (R * bool)) (url : string) :
  (forall page acc, paces (body page acc)) ->
  (forall page acc s,
     requests (trace (body page acc s).2) = requests (trace s) ++ [(url, page)]) ->
  forall fuel page acc s,
    let final := while_true body fuel page acc s in
    (sleeps (trace final.2) + length (requests (trace s)) +
       match final.1 with Some _ => 1 | None => 0 end =
     sleeps (trace s) + length (requests (trace final.2)))%nat /\
    (final.1 = None -> fuel = 0%nat \/ (0 < sleeps (trace final.2))%nat).
Proof.
  intros Hpaces Hreq. induction fuel as [|fuel IH]; intros page acc s; simpl.
  - split; [lia | left; reflexivity].
  - rewrite M_bind_unfold. destruct (Hpaces page acc s) as (r & Hr & Hsl).
    specialize (Hreq page acc s).
    destruct (body page acc s) as [o s1]. simpl in Hr, Hsl, Hreq. subst o.
    destruct r as [[acc' [|]]|e]; simpl.
    + destruct (IH (page + 1) acc' s1) as [Hcount Hnone]. simpl in Hcount, Hnone.
      rewrite Hreq, length_app in Hcount. simpl in Hcount. split; [lia|].
      intros Hn. right. destruct (Hnone Hn) as [-> | Hpos]; [|lia].
      simpl. lia.
    + rewrite Hreq, length_app. simpl. split; [lia | discriminate].
    + rewrite Hreq, length_app. simpl. split; [lia | discriminate].
Qed.

(** X21. In the loop over the pages of one indicator, whatever the API
    answers, a pause of half a second follows a page request exactly when
    another page request follows: once the loop has ended (normally or by
    an exception) it has paused one time less than it has requested pages.
    The collectors of the entities and of the metrics never pause. *)
Theorem pauses_sit_between_requests (w : world) (fuel : nat) (code : string)
    (all : list load_values.row) (s : state) :
  (forall r s',
     load_values.collect_indicator w fuel code all s = (Some r, s') ->
     (sleeps (trace s') + length (requests (trace s)) + 1 =
      sleeps (trace s) + length (requests (trace s')))%nat) /\
  sleeps (trace (collect w load_countries.url load_countries.map_country fuel s).2) =
    sleeps (trace s) /\
  sleeps (trace (collect w load_indicators.url load_indicators.map_indicator fuel s).2) =
    sleeps (trace s).
Proof.
  assert (Hquiet : forall {row} url (f : json -> result row) fuel page acc s,
            sleeps (trace (while_true (page_body w url f) fuel page acc s).2) =
            sleeps (trace s)).
  { intros row url f n. induction n as [|n IH]; intros page acc s0; simpl; [reflexivity|].
    rewrite M_bind_unfold. destruct (pause_free_page_body w url f page acc s0) as [_ Hsl].
    destruct (page_body w url f page acc s0) as [[[[acc' [|]]|e]|] s1]; simpl in *;
      try exact Hsl.
    rewrite IH. exact Hsl. }
  split; [|split; apply Hquiet].
  intros r s'. unfold load_values.collect_indicator.
  rewrite M_bind_unfold. simpl. rewrite M_bind_unfold.
  pose proof (while_true_paces (load_values.page_body w code)
                (load_values.indicator_url code)
                (paces_values_page_body w code)
                (values_page_body_requests_once w code) fuel 1 all
                (State (store s) (ops s) (trace s ++ [Print (MsgIndicator code)])))
    as [Hcount _].
  simpl in Hcount.
  destruct (while_true _ fuel 1 all _) as [[[all'|e]|] s1]; simpl in *;
    [| |discriminate].
  - intros [= <- <-]. simpl.
    rewrite ?sleeps_app, ?requests_app, ?length_app in *. simpl in *.
    replace (sleeps [Print (MsgIndicator code)]) with 0%nat in Hcount by reflexivity.
    replace (sleeps [Print (MsgIndicatorDone code (length all'))]) with 0%nat by reflexivity.
    lia.
  - intros [= <- <-].
    rewrite ?sleeps_app, ?requests_app, ?length_app in *. simpl in *.
    replace (sleeps [Print (MsgIndicator code)]) with 0%nat in Hcount by reflexivity.
    lia.
Qed.

Lemma pauses_sit_between_requests_witness :
  let final := load_values.collect_indicator
                 (Samples.healthy Samples.countries_api) 5 "SP.POP.TOTL" [] Samples.fresh in
  final.1 = Some (Ok []) /\
  length (requests (trace final.2)) = 2%nat /\
  (sleeps (trace final.2) + 0 + 1 = 0 + length (requests (trace final.2)))%nat.
Proof.
  intros final. split; [vm_compute; reflexivity|]. split; [vm_compute; reflexivity|].
  eapply (proj1 (pauses_sit_between_requests
                   (Samples.healthy Samples.countries_api) 5 "SP.POP.TOTL" [] Samples.fresh)).
  vm_compute. reflexivity.
Defined.

(** ** Where an exception can leave [main] *)








Lemma quiet_try_collect {row} (collect : M (list row)) :
  quiet collect -> quiet (try_collect collect).
Proof.
  intros Hq. unfold try_collect. apply quiet_try_except.
  - apply quiet_bind; [exact Hq | intros all; apply quiet_ret].
  - intros e. apply quiet_bind; [apply quiet_print | intros _; apply quiet_ret].
Qed.




(** ** The other tables of the store *)

Lemma touches_only_quiet {A} (name : string) (m : M A) : quiet m -> touches_only name m.
Proof. intros Hq s other _. destruct (Hq s) as [-> _]. reflexivity. Qed.

Lemma touches_only_bind {A B} (name : string) (m : M A) (f : A -> M B) :
  touches_only name m -> (forall a, touches_only name (f a)) ->
  touches_only name (m ≫= f).
Proof.
  intros Hm Hf s other Hne. rewrite M_bind_unfold. specialize (Hm s other Hne).
  destruct (m s) as [[[a|e]|] s1]; simpl in *; try exact Hm.
  rewrite <- Hm. apply Hf, Hne.
Qed.

Lemma touches_only_load (w : world) (name : string) (cols : list (string * string))
    (df : list tuple) :
  touches_only name (load w name (create_table w name cols) df).
Proof.
  intros s other Hne.
  load_cases df; simpl;
    rewrite ?lookup_insert_ne, ?lookup_delete_ne by congruence; reflexivity.
Qed.

Lemma touches_only_run {row} (w : world) (greeting : bool) (collect : M (list row))
    (transform : list row -> M (list tuple)) (name : string) (cols : list (string * string)) :
  quiet collect -> (forall all, quiet (transform all)) ->
  touches_only name (run w greeting collect transform name (create_table w name cols)).
Proof.
  intros Hq Ht. unfold run.
  apply touches_only_bind; [apply touches_only_quiet, quiet_startup|].
  intros [|]; [|apply touches_only_quiet, quiet_ret].
  apply touches_only_bind; [apply touches_only_quiet, quiet_print|]. intros _.
  apply touches_only_bind; [apply touches_only_quiet, quiet_try_collect, Hq|].
  intros [[|r all]|].
  - apply touches_only_quiet, quiet_print.
  - apply touches_only_bind; [apply touches_only_quiet, Ht|]. intros df.
    apply touches_only_bind; [apply touches_only_quiet, quiet_print|]. intros _.
    apply touches_only_load.
  - apply touches_only_quiet, quiet_ret.
Qed.

(** X23. Whatever the world does and however the run ends, each script
    leaves every table of the store other than its own destination table
    exactly as it found it. *)
Theorem scripts_touch_only_their_table (w : world) (fuel : nat) :
  touches_only "worldbank_countries" (load_countries.main w fuel) /\
  touches_only "worldbank_indicators" (load_indicators.main w fuel) /\
  touches_only "worldbank_values" (load_values.main w fuel).
Proof.
  split; [|split].
  - apply touches_only_run; [apply quiet_collect|].
    intros all. unfold load_countries.transform. quiet_steps.
  - apply touches_only_run; [apply quiet_collect|].
    intros all. unfold load_indicators.transform. quiet_steps.
  - apply touches_only_run; [apply quiet_values_collect|].
    intros all. unfold load_values.transform. quiet_steps.
Qed.

Lemma scripts_touch_only_their_table_witness :
  store (load_values.main (Samples.healthy Samples.values_api) 1 Samples.loaded).2
    !! "worldbank_countries" =
  store Samples.loaded !! "worldbank_countries".
Proof.
  apply (proj2 (proj2 (scripts_touch_only_their_table
                         (Samples.healthy Samples.values_api) 1))).
  discriminate.
Defined.
